(** * Vidtube: request handlers over a document store and a media gateway

    A shallow embedding of the Vidtube backend controllers
    (video, comment, tweet, like, subscription, playlist, dashboard),
    of the video schema and of the Cloudinary adapter, followed by the
    properties established about them.

    Every handler is an [async] function over the Express request: it
    reads and writes MongoDB collections, may call the media gateway and
    the local file system, sends a response through [res] or throws.
    Handlers are embedded as computations in a state-and-exception monad
    over [World]. *)

From Stdlib Require Import ZArith NArith QArith String Ascii List Lia Sorted.
From stdpp Require Import base option list gmap fin_maps strings.

Local Open Scope string_scope.
Local Open Scope nat_scope.

(** ** Identifiers and numbers *)

(** A MongoDB ObjectId is twelve bytes; it is carried as the number those
    bytes denote, so that [toString()] comparison and [equals] are equality. *)
Abbreviation ObjectId := N (only parsing).

(** A stored JavaScript number (mongoose never stores NaN: the cast fails). *)
Definition Number : Type := Q.

#[global] Instance Number_eq_dec : EqDecision Number.
Proof. solve_decision. Defined.

(** ** Documents *)

Module User.
(** Modelled from the spec: models/user.model.js is not under src/; the
    handlers only ever read the owner's public profile fields
    (display name, handle, avatar). *)
Record t : Type := mk {
  fullName : string;
  username : string;
  avatar : string
}.
End User.

Module Video.
(** videoSchema, with the two timestamps of [timestamps: true]. The key
    [_id] of a document is its key in the collection. *)
Record t : Type := mk {
  videoFile : string;
  videoPublicId : string;
  thumbnail : string;
  thumbnailPublicId : string;
  title : string;
  description : string;
  duration : Number;
  views : Number;
  isPublished : bool;
  likes : list ObjectId;
  comments : list ObjectId;
  owner : ObjectId;
  createdAt : N;
  updatedAt : N
}.

Definition set_title (x : string) (v : t) : t :=
  mk (videoFile v) (videoPublicId v) (thumbnail v) (thumbnailPublicId v)
     x (description v) (duration v) (views v) (isPublished v)
     (likes v) (comments v) (owner v) (createdAt v) (updatedAt v).

Definition set_description (x : string) (v : t) : t :=
  mk (videoFile v) (videoPublicId v) (thumbnail v) (thumbnailPublicId v)
     (title v) x (duration v) (views v) (isPublished v)
     (likes v) (comments v) (owner v) (createdAt v) (updatedAt v).

Definition set_thumbnail (x : string) (v : t) : t :=
  mk (videoFile v) (videoPublicId v) x (thumbnailPublicId v)
     (title v) (description v) (duration v) (views v) (isPublished v)
     (likes v) (comments v) (owner v) (createdAt v) (updatedAt v).

Definition set_isPublished (x : bool) (v : t) : t :=
  mk (videoFile v) (videoPublicId v) (thumbnail v) (thumbnailPublicId v)
     (title v) (description v) (duration v) (views v) x
     (likes v) (comments v) (owner v) (createdAt v) (updatedAt v).

Definition set_likes (x : list ObjectId) (v : t) : t :=
  mk (videoFile v) (videoPublicId v) (thumbnail v) (thumbnailPublicId v)
     (title v) (description v) (duration v) (views v) (isPublished v)
     x (comments v) (owner v) (createdAt v) (updatedAt v).

Definition set_comments (x : list ObjectId) (v : t) : t :=
  mk (videoFile v) (videoPublicId v) (thumbnail v) (thumbnailPublicId v)
     (title v) (description v) (duration v) (views v) (isPublished v)
     (likes v) x (owner v) (createdAt v) (updatedAt v).

Definition set_updatedAt (x : N) (v : t) : t :=
  mk (videoFile v) (videoPublicId v) (thumbnail v) (thumbnailPublicId v)
     (title v) (description v) (duration v) (views v) (isPublished v)
     (likes v) (comments v) (owner v) (createdAt v) x.

#[global] Instance video_eq_dec : EqDecision t.
Proof. solve_decision. Defined.
End Video.

Module Comment.
(** Modelled from the spec: models/comment.model.js is not under src/;
    content, video, owner and the denormalized likes list. *)
Record t : Type := mk {
  content : string;
  video : ObjectId;
  owner : ObjectId;
  likes : list ObjectId;
  createdAt : N;
  updatedAt : N
}.

Definition set_content (x : string) (c : t) : t :=
  mk x (video c) (owner c) (likes c) (createdAt c) (updatedAt c).

Definition set_updatedAt (x : N) (c : t) : t :=
  mk (content c) (video c) (owner c) (likes c) (createdAt c) x.

#[global] Instance comment_eq_dec : EqDecision t.
Proof. solve_decision. Defined.
End Comment.

Module Tweet.
(** Modelled from the spec: models/tweet.model.js is not under src/;
    content, owner and the optional tweet replied to. *)
Record t : Type := mk {
  content : string;
  owner : ObjectId;
  replyTo : option ObjectId;
  createdAt : N;
  updatedAt : N
}.
End Tweet.

Module Like.
(** Modelled from the spec: models/like.model.js is not under src/; the
    liking user and the reference to the liked video, comment or tweet. *)
Record t : Type := mk {
  likedBy : ObjectId;
  video : option ObjectId;
  comment : option ObjectId;
  tweet : option ObjectId;
  createdAt : N;
  updatedAt : N
}.
End Like.

Module Playlist.
(** Modelled from the spec: models/playlist.model.js is not under src/;
    name, description, owner and the ordered list of videos. *)
Record t : Type := mk {
  name : string;
  description : string;
  videos : list ObjectId;
  owner : ObjectId;
  createdAt : N;
  updatedAt : N
}.
End Playlist.

Module Subscription.
(** Modelled from the spec: models/subscription.model.js is not under
    src/; the subscribing user and the channel subscribed to. *)
Record t : Type := mk {
  subscriber : ObjectId;
  channel : ObjectId;
  createdAt : N;
  updatedAt : N
}.
End Subscription.

(** ** The media gateway (Cloudinary) and the local file system *)

Inductive ResourceType : Type := RAuto | RVideo | RImage.

Record UploadApiResponse : Type := mkUpload {
  url : string;
  public_id : string
}.

Record DestroyResponse : Type := mkDestroy {
  result : string
}.

(** What was asked of the gateway, in call order. *)
Inductive GatewayCall : Type :=
| Upload (localFilePath publicId : string) (resource_type : ResourceType)
| Destroy (publicId : string) (resource_type : ResourceType).

(** ** Responses and exceptions *)

(** The fields kept by [.select("title thumbnail videoFile duration likes
    createdAt")], with the populated owner when the query populates it. *)
Record VideoCard : Type := mkVideoCard {
  vc_id : ObjectId;
  vc_title : string;
  vc_thumbnail : string;
  vc_videoFile : string;
  vc_duration : Number;
  vc_likes : list ObjectId;
  vc_createdAt : N;
  vc_owner : option User.t
}.

(** The fields kept by the [$project] stage of the listing pipeline. *)
Record ListedVideo : Type := mkListedVideo {
  lv_id : ObjectId;
  lv_title : string;
  lv_description : string;
  lv_thumbnail : string;
  lv_videoFile : string;
  lv_duration : Number;
  lv_createdAt : N;
  lv_owner : option User.t
}.

(** The result object of mongoose-aggregate-paginate-v2, with the custom
    label [videos] for the page of documents. *)
Record Paginated : Type := mkPaginated {
  pg_videos : list ListedVideo;
  pg_totalDocs : N;
  pg_limit : N;
  pg_page : N;
  pg_totalPages : N
}.

(** The fields kept by [.select("name description videos createdAt
    updatedAt")]. *)
Record PlaylistCard : Type := mkPlaylistCard {
  pc_id : ObjectId;
  pc_name : string;
  pc_description : string;
  pc_videos : list ObjectId;
  pc_createdAt : N;
  pc_updatedAt : N
}.

Inductive Data : Type :=
| DNull
| DEmptyObject
| DVideo (_id : ObjectId) (video : Video.t)
| DVideoField (_id : ObjectId) (video : Video.t)
| DComment (_id : ObjectId) (comment : Comment.t)
| DTweets (tweets : list (ObjectId * Tweet.t))
| DLikeStatus (videoId : ObjectId) (likesCount : nat) (userLiked : bool)
| DVideoCards (videos : list VideoCard)
| DSubscription (_id : ObjectId) (subscription : Subscription.t)
| DPlaylists (playlists : list PlaylistCard)
| DPage (videos : option Paginated).

(** Modelled from the spec: utils/ApiResponse.js is not under src/; a
    success envelope carries a status code, a data payload and a
    human-readable message. *)
Record ApiResponse : Type := mkApiResponse {
  statusCode : nat;
  data : Data;
  message : string
}.

(** What [res.json] is given: an envelope, or the literal
    [{message: []}] of the listing handler. *)
Inductive Body : Type :=
| JApiResponse (r : ApiResponse)
| JMessageEmptyList.

(** Modelled from the spec: utils/ApiError.js is not under src/; an
    [ApiError] carries a status code and a message and no data. The other
    exceptions a handler may meet are raised by mongoose, Node, Express
    and the gateway client. *)
Inductive Exn : Type :=
| ApiError (statusCode : nat) (message : string)
| ValidationError (paths : list string)
| CastError (path : string)
| DocumentNotFoundError
| TypeError (message : string)
| ERR_HTTP_HEADERS_SENT
| ENOENT (path : string)
| CloudinaryError.

(** ** The world a handler runs in *)

Record World : Type := mkWorld {
  Videos : gmap ObjectId Video.t;
  Comments : gmap ObjectId Comment.t;
  Tweets : gmap ObjectId Tweet.t;
  Likes : gmap ObjectId Like.t;
  Playlists : gmap ObjectId Playlist.t;
  Subscriptions : gmap ObjectId Subscription.t;
  Users : gmap ObjectId User.t;
  (** the clock read by the timestamps plugin *)
  now : N;
  (** the local temporary files *)
  files : gset string;
  (** how the gateway answers; [None] is a rejected promise *)
  cloudinary_upload : string → string → option UploadApiResponse;
  cloudinary_destroy : string → ResourceType → option DestroyResponse;
  gateway_calls : list GatewayCall;
  (** the identifiers [uuidv4()] hands out, and how many were taken *)
  uuids : nat → string;
  uuids_taken : nat;
  (** the Express response object *)
  res_statusCode : nat;
  res_sent : option (nat * Body)
}.

Definition set_Videos (x : gmap ObjectId Video.t) (w : World) : World :=
  mkWorld x (Comments w) (Tweets w) (Likes w) (Playlists w) (Subscriptions w)
    (Users w) (now w) (files w) (cloudinary_upload w) (cloudinary_destroy w)
    (gateway_calls w) (uuids w) (uuids_taken w) (res_statusCode w) (res_sent w).

Definition set_Comments (x : gmap ObjectId Comment.t) (w : World) : World :=
  mkWorld (Videos w) x (Tweets w) (Likes w) (Playlists w) (Subscriptions w)
    (Users w) (now w) (files w) (cloudinary_upload w) (cloudinary_destroy w)
    (gateway_calls w) (uuids w) (uuids_taken w) (res_statusCode w) (res_sent w).

Definition set_Tweets (x : gmap ObjectId Tweet.t) (w : World) : World :=
  mkWorld (Videos w) (Comments w) x (Likes w) (Playlists w) (Subscriptions w)
    (Users w) (now w) (files w) (cloudinary_upload w) (cloudinary_destroy w)
    (gateway_calls w) (uuids w) (uuids_taken w) (res_statusCode w) (res_sent w).

Definition set_Likes (x : gmap ObjectId Like.t) (w : World) : World :=
  mkWorld (Videos w) (Comments w) (Tweets w) x (Playlists w) (Subscriptions w)
    (Users w) (now w) (files w) (cloudinary_upload w) (cloudinary_destroy w)
    (gateway_calls w) (uuids w) (uuids_taken w) (res_statusCode w) (res_sent w).

Definition set_Subscriptions (x : gmap ObjectId Subscription.t) (w : World)
  : World :=
  mkWorld (Videos w) (Comments w) (Tweets w) (Likes w) (Playlists w) x
    (Users w) (now w) (files w) (cloudinary_upload w) (cloudinary_destroy w)
    (gateway_calls w) (uuids w) (uuids_taken w) (res_statusCode w) (res_sent w).

Definition set_files (x : gset string) (w : World) : World :=
  mkWorld (Videos w) (Comments w) (Tweets w) (Likes w) (Playlists w)
    (Subscriptions w) (Users w) (now w) x (cloudinary_upload w)
    (cloudinary_destroy w) (gateway_calls w) (uuids w) (uuids_taken w)
    (res_statusCode w) (res_sent w).

Definition set_gateway_calls (x : list GatewayCall) (w : World) : World :=
  mkWorld (Videos w) (Comments w) (Tweets w) (Likes w) (Playlists w)
    (Subscriptions w) (Users w) (now w) (files w) (cloudinary_upload w)
    (cloudinary_destroy w) x (uuids w) (uuids_taken w)
    (res_statusCode w) (res_sent w).

Definition set_uuids_taken (x : nat) (w : World) : World :=
  mkWorld (Videos w) (Comments w) (Tweets w) (Likes w) (Playlists w)
    (Subscriptions w) (Users w) (now w) (files w) (cloudinary_upload w)
    (cloudinary_destroy w) (gateway_calls w) (uuids w) x
    (res_statusCode w) (res_sent w).

Definition set_res_statusCode (x : nat) (w : World) : World :=
  mkWorld (Videos w) (Comments w) (Tweets w) (Likes w) (Playlists w)
    (Subscriptions w) (Users w) (now w) (files w) (cloudinary_upload w)
    (cloudinary_destroy w) (gateway_calls w) (uuids w) (uuids_taken w)
    x (res_sent w).

Definition set_res_sent (x : option (nat * Body)) (w : World) : World :=
  mkWorld (Videos w) (Comments w) (Tweets w) (Likes w) (Playlists w)
    (Subscriptions w) (Users w) (now w) (files w) (cloudinary_upload w)
    (cloudinary_destroy w) (gateway_calls w) (uuids w) (uuids_taken w)
    (res_statusCode w) x.

(** ** The handler monad: state and exceptions *)

Definition M (A : Type) : Type := World → (Exn + A) * World.

#[global] Instance M_ret : MRet M := λ A (a : A) w, (inr a, w).

#[global] Instance M_bind : MBind M := λ A B (f : A → M B) (m : M A) w,
  match m w with
  | (inr a, w') => f a w'
  | (inl e, w') => (inl e, w')
  end.

Definition throw {A : Type} (e : Exn) : M A := λ w, (inl e, w).

Definition try_catch {A : Type} (body : M A) (handler : Exn → M A) : M A :=
  λ w, match body w with
       | (inl e, w') => handler e w'
       | r => r
       end.

Definition gets {A : Type} (f : World → A) : M A := λ w, (inr (f w), w).

Definition modify (f : World → World) : M unit := λ w, (inr tt, f w).

(** ** Express: [res.status(c)] and [res.json(body)] *)

Definition res_status (c : nat) : M unit := modify (set_res_statusCode c).

(** A second [json] on the same response cannot set headers any more. *)
Definition res_json (body : Body) : M unit := λ w,
  match res_sent w with
  | Some _ => (inl ERR_HTTP_HEADERS_SENT, w)
  | None => (inr tt, set_res_sent (Some (res_statusCode w, body)) w)
  end.

(** ** Node: [fs.unlinkSync] *)

Definition unlinkSync (path : string) : M unit := λ w,
  if decide (path ∈ files w)
  then (inr tt, set_files (files w ∖ {[path]}) w)
  else (inl (ENOENT path), w).

(** ** JavaScript values as the handlers see them *)

(** Strings are sequences of code units below 256. [!s] holds of the
    empty string and of [undefined]. *)
Definition truthy (x : option string) : bool :=
  match x with
  | Some s => negb (String.eqb s "")
  | None => false
  end.

(** The white space and line terminators [String.prototype.trim] strips:
    TAB, LF, VT, FF, CR, SP and NBSP. *)
Definition isWhiteSpace (c : ascii) : bool :=
  let n := nat_of_ascii c in
  (Nat.leb 9 n && Nat.leb n 13) || Nat.eqb n 32 || Nat.eqb n 160.

Fixpoint trimStart_chars (l : list ascii) : list ascii :=
  match l with
  | [] => []
  | c :: l' => if isWhiteSpace c then trimStart_chars l' else l
  end.

Definition trim (s : string) : string :=
  string_of_list_ascii
    (rev (trimStart_chars (rev (trimStart_chars (list_ascii_of_string s))))).

(** ** The aggregation pipeline of the video listing, as data *)

Inductive Stage : Type :=
| MatchSearch (query : string)
| MatchOwner (owner : ObjectId)
| SortBy (field : string) (direction : Z)
| LookupOwner
| AddFieldsFirstOwner
| ProjectListing.

Record PaginateOptions : Type := mkOptions {
  opt_page : option Z;
  opt_limit : option Z
}.

(** ** What the handlers take from outside the repository

    mongoose's ObjectId parser, JavaScript's [parseInt] ([None] is NaN),
    mongoose's cast of a string to a Number, and the aggregation engine
    behind [Video.aggregatePaginate(Video.aggregate(pipeline), options)],
    which answers from the collections with a page, with nothing, or by
    rejecting. *)
Class Externals : Type := mkExternals {
  castObjectId : string → option ObjectId;
  parseInt : string → option Z;
  castNumber : string → option Number;
  aggregatePaginate :
    list Stage → PaginateOptions → World → Exn + option Paginated
}.

(** ** The request *)

Record Request : Type := mkRequest {
  params_videoId : option string;
  params_commentId : option string;
  params_tweetId : option string;
  params_channelId : option string;
  params_userId : option string;
  body_title : option string;
  body_description : option string;
  body_duration : option string;
  body_content : option string;
  query_page : option string;
  query_limit : option string;
  query_query : option string;
  query_sortBy : option string;
  query_sortType : option string;
  query_userId : option string;
  (** [req.files?.videoFile?.[0]?.path] and [req.files?.thumbnail?.[0]?.path] *)
  files_videoFile : option string;
  files_thumbnail : option string;
  (** [req.file.path], when multer stored a single file *)
  file : option string;
  (** [req.user._id], when the authentication middleware set [req.user] *)
  user : option ObjectId
}.

(** [req.user._id]: reading [_id] of [undefined] throws. *)
Definition req_user_id (req : Request) : M ObjectId :=
  match user req with
  | Some u => mret u
  | None => throw (TypeError "Cannot read properties of undefined")
  end.

Section Model.
Context {E : Externals}.

(** [mongoose.Types.ObjectId.isValid] and [isValidObjectId]: the value
    can be cast to an ObjectId. *)
Definition isValid (x : option string) : bool :=
  match x with
  | Some s => match castObjectId s with Some _ => true | None => false end
  | None => false
  end.

(** The cast mongoose applies to an identifier given to a query. *)
Definition toObjectId (path : string) (x : option string) : M ObjectId :=
  match x ≫= castObjectId with
  | Some i => mret i
  | None => throw (CastError path)
  end.

(** *** Collections *)

(** [Model.findById(id)]: the document with its [_id], or [null]. *)
Definition findById {A : Type} (coll : World → gmap ObjectId A)
    (x : option string) : M (option (ObjectId * A)) :=
  i ← toObjectId "_id" x;
  d ← gets (λ w, coll w !! i);
  mret (pair i <$> d).

(** The documents of a collection that match a filter, in natural
    order: the order in which the collection lists its documents. *)
Definition matching {A : Type} (P : A → bool) (m : gmap ObjectId A)
  : list (ObjectId * A) :=
  List.filter (λ d, P d.2) (map_to_list m).

(** [Model.find(filter)]. *)
Definition find {A : Type} (coll : World → gmap ObjectId A)
    (P : A → bool) : M (list (ObjectId * A)) :=
  gets (λ w, matching P (coll w)).

(** [Model.findOne(filter)]: the first matching document, or [null]. *)
Definition findOne {A : Type} (coll : World → gmap ObjectId A)
    (P : A → bool) : M (option (ObjectId * A)) :=
  ds ← find coll P; mret (head ds).

(** [Model.countDocuments(filter)]. *)
Definition countDocuments {A : Type} (coll : World → gmap ObjectId A)
    (P : A → bool) : M nat :=
  ds ← find coll P; mret (length ds).

(** The [_id] the driver gives a new document: one not in use. *)
Definition newObjectId {A : Type} (m : gmap ObjectId A) : ObjectId :=
  fresh (dom m).

(** [Model.findByIdAndDelete(id)]. *)
Definition findByIdAndDelete {A : Type} (coll : World → gmap ObjectId A)
    (set : gmap ObjectId A → World → World) (x : option string)
  : M (option (ObjectId * A)) :=
  i ← toObjectId "_id" x;
  d ← gets (λ w, coll w !! i);
  modify (λ w, set (delete i (coll w)) w);;
  mret (pair i <$> d).

(** [Model.findOneAndDelete(filter)]: the first match is removed. *)
Definition findOneAndDelete {A : Type} (coll : World → gmap ObjectId A)
    (set : gmap ObjectId A → World → World) (P : A → bool)
  : M (option (ObjectId * A)) :=
  d ← findOne coll P;
  match d with
  | Some (i, _) => modify (λ w, set (delete i (coll w)) w);; mret d
  | None => mret None
  end.

(** [Model.deleteOne({_id})]. *)
Definition deleteOne {A : Type} (coll : World → gmap ObjectId A)
    (set : gmap ObjectId A → World → World) (i : ObjectId) : M unit :=
  modify (λ w, set (delete i (coll w)) w).

(** Modelled from the spec: the Like and Subscription schemas are not
    under src/ and the spec states no validator for them; [Model.create(doc)]
    inserts under a new [_id], and [doc] is given the clock for its
    timestamps. *)
Definition create {A : Type} (coll : World → gmap ObjectId A)
    (set : gmap ObjectId A → World → World) (doc : N → A)
  : M (ObjectId * A) := λ w,
  let i := newObjectId (coll w) in
  let d := doc (now w) in
  (inr (i, d), set (<[i := d]> (coll w)) w).

(** [.sort({createdAt: -1})]. *)
Fixpoint insert_desc {A : Type} (key : A → N) (x : A) (l : list A)
  : list A :=
  match l with
  | [] => [x]
  | y :: l' =>
      if (key y <? key x)%N then x :: l else y :: insert_desc key x l'
  end.

Definition sort_desc {A : Type} (key : A → N) (l : list A) : list A :=
  foldr (insert_desc key) [] l.

(** *** videoSchema: the validators *)

Definition valid_required (s : string) : bool := negb (String.eqb s "").

Definition valid_title (s : string) : bool :=
  Nat.leb 3 (String.length s) && Nat.leb (String.length s) 100.

Definition valid_description (s : string) : bool :=
  Nat.leb 10 (String.length s) && Nat.leb (String.length s) 5000.

Definition failing (path : string) (ok : bool) : list string :=
  if ok then [] else [path].

(** The paths of a new document that fail validation; [duration] is
    the outcome of the cast of the value given. *)
Definition invalid_paths (videoFile videoPublicId thumbnail
    thumbnailPublicId title description : string)
    (duration : option Number) : list string :=
  failing "videoFile" (valid_required videoFile) ++
  failing "videoPublicId" (valid_required videoPublicId) ++
  failing "thumbnail" (valid_required thumbnail) ++
  failing "thumbnailPublicId" (valid_required thumbnailPublicId) ++
  failing "title" (valid_title title) ++
  failing "description" (valid_description description) ++
  failing "duration" (bool_decide (is_Some duration)).

(** The modified paths of a loaded document that fail validation on
    [save]: only paths whose value changed are validated. *)
Definition invalid_modified_paths (old new : Video.t) : list string :=
  failing "thumbnail"
    (bool_decide (Video.thumbnail old = Video.thumbnail new)
     || valid_required (Video.thumbnail new)) ++
  failing "title"
    (bool_decide (Video.title old = Video.title new)
     || valid_title (Video.title new)) ++
  failing "description"
    (bool_decide (Video.description old = Video.description new)
     || valid_description (Video.description new)).

(** [Video.create({...})]: validate, then insert under a new [_id] with
    the schema defaults and the timestamps. *)
Definition Video_create (title description : string)
    (videoFile videoPublicId thumbnail thumbnailPublicId : string)
    (duration : string) (owner : ObjectId) : M (ObjectId * Video.t) :=
  let d := castNumber duration in
  match invalid_paths videoFile videoPublicId thumbnail thumbnailPublicId
          title description d, d with
  | [], Some n =>
      λ w,
        let i := newObjectId (Videos w) in
        let v := Video.mk videoFile videoPublicId thumbnail
                   thumbnailPublicId title description n 0%Q true [] []
                   owner (now w) (now w) in
        (inr (i, v), set_Videos (<[i := v]> (Videos w)) w)
  | paths, _ => throw (ValidationError paths)
  end.

(** [video.save()] on a document loaded as [old] and changed to [new]:
    nothing happens when nothing changed; otherwise the modified paths
    are validated and the document is written with a new [updatedAt]. *)
Definition Video_save (i : ObjectId) (old new : Video.t) : M Video.t :=
  if decide (old = new) then mret new
  else
    match invalid_modified_paths old new with
    | [] =>
        λ w,
          match Videos w !! i with
          | Some _ =>
              let v := Video.set_updatedAt (now w) new in
              (inr v, set_Videos (<[i := v]> (Videos w)) w)
          | None => (inl DocumentNotFoundError, w)
          end
    | paths => throw (ValidationError paths)
    end.

(** Modelled from the spec: models/comment.model.js is not under src/ and
    the spec states no bound on [content]; [comment.save()] writes a
    changed document with a new [updatedAt], as [video.save()] does. *)
Definition Comment_save (i : ObjectId) (old new : Comment.t)
  : M Comment.t :=
  if decide (old = new) then mret new
  else
    λ w,
      match Comments w !! i with
      | Some _ =>
          let c := Comment.set_updatedAt (now w) new in
          (inr c, set_Comments (<[i := c]> (Comments w)) w)
      | None => (inl DocumentNotFoundError, w)
      end.

(** *** utils/cloudinary.js *)

Definition uuidv4 : M string := λ w,
  (inr (uuids w (uuids_taken w)), set_uuids_taken (S (uuids_taken w)) w).

(** [cloudinary.uploader.upload(path, {resource_type, public_id})]. *)
Definition uploader_upload (path publicId : string) (rt : ResourceType)
  : M UploadApiResponse := λ w,
  let w' := set_gateway_calls
              (gateway_calls w ++ [Upload path publicId rt]) w in
  match cloudinary_upload w path publicId with
  | Some r => (inr r, w')
  | None => (inl CloudinaryError, w')
  end.

(** [cloudinary.uploader.destroy(publicId, {resource_type})]. *)
Definition uploader_destroy (publicId : string) (rt : ResourceType)
  : M DestroyResponse := λ w,
  let w' := set_gateway_calls (gateway_calls w ++ [Destroy publicId rt]) w in
  match cloudinary_destroy w publicId rt with
  | Some r => (inr r, w')
  | None => (inl CloudinaryError, w')
  end.

Definition uploadOnCloudinary (localFilePath : string)
  : M (option UploadApiResponse) :=
  try_catch
    (if negb (truthy (Some localFilePath)) then mret None
     else
       u ← uuidv4;
       let publicId := "$" +:+ u in
       response ← uploader_upload localFilePath publicId RAuto;
       unlinkSync localFilePath;;
       mret (Some response))
    (λ error, unlinkSync localFilePath;; mret None).

Definition deleteFromCloudinary (publicId : string)
  : M (option DestroyResponse) :=
  try_catch
    (if negb (truthy (Some publicId)) then mret None
     else
       response ← uploader_destroy publicId RVideo;
       mret (Some response))
    (λ error, mret None).

Definition deleteImageFromCloudinary (publicId : string)
  : M (option DestroyResponse) :=
  try_catch
    (if negb (truthy (Some publicId)) then mret None
     else
       response ← uploader_destroy publicId RImage;
       mret (Some response))
    (λ error, mret None).

(** *** controllers/video.controller.js *)

(** The [options] object of [getAllVideos]: [page] and [limit] default
    to the numbers 1 and 10 and go through [parseInt]. *)
Definition listingOptions (req : Request) : PaginateOptions :=
  let page := match query_page req with
              | Some s => parseInt s | None => Some 1%Z end in
  let limit := match query_limit req with
               | Some s => parseInt s | None => Some 10%Z end in
  mkOptions page limit.

(** The [pipeline] array of [getAllVideos], stage by stage. *)
Definition listingPipeline (req : Request) : M (list Stage) :=
  let query := query_query req in
  let sortBy := default "createdAt" (query_sortBy req) in
  let sortType := default "desc" (query_sortType req) in
  let userId := query_userId req in
  let pipeline1 :=
    if truthy query then [MatchSearch (default "" query)] else [] in
  pipeline2 ←
    (if truthy userId then
       if negb (isValid userId) then throw (ApiError 400 "Invalid user ID")
       else o ← toObjectId "owner" userId;
            mret (pipeline1 ++ [MatchOwner o])%list
     else mret pipeline1);
  mret (pipeline2 ++
        [SortBy sortBy (if String.eqb sortType "asc" then 1 else -1)%Z;
         LookupOwner; AddFieldsFirstOwner; ProjectListing])%list.

Definition getAllVideos (req : Request) : M unit :=
  let options := listingOptions req in
  pipeline ← listingPipeline req;
  videos ← (λ w, (aggregatePaginate pipeline options w, w));
  (if match videos with
      | None => true
      | Some p => Nat.eqb (length (pg_videos p)) 0
      end
   then res_status 300;; res_json JMessageEmptyList
   else mret tt);;
  res_status 200;;
  res_json (JApiResponse
    (mkApiResponse 200 (DPage videos) "Videos fetched successfully")).

Definition publishAVideo (req : Request) : M unit :=
  let title := body_title req in
  let description := body_description req in
  let duration := body_duration req in
  if negb (truthy title) || negb (truthy description)
     || negb (truthy duration)
  then throw (ApiError 400 "Title, description, and duration are required")
  else
  let videoFile := files_videoFile req in
  let thumbnailFile := files_thumbnail req in
  if negb (truthy videoFile)
  then throw (ApiError 400 "Video file is required")
  else
  if negb (truthy thumbnailFile)
  then throw (ApiError 400 "Thumbnail file is required")
  else
  videoUploadResult ← uploadOnCloudinary (default "" videoFile);
  thumbnailUploadResult ← uploadOnCloudinary (default "" thumbnailFile);
  match videoUploadResult, thumbnailUploadResult with
  | Some videoUpload, Some thumbnailUpload =>
      owner ← req_user_id req;
      newVideo ← Video_create (default "" title) (default "" description)
                   (url videoUpload) (public_id videoUpload)
                   (url thumbnailUpload) (public_id thumbnailUpload)
                   (default "" duration) owner;
      res_status 201;;
      res_json (JApiResponse
        (mkApiResponse 200 (DVideo newVideo.1 newVideo.2)
           "Video published successfully"))
  | _, _ => throw (ApiError 500 "Error uploading files to Cloudinary")
  end.

Definition updateVideo (req : Request) : M unit :=
  let videoId := params_videoId req in
  let title := body_title req in
  let description := body_description req in
  if negb (truthy videoId) then throw (ApiError 400 "Video ID is required")
  else
  if negb (isValid videoId)
  then throw (ApiError 400 "Invalid Video ID format")
  else
  found ← findById Videos videoId;
  match found with
  | None => throw (ApiError 404 "Video not found")
  | Some (_id, loaded) =>
      let video1 :=
        if truthy (trim <$> title)
        then Video.set_title (trim (default "" title)) loaded
        else loaded in
      let video2 :=
        if truthy (trim <$> description)
        then Video.set_description (trim (default "" description)) video1
        else video1 in
      video3 ←
        match file req with
        | Some thumbnailLocalPath =>
            uploadedThumbnail ← uploadOnCloudinary thumbnailLocalPath;
            match uploadedThumbnail with
            | Some uploaded =>
                if truthy (Some (url uploaded))
                then mret (Video.set_thumbnail (url uploaded) video2)
                else throw (ApiError 400 "Failed to upload thumbnail")
            | None => throw (ApiError 400 "Failed to upload thumbnail")
            end
        | None => mret video2
        end;
      video ← Video_save _id loaded video3;
      res_status 200;;
      res_json (JApiResponse
        (mkApiResponse 200 (DVideo _id video) "Video updated successfully"))
  end.

Definition deleteVideo (req : Request) : M unit :=
  let videoId := params_videoId req in
  if negb (truthy videoId) then throw (ApiError 400 "Video ID is required")
  else
  if negb (isValid videoId)
  then throw (ApiError 400 "Invalid Video ID format")
  else
  found ← findById Videos videoId;
  match found with
  | None => throw (ApiError 404 "Video not found")
  | Some (_id, video) =>
      userId ← req_user_id req;
      if negb (bool_decide (userId = Video.owner video))
      then throw
             (ApiError 403 "You are not authorized to delete this video")
      else
      (if truthy (Some (Video.videoPublicId video)) then
         videoDeleteResponse ←
           deleteFromCloudinary (Video.videoPublicId video);
         match videoDeleteResponse with
         | None =>
             throw (ApiError 500 "Failed to delete video from Cloudinary")
         | Some _ => mret tt
         end
       else mret tt);;
      (if truthy (Some (Video.thumbnailPublicId video)) then
         thumbnailDeleteResponse ←
           deleteFromCloudinary (Video.thumbnailPublicId video);
         match thumbnailDeleteResponse with
         | None =>
             throw
               (ApiError 500 "Failed to delete thumbnail from Cloudinary")
         | Some _ => mret tt
         end
       else mret tt);;
      findByIdAndDelete Videos set_Videos videoId;;
      res_status 200;;
      res_json (JApiResponse
        (mkApiResponse 200 DEmptyObject "Video deleted successfully"))
  end.

Definition togglePublishStatus (req : Request) : M unit :=
  let videoId := params_videoId req in
  if negb (truthy videoId) then throw (ApiError 400 "Video ID is required")
  else
  if negb (isValid videoId)
  then throw (ApiError 400 "Invalid Video ID format")
  else
  found ← findById Videos videoId;
  match found with
  | None => throw (ApiError 404 "Video not found")
  | Some (_id, loaded) =>
      userId ← req_user_id req;
      if negb (bool_decide (userId = Video.owner loaded))
      then throw
             (ApiError 403 "You are not authorized to update this video")
      else
      video ← Video_save _id loaded
                (Video.set_isPublished (negb (Video.isPublished loaded))
                   loaded);
      res_status 200;;
      res_json (JApiResponse
        (mkApiResponse 200 (DVideoField _id video)
           ("Video has been " +:+
            (if Video.isPublished video then "published" else "unpublished")
            +:+ " successfully")))
  end.

(** *** controllers/comment.controller.js *)

Definition updateComment (req : Request) : M unit :=
  let commentId := params_commentId req in
  let content := body_content req in
  if negb (truthy content) || negb (isValid commentId)
  then throw (ApiError 400 "Content and a valid comment ID are required")
  else
  found ← findById Comments commentId;
  match found with
  | None => throw (ApiError 404 "Comment not found")
  | Some (_id, loaded) =>
      userId ← req_user_id req;
      if negb (bool_decide (Comment.owner loaded = userId))
      then throw
             (ApiError 403 "You are not authorized to update this comment")
      else
      comment ← Comment_save _id loaded
                  (Comment.set_content (default "" content) loaded);
      res_status 200;;
      res_json (JApiResponse
        (mkApiResponse 200 (DComment _id comment)
           "Comment updated successfully"))
  end.

Definition deleteComment (req : Request) : M unit :=
  let commentId := params_commentId req in
  if negb (isValid commentId) then throw (ApiError 400 "Invalid comment ID")
  else
  found ← findById Comments commentId;
  match found with
  | None => throw (ApiError 404 "Comment not found")
  | Some (_id, comment) =>
      userId ← req_user_id req;
      if negb (bool_decide (Comment.owner comment = userId))
      then throw
             (ApiError 403 "You are not authorized to delete this comment")
      else
      findByIdAndDelete Comments set_Comments commentId;;
      pulled ← toObjectId "comments" commentId;
      modify (λ w, set_Videos
        (alter (λ v, Video.set_updatedAt (now w)
                       (Video.set_comments
                          (List.filter (λ c, negb (N.eqb c pulled))
                             (Video.comments v)) v))
           (Comment.video comment) (Videos w)) w);;
      res_status 200;;
      res_json (JApiResponse
        (mkApiResponse 200 DEmptyObject "Comment deleted successfully"))
  end.

(** *** controllers/tweet.controller.js *)

Definition getUserTweets (req : Request) : M unit :=
  let userId := params_userId req in
  if negb (isValid userId) then throw (ApiError 400 "Invalid user ID")
  else
  owner ← toObjectId "owner" userId;
  found ← find Tweets (λ t, N.eqb (Tweet.owner t) owner);
  let tweets := sort_desc (λ d, Tweet.createdAt d.2) found in
  if Nat.eqb (length tweets) 0
  then throw (ApiError 404 "No tweets found for this user")
  else
  res_status 200;;
  res_json (JApiResponse
    (mkApiResponse 200 (DTweets tweets) "User tweets fetched successfully")).

Definition updateTweet (req : Request) : M unit := mret tt.

Definition deleteTweet (req : Request) : M unit :=
  let tweetId := params_tweetId req in
  if negb (isValid tweetId) then throw (ApiError 400 "Invalid tweet ID")
  else
  found ← findById Tweets tweetId;
  match found with
  | None => throw (ApiError 404 "Tweet not found")
  | Some (_id, tweet) =>
      userId ← req_user_id req;
      if negb (bool_decide (Tweet.owner tweet = userId))
      then throw
             (ApiError 403 "You are not authorized to delete this tweet")
      else
      findByIdAndDelete Tweets set_Tweets tweetId;;
      res_status 200;;
      res_json (JApiResponse
        (mkApiResponse 200 DEmptyObject "Tweet deleted successfully"))
  end.

(** *** controllers/like.controller.js *)

Definition toggleVideoLike (req : Request) : M unit :=
  let videoId := params_videoId req in
  if negb (isValid videoId) then throw (ApiError 400 "Invalid video ID")
  else
  found ← findById Videos videoId;
  match found with
  | None => throw (ApiError 404 "Video not found")
  | Some (_id, loaded) =>
      userId ← req_user_id req;
      let alreadyLiked := bool_decide (userId ∈ Video.likes loaded) in
      video ←
        (if alreadyLiked then
           findOneAndDelete Likes set_Likes
             (λ l, N.eqb (Like.likedBy l) userId
                   && bool_decide (Like.video l = Some _id));;
           mret (Video.set_likes
                   (List.filter (λ like, negb (N.eqb like userId))
                      (Video.likes loaded)) loaded)
         else
           create Likes set_Likes
             (λ t, Like.mk userId (Some _id) None None t t);;
           mret (Video.set_likes (Video.likes loaded ++ [userId]) loaded));
      Video_save _id loaded video;;
      likesCount ←
        countDocuments Likes (λ l, bool_decide (Like.video l = Some _id));
      res_status 200;;
      res_json (JApiResponse
        (mkApiResponse 200
           (DLikeStatus _id likesCount (negb alreadyLiked))
           ("Video has been " +:+
            (if alreadyLiked then "unliked" else "liked")
            +:+ " successfully")))
  end.

(** A video as [getLikedVideos] and [getChannelVideos] return it. *)
Definition toVideoCard (owner : option User.t) (d : ObjectId * Video.t)
  : VideoCard :=
  mkVideoCard d.1 (Video.title d.2) (Video.thumbnail d.2)
    (Video.videoFile d.2) (Video.duration d.2) (Video.likes d.2)
    (Video.createdAt d.2) owner.

Definition getLikedVideos (req : Request) : M unit :=
  userId ← req_user_id req;
  found ← find Videos (λ v, bool_decide (userId ∈ Video.likes v));
  users ← gets Users;
  let likedVideos :=
    map (λ d, toVideoCard (users !! Video.owner d.2) d) found in
  if Nat.eqb (length likedVideos) 0
  then
    res_status 200;;
    res_json (JApiResponse
      (mkApiResponse 200 (DVideoCards []) "No liked videos found"))
  else
    res_status 200;;
    res_json (JApiResponse
      (mkApiResponse 200 (DVideoCards likedVideos)
         "Liked videos fetched successfully")).

(** *** controllers/subscription.controller.js *)

Definition toggleSubscription (req : Request) : M unit :=
  let channelId := params_channelId req in
  if negb (isValid channelId) then throw (ApiError 400 "Invalid channel ID")
  else
  channel ← findById Users channelId;
  match channel with
  | None => throw (ApiError 404 "Channel not found")
  | Some (channel_id, _) =>
      subscriberId ← req_user_id req;
      existingSubscription ←
        findOne Subscriptions
          (λ s, N.eqb (Subscription.subscriber s) subscriberId
                && N.eqb (Subscription.channel s) channel_id);
      match existingSubscription with
      | Some (existing_id, _) =>
          deleteOne Subscriptions set_Subscriptions existing_id;;
          res_status 200;;
          res_json (JApiResponse
            (mkApiResponse 200 DEmptyObject
               "Successfully unsubscribed from the channel"))
      | None =>
          newSubscription ←
            create Subscriptions set_Subscriptions
              (λ t, Subscription.mk subscriberId channel_id t t);
          res_status 201;;
          res_json (JApiResponse
            (mkApiResponse 201
               (DSubscription newSubscription.1 newSubscription.2)
               "Successfully subscribed to the channel"))
      end
  end.

(** *** controllers/playlist.controller.js *)

Definition toPlaylistCard (d : ObjectId * Playlist.t) : PlaylistCard :=
  mkPlaylistCard d.1 (Playlist.name d.2) (Playlist.description d.2)
    (Playlist.videos d.2) (Playlist.createdAt d.2) (Playlist.updatedAt d.2).

Definition getUserPlaylists (req : Request) : M unit :=
  let userId := params_userId req in
  if negb (isValid userId) then throw (ApiError 400 "Invalid user ID")
  else
  owner ← toObjectId "owner" userId;
  found ← find Playlists (λ p, N.eqb (Playlist.owner p) owner);
  let playlists := map toPlaylistCard found in
  if Nat.eqb (length playlists) 0
  then
    res_status 200;;
    res_json (JApiResponse
      (mkApiResponse 200 (DPlaylists []) "No playlists found"))
  else
    res_status 200;;
    res_json (JApiResponse
      (mkApiResponse 200 (DPlaylists playlists)
         "Playlists fetched successfully")).

(** *** controllers/dashboard.controller.js *)

Definition getChannelVideos (req : Request) : M unit :=
  let channelId := params_channelId req in
  if negb (isValid channelId) then throw (ApiError 400 "Invalid channel ID")
  else
  channel ← findById Users channelId;
  match channel with
  | None => throw (ApiError 404 "Channel not found")
  | Some (channel_id, _) =>
      found ← find Videos (λ v, N.eqb (Video.owner v) channel_id);
      let videos :=
        map (toVideoCard None)
          (sort_desc (λ d, Video.createdAt d.2) found) in
      if Nat.eqb (length videos) 0
      then
        res_status 200;;
        res_json (JApiResponse
          (mkApiResponse 200 (DVideoCards [])
             "No videos found for this channel"))
      else
        res_status 200;;
        res_json (JApiResponse
          (mkApiResponse 200 (DVideoCards videos)
             "Channel videos fetched successfully"))
  end.

End Model.

(** ** Serving requests *)

(** Express hands every request a response object of its own, with
    status 200 and nothing sent. *)
Definition new_response (w : World) : World :=
  set_res_sent None (set_res_statusCode 200 w).

Definition serve (handler : Request → M unit) (req : Request) : M unit :=
  λ w, handler req (new_response w).

(** Requests served one after the other, each to completion. *)
Definition serve_all (handler : Request → M unit) (reqs : list Request)
    (w : World) : World :=
  foldl (λ w req, (serve handler req w).2) w reqs.

(** Modelled from the spec: utils/asyncHandler.js and the error middleware
    are not under src/. Every error is translated to the uniform error
    envelope: an [ApiError] answers with its own status code, and a
    validation failure (a length bound violated, a required field missing)
    answers 400. The spec gives no status to the other exceptions. *)
Definition errorStatus (e : Exn) : option nat :=
  match e with
  | ApiError c _ => Some c
  | ValidationError _ => Some 400
  | _ => None
  end.

(** The status code the client receives: that of the response sent, or
    else that of the envelope of the error thrown. *)
Definition status_received (r : (Exn + unit) * World) : option nat :=
  match res_sent r.2, r.1 with
  | Some (c, _), _ => Some c
  | None, inl e => errorStatus e
  | None, inr _ => None
  end.

(** ** Predicates the properties are stated with *)

(** The Like documents of a video: what [Like.countDocuments({video})]
    counts. *)
Definition likesOfVideo (videoId : ObjectId) (w : World)
  : list (ObjectId * Like.t) :=
  matching (λ l, bool_decide (Like.video l = Some videoId)) (Likes w).


(** The denormalized likes array of a video ([[]] when it is absent). *)
Definition likesArray (videoId : ObjectId) (w : World) : list ObjectId :=
  from_option Video.likes [] (Videos w !! videoId).

(** The Subscription documents of a (subscriber, channel) pair. *)
Definition subscriptionsOf (subscriber channel : ObjectId) (w : World)
  : list (ObjectId * Subscription.t) :=
  matching (λ s, N.eqb (Subscription.subscriber s) subscriber
                 && N.eqb (Subscription.channel s) channel)
    (Subscriptions w).

Definition at_most_one_subscription (w : World) : Prop :=
  ∀ subscriber channel, length (subscriptionsOf subscriber channel w) ≤ 1.

(** A gateway call that deletes a video-kind resource. *)
Definition is_video_destroy (c : GatewayCall) : Prop :=
  match c with
  | Destroy _ RVideo => True
  | _ => False
  end.

(** A computation asks the gateway only for calls that satisfy [Q]: the
    log of calls grows by such calls and loses none. *)
Definition calls_only {A : Type} (Q : GatewayCall → Prop) (m : M A) : Prop :=
  ∀ w, ∃ calls,
    gateway_calls (m w).2 = (gateway_calls w ++ calls)%list ∧ Forall Q calls.

(** How often a user occurs in a likes array. *)
Definition occurrences (userId : ObjectId) (likes : list ObjectId) : nat :=
  length (List.filter (N.eqb userId) likes).

(** The likes array after a toggle by [userId]. *)
Definition toggled_array (userId : ObjectId) (likes : list ObjectId)
  : list ObjectId :=
  if bool_decide (userId ∈ likes)
  then List.filter (λ like, negb (N.eqb like userId)) likes
  else (likes ++ [userId])%list.

(** The Like collection after a toggle by [userId] on video [videoId]
    whose likes array is [likes], at time [t]. *)
Definition toggled_documents (userId videoId : ObjectId)
    (likes : list ObjectId) (t : N) (m : gmap ObjectId Like.t)
  : gmap ObjectId Like.t :=
  if bool_decide (userId ∈ likes)
  then match matching (λ l, N.eqb (Like.likedBy l) userId
                            && bool_decide (Like.video l = Some videoId)) m
       with
       | (k, _) :: _ => delete k m
       | [] => m
       end
  else <[newObjectId m := Like.mk userId (Some videoId) None None t t]> m.

(** A publish request that is complete: the three fields are given, the
    duration casts to a number, the two temporary files exist under
    different paths, both uploads succeed with a URL and a public id, and
    the request is authenticated. *)
Record publishable `{Externals} (req : Request) (w : World)
    (title description durationText videoPath thumbnailPath : string)
    (videoUpload thumbnailUpload : UploadApiResponse) (duration : Number)
    (owner : ObjectId) : Prop := mkPublishable {
  pub_title : body_title req = Some title ∧ title ≠ "";
  pub_description :
    body_description req = Some description ∧ description ≠ "";
  pub_duration :
    body_duration req = Some durationText ∧ durationText ≠ ""
    ∧ castNumber durationText = Some duration;
  pub_videoFile :
    files_videoFile req = Some videoPath ∧ videoPath ≠ ""
    ∧ videoPath ∈ files w;
  pub_thumbnail :
    files_thumbnail req = Some thumbnailPath ∧ thumbnailPath ≠ ""
    ∧ thumbnailPath ∈ files w ∧ videoPath ≠ thumbnailPath;
  pub_videoUpload :
    cloudinary_upload w videoPath ("$" +:+ uuids w (uuids_taken w))
    = Some videoUpload
    ∧ url videoUpload ≠ "" ∧ public_id videoUpload ≠ "";
  pub_thumbnailUpload :
    cloudinary_upload w thumbnailPath ("$" +:+ uuids w (S (uuids_taken w)))
    = Some thumbnailUpload
    ∧ url thumbnailUpload ≠ "" ∧ public_id thumbnailUpload ≠ "";
  pub_user : user req = Some owner
}.

(** ** A concrete setting for the examples *)

Definition hexDigit (c : ascii) : option N :=
  let n := N_of_ascii c in
  if (48 <=? n)%N && (n <=? 57)%N then Some (n - 48)%N
  else if (97 <=? n)%N && (n <=? 102)%N then Some (n - 87)%N
  else if (65 <=? n)%N && (n <=? 70)%N then Some (n - 55)%N
  else None.

Fixpoint parseHex (s : string) (acc : N) : option N :=
  match s with
  | EmptyString => Some acc
  | String c s' =>
      match hexDigit c with
      | Some d => parseHex s' (16 * acc + d)%N
      | None => None
      end
  end.

(** The ObjectId parser on strings of 24 hexadecimal digits. *)
Definition hexObjectId (s : string) : option ObjectId :=
  if Nat.eqb (String.length s) 24 then parseHex s 0%N else None.

Definition decimalDigit (c : ascii) : option Z :=
  let n := Z.of_N (N_of_ascii c) in
  if (48 <=? n)%Z && (n <=? 57)%Z then Some (n - 48)%Z else None.

Fixpoint parseDecimal (s : string) (acc : option Z) : option Z :=
  match s with
  | EmptyString => acc
  | String c s' =>
      match decimalDigit c with
      | Some d => parseDecimal s' (Some (10 * default 0%Z acc + d)%Z)
      | None => acc
      end
  end.

(** [parseInt] on its decimal inputs: the leading digits, NaN without any. *)
Definition decimalParseInt (s : string) : option Z := parseDecimal s None.

Fixpoint allDigits (s : string) : bool :=
  match s with
  | EmptyString => true
  | String c s' => bool_decide (is_Some (decimalDigit c)) && allDigits s'
  end.

(** The Number cast on strings of decimal digits. *)
Definition decimalNumber (s : string) : option Number :=
  if allDigits s then inject_Z <$> decimalParseInt s else None.

(** An aggregation engine for the examples: it evaluates the owner
    filter, joins the owner, projects and paginates, and rejects a
    pipeline with a search stage (regular expressions are the
    database's). *)
Definition toListedVideo (w : World) (d : ObjectId * Video.t) : ListedVideo :=
  mkListedVideo d.1 (Video.title d.2) (Video.description d.2)
    (Video.thumbnail d.2) (Video.videoFile d.2) (Video.duration d.2)
    (Video.createdAt d.2) (Users w !! Video.owner d.2).

Fixpoint runStages (pipeline : list Stage) (docs : list (ObjectId * Video.t))
  : option (list (ObjectId * Video.t)) :=
  match pipeline with
  | [] => Some docs
  | MatchSearch _ :: _ => None
  | MatchOwner o :: rest =>
      runStages rest (List.filter (λ d, N.eqb (Video.owner d.2) o) docs)
  | SortBy field direction :: rest =>
      if String.eqb field "createdAt" then
        let sorted := sort_desc (λ d, Video.createdAt d.2) docs in
        runStages rest (if (direction =? 1)%Z then rev sorted else sorted)
      else runStages rest docs
  | _ :: rest => runStages rest docs
  end.

Definition sampleEngine (pipeline : list Stage) (options : PaginateOptions)
    (w : World) : Exn + option Paginated :=
  match runStages pipeline (map_to_list (Videos w)) with
  | None => inl (CastError "$regex")
  | Some docs =>
      let page := Z.to_nat (Z.max 1 (default 1%Z (opt_page options))) in
      let limit := Z.to_nat (Z.max 1 (default 10%Z (opt_limit options))) in
      let total := length docs in
      inr (Some (mkPaginated
        (map (toListedVideo w) (take limit (drop ((page - 1) * limit) docs)))
        (N.of_nat total) (N.of_nat limit) (N.of_nat page)
        (N.of_nat ((total + limit - 1) / limit))))
  end.

Definition sampleExternals : Externals :=
  mkExternals hexObjectId decimalParseInt decimalNumber sampleEngine.

(** Three users and their identifiers as the routes receive them. *)
Definition alice : ObjectId := 1%N.
Definition bob : ObjectId := 2%N.
Definition carol : ObjectId := 3%N.
Definition alice_hex : string := "000000000000000000000001".
Definition video_hex : string := "0000000000000000000000a0".
Definition video_id : ObjectId := 160%N.

(** A gateway that accepts every upload and every deletion. *)
Definition gateway_ok_upload (path publicId : string)
  : option UploadApiResponse :=
  Some (mkUpload ("https://res.example/" +:+ publicId) publicId).

Definition gateway_ok_destroy (publicId : string) (rt : ResourceType)
  : option DestroyResponse :=
  Some (mkDestroy "ok").

(** A gateway that fails to delete the asset "abc" and nothing else. *)
Definition gateway_fail_abc (publicId : string) (rt : ResourceType)
  : option DestroyResponse :=
  if String.eqb publicId "abc" then None else Some (mkDestroy "ok").

Definition sample_uuids (n : nat) : string :=
  match n with
  | 0 => "11111111-1111-4111-8111-111111111111"
  | _ => "22222222-2222-4222-8222-222222222222"
  end.

Definition sample_users : gmap ObjectId User.t :=
  {[ alice := User.mk "Alice A" "alice" "a.png";
     bob := User.mk "Bob B" "bob" "b.png";
     carol := User.mk "Carol C" "carol" "c.png" ]}.

(** Alice's video, liked by the users given. *)
Definition alice_video (likes : list ObjectId) : Video.t :=
  Video.mk "https://res.example/v.mp4" "abc" "https://res.example/t.png"
    "thumb" "My first video" "A description long enough" 12%Q 0%Q true
    likes [] alice 5%N 5%N.

Definition like_of (userId : ObjectId) : Like.t :=
  Like.mk userId (Some video_id) None None 6%N 6%N.

(** A world with Alice's video, the likes array and the Like documents
    given, the temporary files given and the deletion behaviour given. *)
Definition sample_world (likes : list ObjectId)
    (likeDocs : gmap ObjectId Like.t) (tmp : gset string)
    (destroy : string → ResourceType → option DestroyResponse) : World :=
  mkWorld {[ video_id := alice_video likes ]} ∅ ∅ likeDocs ∅ ∅ sample_users
    10%N tmp gateway_ok_upload destroy [] sample_uuids 0 200 None.

(** A world with no document but the users. *)
Definition empty_world (tmp : gset string) : World :=
  mkWorld ∅ ∅ ∅ ∅ ∅ ∅ sample_users 10%N tmp gateway_ok_upload
    gateway_ok_destroy [] sample_uuids 0 200 None.

Definition no_request : Request :=
  mkRequest None None None None None None None None None None None None None
    None None None None None None.

Definition on_video (videoId : string) (userId : ObjectId) : Request :=
  mkRequest (Some videoId) None None None None None None None None None None
    None None None None None None None (Some userId).

(** Bob asks for a new title on Alice's video. *)
Definition retitle_by_bob : Request :=
  mkRequest (Some video_hex) None None None None (Some "  Hijacked ") None
    None None None None None None None None None None None (Some bob).

(** Bob toggles his subscription to Alice's channel. *)
Definition subscribe_bob_to_alice : Request :=
  mkRequest None None None (Some alice_hex) None None None None None None None
    None None None None None None None (Some bob).

Definition carol_hex : string := "000000000000000000000003".

(** Carol, who owns and likes nothing, asks for her listings. *)
Definition listings_of_carol : Request :=
  mkRequest None None None (Some carol_hex) (Some carol_hex) None None None
    None None None None None None None None None None (Some carol).

(** Alice publishes a video with the title and description given. *)
Definition publish_by_alice (title description : string) : Request :=
  mkRequest None None None None None (Some title) (Some description)
    (Some "12") None None None None None None None (Some "/tmp/v.mp4")
    (Some "/tmp/t.png") None (Some alice).

Definition two_tmp_files : gset string := {[ "/tmp/v.mp4"; "/tmp/t.png" ]}.


(** ** Further predicates *)

(** A handler refuses a request with an [ApiError] of the status given
    and leaves the world as it was. *)
Definition refuses (code : nat) (handler : Request → M unit) (req : Request)
    (w : World) : Prop :=
  ∃ message, handler req w = (inl (ApiError code message), w).

(** What persists between requests: the collections, the temporary files
    and the log of gateway calls. *)
Definition store (w : World) :=
  (Videos w, Comments w, Tweets w, Likes w, Playlists w, Subscriptions w,
   Users w, files w, gateway_calls w).

(** A computation leaves an observation of the world as it was. *)
Definition preserves {A B : Type} (f : World → B) (m : M A) : Prop :=
  ∀ w, f (m w).2 = f w.

(** The order of [.sort({createdAt: -1})]: no document is followed by a
    newer one. *)
Definition newest_first {A : Type} (key : A → N) (a b : A) : Prop :=
  (key b ≤ key a)%N.

(** A request whose five route parameters are all [x]. *)
Definition with_params (x : option string) (content : option string)
    (userId : option ObjectId) : Request :=
  mkRequest x x x x x None None None content None None None None None None
    None None None userId.

(** ** Further handlers *)

Definition set_Playlists (x : gmap ObjectId Playlist.t) (w : World) : World :=
  mkWorld (Videos w) (Comments w) (Tweets w) (Likes w) x (Subscriptions w)
    (Users w) (now w) (files w) (cloudinary_upload w) (cloudinary_destroy w)
    (gateway_calls w) (uuids w) (uuids_taken w) (res_statusCode w) (res_sent w).

(** [ObjectId.prototype.toString()]: the text of an identifier, which the
    playlist handlers compare with the route parameter. It is mongoose's,
    as the parser is. *)
Class ObjectIdToString : Type := toString : ObjectId → string.

(** An [ApiResponse] whose [data] has type [A]: the handlers below answer
    with a playlist document or with a count, which [Data] does not
    list. *)
Record Envelope (A : Type) : Type := mkEnvelope {
  env_statusCode : nat;
  env_data : A;
  env_message : string
}.
Arguments mkEnvelope {A} _ _ _.
Arguments env_statusCode {A} _.
Arguments env_data {A} _.
Arguments env_message {A} _.

(** [return res.json(envelope)], the last statement of a handler, embedded
    as a computation that returns what it sends; it throws when the
    response was sent already. *)
Definition res_json_return {A : Type} (body : Envelope A) : M (Envelope A) :=
  λ w,
  match res_sent w with
  | Some _ => (inl ERR_HTTP_HEADERS_SENT, w)
  | None => (inr body, w)
  end.

(** A handler given the response object of a new request. *)
Definition answer {A : Type} (handler : M A) : M A :=
  λ w, handler (new_response w).

Section MoreModel.
Context {E : Externals} {T : ObjectIdToString}.

(** [Model.findById(id)] where the handler has not validated [id]:
    [undefined] finds nothing, a malformed string fails the cast. *)
Definition findById_unchecked {A : Type} (coll : World → gmap ObjectId A)
    (x : option string) : M (option (ObjectId * A)) :=
  match x with
  | Some _ => findById coll x
  | None => mret None
  end.

(** Modelled from the spec: models/playlist.model.js is not under src/ and
    the spec states no validator for a playlist; [playlist.save()] writes a
    changed document with a new [updatedAt], as [video.save()] does. *)
Definition Playlist_save (i : ObjectId) (old new : Playlist.t)
  : M Playlist.t :=
  if bool_decide (Playlist.videos old = Playlist.videos new
                  ∧ Playlist.name old = Playlist.name new
                  ∧ Playlist.description old = Playlist.description new)
  then mret new
  else
    λ w,
      match Playlists w !! i with
      | Some _ =>
          let p := Playlist.mk (Playlist.name new) (Playlist.description new)
                     (Playlist.videos new) (Playlist.owner new)
                     (Playlist.createdAt new) (now w) in
          (inr p, set_Playlists (<[i := p]> (Playlists w)) w)
      | None => (inl DocumentNotFoundError, w)
      end.

(** *** controllers/comment.controller.js, continued *)

Definition addComment (req : Request) : M unit :=
  let videoId := params_videoId req in
  let content := body_content req in
  if negb (truthy content) || negb (isValid videoId)
  then throw (ApiError 400 "Content and a valid video ID are required")
  else
  found ← findById Videos videoId;
  match found with
  | None => throw (ApiError 404 "Video not found")
  | Some (_id, loaded) =>
      owner ← req_user_id req;
      comment ←
        create Comments set_Comments
          (λ t, Comment.mk (default "" content) _id owner [] t t);
      Video_save _id loaded
        (Video.set_comments (Video.comments loaded ++ [comment.1]) loaded);;
      res_status 201;;
      res_json (JApiResponse
        (mkApiResponse 201 (DComment comment.1 comment.2)
           "Comment added successfully"))
  end.

(** *** controllers/like.controller.js, continued *)

Definition toggleCommentLike (req : Request) : M (Envelope nat) :=
  let commentId := params_commentId req in
  match user req with
  | None => throw (ApiError 401 "User not authenticated")
  | Some userId =>
      found ← findById_unchecked Comments commentId;
      match found with
      | None => throw (ApiError 404 "Comment not found")
      | Some (_id, loaded) =>
          let alreadyLiked := bool_decide (userId ∈ Comment.likes loaded) in
          let likes :=
            if alreadyLiked
            then List.filter (λ id, negb (N.eqb id userId))
                   (Comment.likes loaded)
            else (Comment.likes loaded ++ [userId])%list in
          comment ←
            Comment_save _id loaded
              (Comment.mk (Comment.content loaded) (Comment.video loaded)
                 (Comment.owner loaded) likes (Comment.createdAt loaded)
                 (Comment.updatedAt loaded));
          res_status 200;;
          res_json_return
            (mkEnvelope 200 (length (Comment.likes comment))
               "Like toggled successfully")
      end
  end.

(** *** controllers/playlist.controller.js, continued; [playlistId] is
    [req.params.playlistId] *)

Definition addVideoToPlaylist (playlistId : option string) (req : Request)
  : M (Envelope (ObjectId * Playlist.t)) :=
  let videoId := params_videoId req in
  if negb (isValid playlistId) || negb (isValid videoId)
  then throw (ApiError 400 "Invalid playlist or video ID")
  else
  found ← findById Playlists playlistId;
  match found with
  | None => throw (ApiError 404 "Playlist not found")
  | Some (_id, loaded) =>
      if existsb (λ id, String.eqb (toString id) (default "" videoId))
           (Playlist.videos loaded)
      then throw (ApiError 400 "Video already exists in the playlist")
      else
        pushed ← toObjectId "videos" videoId;
        playlist ←
          Playlist_save _id loaded
            (Playlist.mk (Playlist.name loaded) (Playlist.description loaded)
               (Playlist.videos loaded ++ [pushed]) (Playlist.owner loaded)
               (Playlist.createdAt loaded) (Playlist.updatedAt loaded));
        res_status 200;;
        res_json_return
          (mkEnvelope 200 (_id, playlist)
             "Video added to playlist successfully")
  end.

Definition removeVideoFromPlaylist (playlistId : option string)
    (req : Request) : M (Envelope (ObjectId * Playlist.t)) :=
  let videoId := params_videoId req in
  if negb (isValid playlistId) || negb (isValid videoId)
  then throw (ApiError 400 "Invalid playlist or video ID")
  else
  found ← findById Playlists playlistId;
  match found with
  | None => throw (ApiError 404 "Playlist not found")
  | Some (_id, loaded) =>
      playlist ←
        Playlist_save _id loaded
          (Playlist.mk (Playlist.name loaded) (Playlist.description loaded)
             (List.filter
                (λ id, negb (String.eqb (toString id) (default "" videoId)))
                (Playlist.videos loaded))
             (Playlist.owner loaded)
             (Playlist.createdAt loaded) (Playlist.updatedAt loaded));
      res_status 200;;
      res_json_return
        (mkEnvelope 200 (_id, playlist)
           "Video removed from playlist successfully")
  end.

Definition deletePlaylist (playlistId : option string) (req : Request)
  : M unit :=
  if negb (isValid playlistId) then throw (ApiError 400 "Invalid playlist ID")
  else
  playlist ← findByIdAndDelete Playlists set_Playlists playlistId;
  match playlist with
  | None => throw (ApiError 404 "Playlist not found")
  | Some _ =>
      res_status 200;;
      res_json (JApiResponse
        (mkApiResponse 200 DEmptyObject "Playlist deleted successfully"))
  end.

End MoreModel.

(** ** Further concrete inputs *)

(** [ObjectId.prototype.toString] on the identifiers of the examples: 24
    hexadecimal digits in lower case. *)
Definition hexChar (d : N) : ascii :=
  ascii_of_N (if (d <? 10)%N then d + 48 else d + 87).

Fixpoint hexDigits (n : nat) (x : N) (acc : string) : string :=
  match n with
  | O => acc
  | S n' => hexDigits n' (x / 16)%N (String (hexChar (x mod 16)%N) acc)
  end.

Definition sampleToString : ObjectIdToString := λ x, hexDigits 24 x "".

Definition bob_hex : string := "000000000000000000000002".
Definition comment_hex : string := "0000000000000000000000b0".
Definition comment_id : ObjectId := 176%N.
Definition tweet_hex : string := "0000000000000000000000c0".
Definition tweet_id : ObjectId := 192%N.
Definition playlist_hex : string := "0000000000000000000000d0".
Definition playlist_id : ObjectId := 208%N.

(** Alice's video with Bob's comment on it. *)
Definition commented_video : Video.t :=
  Video.set_comments [comment_id] (alice_video []).

(** Bob's comment on Alice's video, liked by Carol. *)
Definition bob_comment : Comment.t :=
  Comment.mk "Nice video" video_id bob [carol] 7%N 7%N.

Definition bob_tweet : Tweet.t := Tweet.mk "Hello" bob None 8%N 8%N.

(** Alice's playlist, which holds her video. *)
Definition alice_playlist : Playlist.t :=
  Playlist.mk "Favourites" "The ones I like" [video_id] alice 9%N 9%N.

(** A gateway that rejects every upload. *)
Definition gateway_no_upload (path publicId : string)
  : option UploadApiResponse := None.

(** A world with one document of each of these kinds, the two temporary
    files and the upload behaviour given. *)
Definition busy_world (upload : string → string → option UploadApiResponse)
  : World :=
  mkWorld {[ video_id := commented_video ]} {[ comment_id := bob_comment ]}
    {[ tweet_id := bob_tweet ]} ∅ {[ playlist_id := alice_playlist ]} ∅
    sample_users 10%N two_tmp_files upload gateway_ok_destroy [] sample_uuids
    0 200 None.

(** A request for Alice's video with the new title and the new thumbnail
    given. *)
Definition edit_video (title thumbnail : option string) (userId : ObjectId)
  : Request :=
  mkRequest (Some video_hex) None None None None title None None None None
    None None None None None None None thumbnail (Some userId).

(** Discharging a closed premise by evaluation. *)
Ltac concrete :=
  cbv zeta;
  first [ reflexivity | discriminate
        | vm_compute; first [reflexivity | discriminate | lia]
        | compute_done ].

(** * Properties *)

(** ** Running the monad *)

Lemma run_bind {A B : Type} (m : M A) (f : A → M B) (w : World) :
  (m ≫= f) w
  = match m w with
    | (inr a, w') => f a w'
    | (inl e, w') => (inl e, w')
    end.
Proof. reflexivity. Qed.

Lemma run_ret {A : Type} (a : A) (w : World) : (mret a : M A) w = (inr a, w).
Proof. reflexivity. Qed.

Lemma run_bind_ok {A B : Type} (m : M A) (f : A → M B) (w w' : World) a :
  m w = (inr a, w') → (m ≫= f) w = f a w'.
Proof. intros H. rewrite run_bind, H. reflexivity. Qed.

Lemma truthy_Some (s : string) : s ≠ "" → truthy (Some s) = true.
Proof.
  intros H. unfold truthy. destruct (String.eqb_spec s ""); simpl; congruence.
Qed.

Lemma find_run {A : Type} (coll : World → gmap ObjectId A) (P : A → bool)
    (w : World) :
  find coll P w = (inr (matching P (coll w)), w).
Proof. reflexivity. Qed.

Lemma req_user_id_run (req : Request) (u : ObjectId) (w : World) :
  user req = Some u → req_user_id req w = (inr u, w).
Proof. intros H. unfold req_user_id. rewrite H. reflexivity. Qed.

(** ** Queries over a collection *)

Lemma filter_nil_false {A : Type} (f : A → bool) (l : list A) :
  (∀ x, x ∈ l → f x = false) → List.filter f l = [].
Proof.
  induction l as [|x l IH]; intros H; [reflexivity|].
  cbn [List.filter]. rewrite (H x) by apply list_elem_of_here.
  apply IH. intros y Hy. apply H. by apply list_elem_of_further.
Qed.

Lemma matching_nil {A : Type} (P : A → bool) (m : gmap ObjectId A) :
  (∀ k d, m !! k = Some d → P d = false) → matching P m = [].
Proof.
  intros H. unfold matching. apply filter_nil_false.
  intros [k d] Hin. apply elem_of_map_to_list in Hin. exact (H k d Hin).
Qed.

Lemma filter_Permutation_bool {A : Type} (f : A → bool) (l l' : list A) :
  l ≡ₚ l' → List.filter f l ≡ₚ List.filter f l'.
Proof.
  induction 1 as [|x l l' _ IH|x y l|l l' l'' _ IH1 _ IH2]; cbn [List.filter].
  - reflexivity.
  - destruct (f x); [by constructor | assumption].
  - destruct (f x), (f y); (reflexivity || by constructor).
  - by etransitivity.
Qed.

Lemma matching_insert {A : Type} (P : A → bool) (m : gmap ObjectId A)
    (i : ObjectId) (x : A) :
  m !! i = None →
  matching P (<[i := x]> m)
  ≡ₚ (if P x then [(i, x)] else []) ++ matching P m.
Proof.
  intros H. unfold matching.
  rewrite (filter_Permutation_bool _ _ _ (map_to_list_insert m i x H)).
  cbn [List.filter snd]. by destruct (P x).
Qed.

Lemma matching_delete {A : Type} (P : A → bool) (m : gmap ObjectId A)
    (i : ObjectId) (x : A) :
  m !! i = Some x →
  matching P m ≡ₚ (if P x then [(i, x)] else []) ++ matching P (delete i m).
Proof.
  intros H. unfold matching.
  rewrite <- (filter_Permutation_bool _ _ _ (map_to_list_delete m i x H)).
  cbn [List.filter snd]. by destruct (P x).
Qed.

Lemma matching_lookup {A : Type} (P : A → bool) (m : gmap ObjectId A)
    (k : ObjectId) (d : A) :
  (k, d) ∈ matching P m ↔ m !! k = Some d ∧ P d = true.
Proof.
  unfold matching. rewrite list_elem_of_In, filter_In, <- list_elem_of_In.
  by rewrite elem_of_map_to_list.
Qed.

Lemma matching_first {A : Type} (P : A → bool) (m : gmap ObjectId A)
    (k : ObjectId) (d : A) (rest : list (ObjectId * A)) :
  matching P m = (k, d) :: rest → m !! k = Some d ∧ P d = true.
Proof.
  intros H. apply matching_lookup. rewrite H. apply list_elem_of_here.
Qed.

Lemma matching_delete_length {A : Type} (P : A → bool)
    (m : gmap ObjectId A) (i : ObjectId) :
  length (matching P (delete i m)) ≤ length (matching P m).
Proof.
  destruct (m !! i) as [x|] eqn:H.
  - rewrite (matching_delete P m i x H), length_app. lia.
  - by rewrite delete_id.
Qed.

Lemma newObjectId_fresh {A : Type} (m : gmap ObjectId A) :
  m !! newObjectId m = None.
Proof. apply not_elem_of_dom. unfold newObjectId. apply is_fresh. Qed.

(** ** The likes array and the Like documents under a toggle *)


Lemma filter_others_no_user (u : ObjectId) (l : list ObjectId) :
  u ∉ List.filter (λ like, negb (N.eqb like u)) l.
Proof.
  intros H. apply list_elem_of_In, filter_In in H as [_ H].
  by rewrite N.eqb_refl in H.
Qed.



Lemma toggled_array_liked (u : ObjectId) (l : list ObjectId) :
  u ∈ toggled_array u l ↔ u ∉ l.
Proof.
  unfold toggled_array. case_bool_decide as Hin; split; intros H.
  - by apply filter_others_no_user in H.
  - done.
  - done.
  - apply elem_of_app. right. apply list_elem_of_here.
Qed.








(** ** What a computation asks of the gateway *)

Lemma calls_only_silent {A : Type} (Q : GatewayCall → Prop) (m : M A) :
  (∀ w, gateway_calls (m w).2 = gateway_calls w) → calls_only Q m.
Proof.
  intros H w. exists []. rewrite H, app_nil_r. split; [reflexivity | constructor].
Qed.

Lemma calls_only_none {A : Type} (m : M A) (w : World) :
  calls_only (λ _, False) m → gateway_calls (m w).2 = gateway_calls w.
Proof.
  intros H. destruct (H w) as (calls & Hc & HF).
  destruct calls as [|c calls]; [by rewrite app_nil_r in Hc|].
  by inversion HF.
Qed.

Lemma calls_only_ret {A : Type} (Q : GatewayCall → Prop) (a : A) :
  calls_only Q (mret a).
Proof. apply calls_only_silent. reflexivity. Qed.

Lemma calls_only_throw {A : Type} (Q : GatewayCall → Prop) (e : Exn) :
  calls_only Q (throw e : M A).
Proof. apply calls_only_silent. reflexivity. Qed.

Lemma calls_only_bind {A B : Type} (Q : GatewayCall → Prop) (m : M A)
    (f : A → M B) :
  calls_only Q m → (∀ a, calls_only Q (f a)) → calls_only Q (m ≫= f).
Proof.
  intros Hm Hf w. rewrite run_bind.
  destruct (Hm w) as (c1 & E1 & F1).
  destruct (m w) as [[e|a] w1]; cbn [snd] in E1.
  - exists c1. split; assumption.
  - destruct (Hf a w1) as (c2 & E2 & F2).
    exists (c1 ++ c2)%list. rewrite E2, E1, app_assoc.
    split; [reflexivity | apply Forall_app; split; assumption].
Qed.

Lemma calls_only_try_catch {A : Type} (Q : GatewayCall → Prop) (m : M A)
    (h : Exn → M A) :
  calls_only Q m → (∀ e, calls_only Q (h e)) → calls_only Q (try_catch m h).
Proof.
  intros Hm Hh w. unfold try_catch.
  destruct (Hm w) as (c1 & E1 & F1).
  destruct (m w) as [[e|a] w1]; cbn [snd] in E1.
  - destruct (Hh e w1) as (c2 & E2 & F2).
    exists (c1 ++ c2)%list. rewrite E2, E1, app_assoc.
    split; [reflexivity | apply Forall_app; split; assumption].
  - exists c1. split; assumption.
Qed.

Lemma calls_only_req_user_id (Q : GatewayCall → Prop) (req : Request) :
  calls_only Q (req_user_id req).
Proof.
  unfold req_user_id. destruct (user req);
    [apply calls_only_ret | apply calls_only_throw].
Qed.

Lemma calls_only_res_status (Q : GatewayCall → Prop) (c : nat) :
  calls_only Q (res_status c).
Proof. apply calls_only_silent. reflexivity. Qed.

Lemma calls_only_res_json (Q : GatewayCall → Prop) (b : Body) :
  calls_only Q (res_json b).
Proof.
  apply calls_only_silent. intros w. unfold res_json.
  destruct (res_sent w); reflexivity.
Qed.

Section Properties.
Context {E : Externals}.

Lemma isValid_Some (s : string) (i : ObjectId) :
  castObjectId s = Some i → isValid (Some s) = true.
Proof. intros H. unfold isValid. rewrite H. reflexivity. Qed.

Lemma toObjectId_run (path s : string) (i : ObjectId) (w : World) :
  castObjectId s = Some i → toObjectId path (Some s) w = (inr i, w).
Proof. intros H. unfold toObjectId. simpl. rewrite H. reflexivity. Qed.

Lemma findById_run {A : Type} (coll : World → gmap ObjectId A)
    (s : string) (i : ObjectId) (w : World) :
  castObjectId s = Some i →
  findById coll (Some s) w = (inr (pair i <$> coll w !! i), w).
Proof.
  intros H. unfold findById.
  rewrite (run_bind_ok _ _ _ _ _ (toObjectId_run _ _ _ _ H)).
  reflexivity.
Qed.

Lemma findById_found {A : Type} (coll : World → gmap ObjectId A)
    (s : string) (i : ObjectId) (d : A) (w : World) :
  castObjectId s = Some i → coll w !! i = Some d →
  findById coll (Some s) w = (inr (Some (i, d)), w).
Proof. intros H Hd. rewrite (findById_run _ _ _ _ H), Hd. reflexivity. Qed.

Lemma findById_missing {A : Type} (coll : World → gmap ObjectId A)
    (s : string) (i : ObjectId) (w : World) :
  castObjectId s = Some i → coll w !! i = None →
  findById coll (Some s) w = (inr None, w).
Proof. intros H Hd. rewrite (findById_run _ _ _ _ H), Hd. reflexivity. Qed.

Lemma findByIdAndDelete_run {A : Type} (coll : World → gmap ObjectId A)
    (set : gmap ObjectId A → World → World) (s : string) (i : ObjectId)
    (w : World) :
  castObjectId s = Some i →
  findByIdAndDelete coll set (Some s) w
  = (inr (pair i <$> coll w !! i), set (delete i (coll w)) w).
Proof.
  intros H. unfold findByIdAndDelete.
  rewrite (run_bind_ok _ _ _ _ _ (toObjectId_run _ _ _ _ H)).
  reflexivity.
Qed.

(** *** The gateway adapter *)

Lemma deleteFromCloudinary_run (publicId : string) (w : World) :
  publicId ≠ "" →
  deleteFromCloudinary publicId w
  = (inr (cloudinary_destroy w publicId RVideo),
     set_gateway_calls (gateway_calls w ++ [Destroy publicId RVideo]) w).
Proof.
  intros H. unfold deleteFromCloudinary, try_catch.
  rewrite (truthy_Some _ H). cbn [negb].
  rewrite run_bind. unfold uploader_destroy.
  destruct (cloudinary_destroy w publicId RVideo); reflexivity.
Qed.

(** Without a path or a public id the adapter answers [null] and does
    nothing. *)
Lemma uploadOnCloudinary_no_path (w : World) :
  uploadOnCloudinary "" w = (inr None, w).
Proof. reflexivity. Qed.

Lemma deleteFromCloudinary_no_id (w : World) :
  deleteFromCloudinary "" w = (inr None, w).
Proof. reflexivity. Qed.

Lemma uploadOnCloudinary_run (path : string) (w : World) :
  path ≠ "" → path ∈ files w →
  uploadOnCloudinary path w
  = (inr (cloudinary_upload w path ("$" +:+ uuids w (uuids_taken w))),
     set_files (files w ∖ {[path]})
       (set_gateway_calls
          (gateway_calls w
           ++ [Upload path ("$" +:+ uuids w (uuids_taken w)) RAuto])
          (set_uuids_taken (S (uuids_taken w)) w))).
Proof.
  intros Hne Hin. unfold uploadOnCloudinary, try_catch.
  rewrite (truthy_Some _ Hne). cbn [negb].
  rewrite run_bind. unfold uuidv4.
  rewrite run_bind. unfold uploader_upload. cbn [cloudinary_upload set_uuids_taken].
  destruct (cloudinary_upload w path _) as [r|].
  - rewrite run_bind. unfold unlinkSync at 1. cbn [files set_gateway_calls].
    rewrite decide_True by done. reflexivity.
  - rewrite run_bind. unfold unlinkSync at 1. cbn [files set_gateway_calls].
    rewrite decide_True by done. reflexivity.
Qed.

(** *** C7 *)

(** Where the temporary file exists at a non-empty local path,
    [uploadOnCloudinary] does not throw: it answers with the gateway's
    response when the upload succeeds and with [null] when it fails, and
    in both cases the temporary file is gone afterwards. *)
Lemma uploadOnCloudinary_unlinks_and_reports_null
    (localFilePath : string) (w : World) :
  localFilePath ≠ "" →
  localFilePath ∈ files w →
  let r := uploadOnCloudinary localFilePath w in
  (localFilePath ∉ files r.2)
  ∧ (match cloudinary_upload w localFilePath
             ("$" +:+ uuids w (uuids_taken w)) with
     | Some response => r.1 = inr (Some response)
     | None => r.1 = inr None
     end).
Proof.
  intros Hne Hin. cbv zeta.
  rewrite (uploadOnCloudinary_run _ _ Hne Hin). cbn [fst snd files set_files].
  split.
  - rewrite elem_of_difference, elem_of_singleton. tauto.
  - destruct (cloudinary_upload w localFilePath _); reflexivity.
Qed.

(** C7 fails on the code for a path at which no temporary file exists.
    Whether the gateway accepts or rejects the upload, the [unlinkSync]
    of the [catch] block is reached and is not guarded: it throws
    [ENOENT], so that [uploadOnCloudinary] raises an exception where the
    claim has it answer [null]; nothing is removed. The [catch] block of
    [deleteFromCloudinary], in the same file, only answers [null]. *)
Theorem uploadOnCloudinary_missing_file (path : string) (w : World) :
  path ≠ "" → path ∉ files w →
  let r := uploadOnCloudinary path w in
  r.1 = inl (ENOENT path) ∧ files r.2 = files w.
Proof.
  intros Hne Hin. cbv zeta.
  assert (∃ w', uploadOnCloudinary path w = (inl (ENOENT path), w')
                ∧ files w' = files w) as (w' & -> & Hf); [|by split].
  unfold uploadOnCloudinary, try_catch.
  rewrite (truthy_Some _ Hne). cbn [negb].
  rewrite run_bind. unfold uuidv4.
  rewrite run_bind. unfold uploader_upload. cbn [cloudinary_upload set_uuids_taken].
  destruct (cloudinary_upload w path _) as [r|].
  - rewrite run_bind. unfold unlinkSync at 1. cbn [files set_gateway_calls].
    rewrite decide_False by done.
    rewrite run_bind. unfold unlinkSync. cbn [files set_gateway_calls].
    rewrite decide_False by done. eexists. split; reflexivity.
  - rewrite run_bind. unfold unlinkSync. cbn [files set_gateway_calls].
    rewrite decide_False by done. eexists. split; reflexivity.
Qed.

(** *** C8 *)

(** C8. [updateTweet] reads nothing, writes nothing and sends nothing:
    it returns at once and the world after the call is the world before
    it. *)
Theorem updateTweet_does_nothing (req : Request) (w : World) :
  updateTweet req w = (inr tt, w).
Proof. reflexivity. Qed.

(** *** C3 *)

Lemma deleteVideo_gateway_failure (req : Request) (w : World) (s : string)
    (i : ObjectId) (v : Video.t) :
  params_videoId req = Some s →
  s ≠ "" →
  castObjectId s = Some i →
  Videos w !! i = Some v →
  user req = Some (Video.owner v) →
  Video.videoPublicId v ≠ "" →
  cloudinary_destroy w (Video.videoPublicId v) RVideo = None →
  deleteVideo req w
  = (inl (ApiError 500 "Failed to delete video from Cloudinary"),
     set_gateway_calls
       (gateway_calls w ++ [Destroy (Video.videoPublicId v) RVideo]) w).
Proof.
  intros Hp Hs Hc Hv Hu Hpid Hd.
  unfold deleteVideo. rewrite Hp, (truthy_Some s Hs), (isValid_Some s i Hc).
  cbn [negb].
  rewrite (run_bind_ok _ _ _ _ _ (findById_found Videos s i v w Hc Hv)).
  cbv beta iota.
  rewrite (run_bind_ok _ _ _ _ _ (req_user_id_run _ _ _ Hu)).
  rewrite bool_decide_eq_true_2 by done. cbn [negb].
  rewrite (truthy_Some _ Hpid).
  rewrite run_bind. rewrite run_bind.
  rewrite (deleteFromCloudinary_run _ _ Hpid), Hd.
  reflexivity.
Qed.

(** C3. When the owner deletes a video whose [videoPublicId] is not
    empty and the gateway fails to delete that asset, [deleteVideo]
    throws the 500 error without having sent a response, the Videos
    collection is what it was, and the video is still found by its
    identifier. *)
Theorem deleteVideo_aborts_when_gateway_fails (req : Request) (w : World)
    (s : string) (i : ObjectId) (v : Video.t) :
  params_videoId req = Some s →
  s ≠ "" →
  castObjectId s = Some i →
  Videos w !! i = Some v →
  user req = Some (Video.owner v) →
  Video.videoPublicId v ≠ "" →
  cloudinary_destroy w (Video.videoPublicId v) RVideo = None →
  let r := serve deleteVideo req w in
  r.1 = inl (ApiError 500 "Failed to delete video from Cloudinary")
  ∧ res_sent r.2 = None
  ∧ Videos r.2 = Videos w
  ∧ (findById Videos (Some s) r.2).1 = inr (Some (i, v)).
Proof.
  intros Hp Hs Hc Hv Hu Hpid Hd. cbv zeta. unfold serve.
  rewrite (deleteVideo_gateway_failure req (new_response w) s i v)
    by assumption.
  cbn [fst snd]. repeat split.
  rewrite (findById_found Videos s i v) by assumption. reflexivity.
Qed.

(** *** C10 *)

Lemma calls_only_toObjectId (Q : GatewayCall → Prop) (path : string)
    (x : option string) :
  calls_only Q (toObjectId path x).
Proof.
  unfold toObjectId. destruct (x ≫= castObjectId);
    [apply calls_only_ret | apply calls_only_throw].
Qed.

Lemma calls_only_findById (Q : GatewayCall → Prop)
    (x : option string) :
  calls_only Q (findById Videos x).
Proof.
  unfold findById. apply calls_only_bind; [apply calls_only_toObjectId|].
  intros i. apply calls_only_silent. reflexivity.
Qed.

Lemma calls_only_findByIdAndDelete (Q : GatewayCall → Prop)
    (x : option string) :
  calls_only Q (findByIdAndDelete Videos set_Videos x).
Proof.
  unfold findByIdAndDelete.
  apply calls_only_bind; [apply calls_only_toObjectId|].
  intros i. apply calls_only_silent. reflexivity.
Qed.

Lemma calls_only_deleteFromCloudinary (publicId : string) :
  calls_only is_video_destroy (deleteFromCloudinary publicId).
Proof.
  unfold deleteFromCloudinary.
  apply calls_only_try_catch; [|intros; apply calls_only_ret].
  destruct (negb _); [apply calls_only_ret|].
  apply calls_only_bind; [|intros; apply calls_only_ret].
  intros w. exists [Destroy publicId RVideo]. unfold uploader_destroy.
  split; [destruct (cloudinary_destroy w publicId RVideo); reflexivity|].
  repeat constructor.
Qed.

Lemma deleteVideo_calls_only_video_destroys (req : Request) :
  calls_only is_video_destroy (deleteVideo req).
Proof.
  unfold deleteVideo.
  destruct (negb (truthy _)); [apply calls_only_throw|].
  destruct (negb (isValid _)); [apply calls_only_throw|].
  apply calls_only_bind; [apply calls_only_findById|].
  intros [[i v]|]; [|apply calls_only_throw].
  apply calls_only_bind; [apply calls_only_req_user_id|]. intros u.
  destruct (negb (bool_decide _)); [apply calls_only_throw|].
  apply calls_only_bind.
  { destruct (truthy _); [|apply calls_only_ret].
    apply calls_only_bind; [apply calls_only_deleteFromCloudinary|].
    intros [?|]; [apply calls_only_ret | apply calls_only_throw]. }
  intros _. apply calls_only_bind.
  { destruct (truthy _); [|apply calls_only_ret].
    apply calls_only_bind; [apply calls_only_deleteFromCloudinary|].
    intros [?|]; [apply calls_only_ret | apply calls_only_throw]. }
  intros _.
  apply calls_only_bind; [apply calls_only_findByIdAndDelete|]. intros _.
  apply calls_only_bind; [apply calls_only_res_status|]. intros _.
  apply calls_only_res_json.
Qed.

Lemma deleteVideo_thumbnail_call (req : Request) (w : World) (s : string)
    (i : ObjectId) (v : Video.t) (done_video : DestroyResponse) :
  params_videoId req = Some s →
  s ≠ "" →
  castObjectId s = Some i →
  Videos w !! i = Some v →
  user req = Some (Video.owner v) →
  Video.videoPublicId v ≠ "" →
  cloudinary_destroy w (Video.videoPublicId v) RVideo = Some done_video →
  Video.thumbnailPublicId v ≠ "" →
  gateway_calls (deleteVideo req w).2
  = (gateway_calls w
     ++ [Destroy (Video.videoPublicId v) RVideo;
         Destroy (Video.thumbnailPublicId v) RVideo])%list.
Proof.
  intros Hp Hs Hc Hv Hu Hpid Hd Htid.
  unfold deleteVideo. rewrite Hp, (truthy_Some s Hs), (isValid_Some s i Hc).
  cbn [negb].
  rewrite (run_bind_ok _ _ _ _ _ (findById_found Videos s i v w Hc Hv)).
  cbv beta iota.
  rewrite (run_bind_ok _ _ _ _ _ (req_user_id_run _ _ _ Hu)).
  rewrite bool_decide_eq_true_2 by done. cbn [negb].
  rewrite (truthy_Some _ Hpid), (truthy_Some _ Htid).
  rewrite run_bind. rewrite run_bind.
  rewrite (deleteFromCloudinary_run _ _ Hpid), Hd.
  cbv beta iota. rewrite run_ret.
  rewrite run_bind. rewrite run_bind.
  rewrite (deleteFromCloudinary_run _ _ Htid).
  cbn [cloudinary_destroy gateway_calls set_gateway_calls].
  destruct (cloudinary_destroy w (Video.thumbnailPublicId v) RVideo).
  - cbv beta iota. rewrite run_ret.
    rewrite calls_only_none.
    + cbn [gateway_calls set_gateway_calls].
      rewrite <- app_assoc; reflexivity.
    + apply calls_only_bind; [apply calls_only_findByIdAndDelete|].
      intros _.
      apply calls_only_bind; [apply calls_only_res_status|]. intros _.
      apply calls_only_res_json.
  - cbn [snd gateway_calls set_gateway_calls].
    rewrite <- app_assoc; reflexivity.
Qed.

(** C10. Whatever the request, the only gateway calls [deleteVideo]
    makes are deletions of the video kind, so the image-kind deletion is
    never invoked; and when the owner deletes a video whose video asset
    was deleted, the thumbnail is deleted by a call of the video kind on
    [thumbnailPublicId]. *)
Theorem deleteVideo_deletes_thumbnail_as_video :
  (∀ (req : Request) (w : World), ∃ calls,
      gateway_calls (deleteVideo req w).2 = (gateway_calls w ++ calls)%list
      ∧ Forall is_video_destroy calls)
  ∧ (∀ (req : Request) (w : World) (s : string) (i : ObjectId)
       (v : Video.t) (done_video : DestroyResponse),
      params_videoId req = Some s →
      s ≠ "" →
      castObjectId s = Some i →
      Videos w !! i = Some v →
      user req = Some (Video.owner v) →
      Video.videoPublicId v ≠ "" →
      cloudinary_destroy w (Video.videoPublicId v) RVideo
      = Some done_video →
      Video.thumbnailPublicId v ≠ "" →
      gateway_calls (deleteVideo req w).2
      = (gateway_calls w
         ++ [Destroy (Video.videoPublicId v) RVideo;
             Destroy (Video.thumbnailPublicId v) RVideo])%list).
Proof.
  split.
  - intros req w. apply deleteVideo_calls_only_video_destroys.
  - apply deleteVideo_thumbnail_call.
Qed.

(** *** C1: the handlers that check the owner *)

Lemma deleteVideo_not_owner (req : Request) (w : World) (s : string)
    (i u : ObjectId) (v : Video.t) :
  params_videoId req = Some s → s ≠ "" → castObjectId s = Some i →
  Videos w !! i = Some v → user req = Some u → u ≠ Video.owner v →
  deleteVideo req w
  = (inl (ApiError 403 "You are not authorized to delete this video"), w).
Proof.
  intros Hp Hs Hc Hv Hu Hne.
  unfold deleteVideo. rewrite Hp, (truthy_Some s Hs), (isValid_Some s i Hc).
  cbn [negb].
  rewrite (run_bind_ok _ _ _ _ _ (findById_found Videos s i v w Hc Hv)).
  cbv beta iota.
  rewrite (run_bind_ok _ _ _ _ _ (req_user_id_run _ _ _ Hu)).
  rewrite bool_decide_eq_false_2 by done. reflexivity.
Qed.

Lemma togglePublishStatus_not_owner (req : Request) (w : World)
    (s : string) (i u : ObjectId) (v : Video.t) :
  params_videoId req = Some s → s ≠ "" → castObjectId s = Some i →
  Videos w !! i = Some v → user req = Some u → u ≠ Video.owner v →
  togglePublishStatus req w
  = (inl (ApiError 403 "You are not authorized to update this video"), w).
Proof.
  intros Hp Hs Hc Hv Hu Hne.
  unfold togglePublishStatus.
  rewrite Hp, (truthy_Some s Hs), (isValid_Some s i Hc). cbn [negb].
  rewrite (run_bind_ok _ _ _ _ _ (findById_found Videos s i v w Hc Hv)).
  cbv beta iota.
  rewrite (run_bind_ok _ _ _ _ _ (req_user_id_run _ _ _ Hu)).
  rewrite bool_decide_eq_false_2 by done. reflexivity.
Qed.

Lemma updateComment_not_owner (req : Request) (w : World) (s text : string)
    (i u : ObjectId) (c : Comment.t) :
  params_commentId req = Some s → castObjectId s = Some i →
  body_content req = Some text → text ≠ "" →
  Comments w !! i = Some c → user req = Some u → u ≠ Comment.owner c →
  updateComment req w
  = (inl (ApiError 403 "You are not authorized to update this comment"), w).
Proof.
  intros Hp Hc Hb Ht Hv Hu Hne.
  unfold updateComment.
  rewrite Hp, Hb, (truthy_Some _ Ht), (isValid_Some s i Hc).
  cbn [negb orb].
  rewrite (run_bind_ok _ _ _ _ _ (findById_found Comments s i c w Hc Hv)).
  cbv beta iota.
  rewrite (run_bind_ok _ _ _ _ _ (req_user_id_run _ _ _ Hu)).
  rewrite bool_decide_eq_false_2 by done. reflexivity.
Qed.

Lemma deleteComment_not_owner (req : Request) (w : World) (s : string)
    (i u : ObjectId) (c : Comment.t) :
  params_commentId req = Some s → castObjectId s = Some i →
  Comments w !! i = Some c → user req = Some u → u ≠ Comment.owner c →
  deleteComment req w
  = (inl (ApiError 403 "You are not authorized to delete this comment"), w).
Proof.
  intros Hp Hc Hv Hu Hne.
  unfold deleteComment. rewrite Hp, (isValid_Some s i Hc). cbn [negb].
  rewrite (run_bind_ok _ _ _ _ _ (findById_found Comments s i c w Hc Hv)).
  cbv beta iota.
  rewrite (run_bind_ok _ _ _ _ _ (req_user_id_run _ _ _ Hu)).
  rewrite bool_decide_eq_false_2 by done. reflexivity.
Qed.

Lemma deleteTweet_not_owner (req : Request) (w : World) (s : string)
    (i u : ObjectId) (t : Tweet.t) :
  params_tweetId req = Some s → castObjectId s = Some i →
  Tweets w !! i = Some t → user req = Some u → u ≠ Tweet.owner t →
  deleteTweet req w
  = (inl (ApiError 403 "You are not authorized to delete this tweet"), w).
Proof.
  intros Hp Hc Hv Hu Hne.
  unfold deleteTweet. rewrite Hp, (isValid_Some s i Hc). cbn [negb].
  rewrite (run_bind_ok _ _ _ _ _ (findById_found Tweets s i t w Hc Hv)).
  cbv beta iota.
  rewrite (run_bind_ok _ _ _ _ _ (req_user_id_run _ _ _ Hu)).
  rewrite bool_decide_eq_false_2 by done. reflexivity.
Qed.

(** [updateVideo] has no such check: with nothing to upload and a new
    title within the bounds, any authenticated user changes the title. *)
Lemma updateVideo_ignores_owner (req : Request) (w : World)
    (s newTitle : string) (i : ObjectId) (v : Video.t) :
  params_videoId req = Some s → s ≠ "" → castObjectId s = Some i →
  Videos w !! i = Some v →
  body_title req = Some newTitle → trim newTitle ≠ "" →
  valid_title (trim newTitle) = true →
  trim newTitle ≠ Video.title v →
  body_description req = None → file req = None →
  res_sent w = None →
  let v' := Video.set_updatedAt (now w)
              (Video.set_title (trim newTitle) v) in
  updateVideo req w
  = (inr tt,
     set_res_sent
       (Some (200, JApiResponse
                     (mkApiResponse 200 (DVideo i v')
                        "Video updated successfully")))
       (set_res_statusCode 200 (set_Videos (<[i := v']> (Videos w)) w))).
Proof.
  intros Hp Hs Hc Hv Ht Htrim Hvalid Hdiff Hd Hf Hres. cbv zeta.
  unfold updateVideo.
  rewrite Hp, (truthy_Some s Hs), (isValid_Some s i Hc). cbn [negb].
  rewrite (run_bind_ok _ _ _ _ _ (findById_found Videos s i v w Hc Hv)).
  cbv beta iota. rewrite Ht, Hd, Hf.
  cbn [fmap option_fmap option_map default from_option id].
  rewrite (truthy_Some _ Htrim). cbn [truthy].
  rewrite run_bind, run_ret. unfold Video_save.
  rewrite decide_False.
  2:{ intros Heq. apply Hdiff.
      apply (f_equal Video.title) in Heq. symmetry. exact Heq. }
  unfold invalid_modified_paths. cbn [Video.thumbnail Video.title
    Video.description Video.set_title].
  rewrite (bool_decide_eq_true_2 (Video.thumbnail v = _)) by done.
  rewrite (bool_decide_eq_true_2 (Video.description v = _)) by done.
  rewrite Hvalid.
  rewrite orb_true_r. cbn [orb failing app].
  rewrite run_bind, Hv. rewrite run_bind. unfold res_status, modify.
  unfold res_json. cbn [res_sent set_res_statusCode set_Videos].
  rewrite Hres. reflexivity.
Qed.

(** *** C9: the listings of a user with nothing to list *)

Lemma getUserTweets_none (req : Request) (w : World) (s : string)
    (i : ObjectId) :
  params_userId req = Some s → castObjectId s = Some i →
  (∀ k t, Tweets w !! k = Some t → Tweet.owner t ≠ i) →
  getUserTweets req w
  = (inl (ApiError 404 "No tweets found for this user"), w).
Proof.
  intros Hp Hc Hnone. unfold getUserTweets.
  rewrite Hp, (isValid_Some s i Hc). cbn [negb].
  rewrite (run_bind_ok _ _ _ _ _ (toObjectId_run _ _ _ _ Hc)).
  rewrite (run_bind_ok _ _ _ _ _ (find_run _ _ _)).
  rewrite matching_nil; [reflexivity|].
  intros k t Hk. apply N.eqb_neq. exact (Hnone k t Hk).
Qed.

Lemma getUserPlaylists_none (req : Request) (w : World) (s : string)
    (i : ObjectId) :
  params_userId req = Some s → castObjectId s = Some i →
  (∀ k p, Playlists w !! k = Some p → Playlist.owner p ≠ i) →
  res_sent w = None →
  getUserPlaylists req w
  = (inr tt,
     set_res_sent
       (Some (200, JApiResponse
                     (mkApiResponse 200 (DPlaylists [])
                        "No playlists found")))
       (set_res_statusCode 200 w)).
Proof.
  intros Hp Hc Hnone Hres. unfold getUserPlaylists.
  rewrite Hp, (isValid_Some s i Hc). cbn [negb].
  rewrite (run_bind_ok _ _ _ _ _ (toObjectId_run _ _ _ _ Hc)).
  rewrite (run_bind_ok _ _ _ _ _ (find_run _ _ _)).
  rewrite matching_nil.
  2:{ intros k t Hk. apply N.eqb_neq. exact (Hnone k t Hk). }
  cbn [map length Nat.eqb]. rewrite run_bind.
  unfold res_status, modify, res_json. cbn [res_sent set_res_statusCode].
  rewrite Hres. reflexivity.
Qed.

Lemma getChannelVideos_none (req : Request) (w : World) (s : string)
    (i : ObjectId) (channel : User.t) :
  params_channelId req = Some s → castObjectId s = Some i →
  Users w !! i = Some channel →
  (∀ k v, Videos w !! k = Some v → Video.owner v ≠ i) →
  res_sent w = None →
  getChannelVideos req w
  = (inr tt,
     set_res_sent
       (Some (200, JApiResponse
                     (mkApiResponse 200 (DVideoCards [])
                        "No videos found for this channel")))
       (set_res_statusCode 200 w)).
Proof.
  intros Hp Hc Hu Hnone Hres. unfold getChannelVideos.
  rewrite Hp, (isValid_Some s i Hc). cbn [negb].
  rewrite (run_bind_ok _ _ _ _ _ (findById_found Users s i _ w Hc Hu)).
  cbv beta iota.
  rewrite (run_bind_ok _ _ _ _ _ (find_run _ _ _)).
  rewrite matching_nil.
  2:{ intros k t Hk. apply N.eqb_neq. exact (Hnone k t Hk). }
  cbn [sort_desc foldr map length Nat.eqb]. rewrite run_bind.
  unfold res_status, modify, res_json. cbn [res_sent set_res_statusCode].
  rewrite Hres. reflexivity.
Qed.

Lemma getLikedVideos_none (req : Request) (w : World) (u : ObjectId) :
  user req = Some u →
  (∀ k v, Videos w !! k = Some v → u ∉ Video.likes v) →
  res_sent w = None →
  getLikedVideos req w
  = (inr tt,
     set_res_sent
       (Some (200, JApiResponse
                     (mkApiResponse 200 (DVideoCards [])
                        "No liked videos found")))
       (set_res_statusCode 200 w)).
Proof.
  intros Hu Hnone Hres. unfold getLikedVideos.
  rewrite (run_bind_ok _ _ _ _ _ (req_user_id_run _ _ _ Hu)).
  rewrite (run_bind_ok _ _ _ _ _ (find_run _ _ _)).
  rewrite matching_nil.
  2:{ intros k t Hk. apply bool_decide_eq_false_2. exact (Hnone k t Hk). }
  rewrite run_bind. unfold gets. cbv beta iota.
  cbn [map length Nat.eqb]. rewrite run_bind.
  unfold res_status, modify, res_json. cbn [res_sent set_res_statusCode].
  rewrite Hres. reflexivity.
Qed.

(** C9. For every well-formed user identifier that owns no tweet,
    [getUserTweets] throws the 404 error and sends nothing, whatever else
    that user owns or has liked. The other listings answer their empty
    case with status 200 and an empty list: [getUserPlaylists] for a
    user who owns no playlist, [getChannelVideos] for an existing channel
    that owns no video, and [getLikedVideos] for a requester who has
    liked no video. *)
Theorem getUserTweets_empty_is_404_unlike_other_listings :
  (∀ (req : Request) (w : World) (s : string) (i : ObjectId),
     params_userId req = Some s → castObjectId s = Some i →
     (∀ k t, Tweets w !! k = Some t → Tweet.owner t ≠ i) →
     serve getUserTweets req w
     = (inl (ApiError 404 "No tweets found for this user"), new_response w))
  ∧ (∀ (req : Request) (w : World) (s : string) (i : ObjectId),
       params_userId req = Some s → castObjectId s = Some i →
       (∀ k p, Playlists w !! k = Some p → Playlist.owner p ≠ i) →
       serve getUserPlaylists req w
       = (inr tt,
          set_res_sent
            (Some (200, JApiResponse
                          (mkApiResponse 200 (DPlaylists [])
                             "No playlists found")))
            (new_response w)))
  ∧ (∀ (req : Request) (w : World) (s : string) (i : ObjectId)
       (channel : User.t),
       params_channelId req = Some s → castObjectId s = Some i →
       Users w !! i = Some channel →
       (∀ k v, Videos w !! k = Some v → Video.owner v ≠ i) →
       serve getChannelVideos req w
       = (inr tt,
          set_res_sent
            (Some (200, JApiResponse
                          (mkApiResponse 200 (DVideoCards [])
                             "No videos found for this channel")))
            (new_response w)))
  ∧ (∀ (req : Request) (w : World) (u : ObjectId),
       user req = Some u →
       (∀ k v, Videos w !! k = Some v → u ∉ Video.likes v) →
       serve getLikedVideos req w
       = (inr tt,
          set_res_sent
            (Some (200, JApiResponse
                          (mkApiResponse 200 (DVideoCards [])
                             "No liked videos found")))
            (new_response w))).
Proof.
  unfold serve. split; [|split; [|split]].
  - intros req w s i Hp Hc Ht.
    exact (getUserTweets_none req (new_response w) s i Hp Hc Ht).
  - intros req w s i Hp Hc Hpl.
    exact (getUserPlaylists_none req (new_response w) s i Hp Hc Hpl eq_refl).
  - intros req w s i channel Hp Hc Hchan Hv.
    exact (getChannelVideos_none req (new_response w) s i channel Hp Hc
             Hchan Hv eq_refl).
  - intros req w u Hu Hv.
    exact (getLikedVideos_none req (new_response w) u Hu Hv eq_refl).
Qed.

(** *** C4: the listing with nothing to list *)

Lemma getAllVideos_empty_page (req : Request) (w : World)
    (pipeline : list Stage) (p : Paginated) :
  res_sent w = None →
  listingPipeline req w = (inr pipeline, w) →
  aggregatePaginate pipeline (listingOptions req) w = inr (Some p) →
  pg_videos p = [] →
  getAllVideos req w
  = (inl ERR_HTTP_HEADERS_SENT,
     set_res_statusCode 200
       (set_res_sent (Some (300, JMessageEmptyList))
          (set_res_statusCode 300 w))).
Proof.
  intros Hres Hpipe Hengine Hempty. unfold getAllVideos.
  rewrite (run_bind_ok _ _ _ _ _ Hpipe).
  rewrite run_bind, Hengine. cbv beta iota. rewrite Hempty.
  cbn [length Nat.eqb].
  rewrite run_bind. rewrite run_bind.
  unfold res_status, modify, res_json. cbn [res_sent set_res_statusCode].
  rewrite Hres. cbv beta iota. rewrite run_bind. reflexivity.
Qed.

(** C4 fails on the code. When the listing finds no video, the branch
    for the empty case is taken: [getAllVideos] sends status 300 with
    [{message: []}], and the 200 response that follows cannot be sent
    any more, so the handler ends with ERR_HTTP_HEADERS_SENT. *)
Theorem getAllVideos_empty_result_answers_300 (req : Request) (w : World)
    (pipeline : list Stage) (p : Paginated) :
  res_sent w = None →
  listingPipeline req w = (inr pipeline, w) →
  aggregatePaginate pipeline (listingOptions req) w = inr (Some p) →
  pg_videos p = [] →
  (getAllVideos req w).1 = inl ERR_HTTP_HEADERS_SENT
  ∧ res_sent (getAllVideos req w).2 = Some (300, JMessageEmptyList).
Proof.
  intros Hres Hpipe Hengine Hempty.
  rewrite (getAllVideos_empty_page req w pipeline p) by assumption.
  repeat split.
Qed.

(** *** C5: subscriptions *)

Lemma findOne_run {A : Type} (coll : World → gmap ObjectId A)
    (P : A → bool) (w : World) :
  findOne coll P w = (inr (head (matching P (coll w))), w).
Proof. reflexivity. Qed.

Lemma toggleSubscription_unsubscribes (req : Request) (w : World)
    (s : string) (c u k : ObjectId) (channel : User.t)
    (d : Subscription.t) (rest : list (ObjectId * Subscription.t)) :
  params_channelId req = Some s → castObjectId s = Some c →
  Users w !! c = Some channel → user req = Some u →
  subscriptionsOf u c w = (k, d) :: rest →
  res_sent w = None →
  toggleSubscription req w
  = (inr tt,
     set_res_sent
       (Some (200, JApiResponse
                     (mkApiResponse 200 DEmptyObject
                        "Successfully unsubscribed from the channel")))
       (set_res_statusCode 200
          (set_Subscriptions (delete k (Subscriptions w)) w))).
Proof.
  intros Hp Hc Hch Hu Hsub Hres. unfold toggleSubscription.
  rewrite Hp, (isValid_Some s c Hc). cbn [negb].
  rewrite (run_bind_ok _ _ _ _ _ (findById_found Users s c _ w Hc Hch)).
  cbv beta iota.
  rewrite (run_bind_ok _ _ _ _ _ (req_user_id_run _ _ _ Hu)).
  rewrite (run_bind_ok _ _ _ _ _ (findOne_run _ _ _)).
  unfold subscriptionsOf in Hsub. rewrite Hsub. cbn [head].
  rewrite run_bind. unfold deleteOne, modify. cbv beta iota.
  rewrite run_bind. unfold res_status, modify, res_json.
  cbn [res_sent set_res_statusCode set_Subscriptions].
  rewrite Hres. reflexivity.
Qed.

Lemma toggleSubscription_subscribes (req : Request) (w : World)
    (s : string) (c u : ObjectId) (channel : User.t) :
  params_channelId req = Some s → castObjectId s = Some c →
  Users w !! c = Some channel → user req = Some u →
  subscriptionsOf u c w = [] →
  res_sent w = None →
  let k := newObjectId (Subscriptions w) in
  let d := Subscription.mk u c (now w) (now w) in
  toggleSubscription req w
  = (inr tt,
     set_res_sent
       (Some (201, JApiResponse
                     (mkApiResponse 201 (DSubscription k d)
                        "Successfully subscribed to the channel")))
       (set_res_statusCode 201
          (set_Subscriptions (<[k := d]> (Subscriptions w)) w))).
Proof.
  intros Hp Hc Hch Hu Hsub Hres. cbv zeta. unfold toggleSubscription.
  rewrite Hp, (isValid_Some s c Hc). cbn [negb].
  rewrite (run_bind_ok _ _ _ _ _ (findById_found Users s c _ w Hc Hch)).
  cbv beta iota.
  rewrite (run_bind_ok _ _ _ _ _ (req_user_id_run _ _ _ Hu)).
  rewrite (run_bind_ok _ _ _ _ _ (findOne_run _ _ _)).
  unfold subscriptionsOf in Hsub. rewrite Hsub. cbn [head].
  rewrite run_bind. unfold create. cbv beta iota zeta.
  rewrite run_bind. unfold res_status, modify, res_json.
  cbn [res_sent set_res_statusCode set_Subscriptions fst snd].
  rewrite Hres. reflexivity.
Qed.

(** Whatever the request, [toggleSubscription] leaves the collection
    alone, removes one document, or inserts one for a pair that had
    none. *)
Lemma toggleSubscription_effect (req : Request) (w : World) :
  let m := Subscriptions w in
  let m' := Subscriptions (toggleSubscription req w).2 in
  m' = m
  ∨ (∃ k, m' = delete k m)
  ∨ (∃ u c, subscriptionsOf u c w = []
            ∧ m' = <[newObjectId m := Subscription.mk u c (now w) (now w)]> m).
Proof.
  cbv zeta. unfold toggleSubscription.
  destruct (params_channelId req) as [s|]; [|left; reflexivity].
  unfold isValid. destruct (castObjectId s) as [c|] eqn:Hc;
    [|left; reflexivity].
  cbn [negb].
  rewrite (run_bind_ok _ _ _ _ _ (findById_run Users s c w Hc)).
  destruct (Users w !! c) as [channel|]; [|left; reflexivity].
  cbn [fmap option_fmap option_map]. cbv beta iota.
  rewrite run_bind. unfold req_user_id.
  destruct (user req) as [u|]; [|left; reflexivity].
  rewrite run_ret.
  rewrite (run_bind_ok _ _ _ _ _ (findOne_run _ _ _)).
  destruct (matching _ (Subscriptions w)) as [|[k d] rest] eqn:Hsub;
    cbn [head].
  - right; right. exists u, c. split; [exact Hsub|].
    rewrite run_bind. unfold create. cbv beta iota zeta.
    rewrite run_bind. unfold res_status, modify, res_json.
    destruct (res_sent _); reflexivity.
  - right; left. exists k.
    rewrite run_bind. unfold deleteOne, modify. cbv beta iota.
    rewrite run_bind. unfold res_status, modify, res_json.
    destruct (res_sent _); reflexivity.
Qed.

Lemma at_most_one_step (req : Request) (w : World) :
  at_most_one_subscription w →
  at_most_one_subscription (serve toggleSubscription req w).2.
Proof.
  intros Hinv u c. unfold serve, subscriptionsOf.
  destruct (toggleSubscription_effect req (new_response w))
    as [-> | [[k ->] | (u' & c' & Hnone & ->)]].
  - apply (Hinv u c).
  - etransitivity; [apply matching_delete_length | apply (Hinv u c)].
  - rewrite matching_insert by apply newObjectId_fresh.
    cbn [Subscription.subscriber Subscription.channel].
    destruct (N.eqb_spec u' u) as [->|]; cbn [andb];
      [destruct (N.eqb_spec c' c) as [->|]|].
    + unfold subscriptionsOf in Hnone. cbn [Subscriptions new_response
        set_res_sent set_res_statusCode] in *. rewrite Hnone. reflexivity.
    + apply (Hinv u c).
    + apply (Hinv u c).
Qed.

Lemma at_most_one_serve_all (reqs : list Request) (w : World) :
  at_most_one_subscription w →
  at_most_one_subscription (serve_all toggleSubscription reqs w).
Proof.
  revert w. induction reqs as [|req reqs IH]; intros w Hinv; [exact Hinv|].
  cbn [serve_all foldl]. apply IH, at_most_one_step, Hinv.
Qed.

(** C5. For a subscriber and an existing channel: when a Subscription
    document of the pair exists, [toggleSubscription] answers 200 and the
    collection afterwards is the collection before without that
    document, so nothing was created; when none exists, it answers 201
    and the collection afterwards is the collection before with one new
    document of the pair. Hence requests served one after the other
    from a state with at most one document per pair never reach a state
    with two documents of one pair. *)
Theorem toggleSubscription_never_duplicates :
  (∀ (req : Request) (w : World) (s : string) (c u : ObjectId)
     (channel : User.t),
      params_channelId req = Some s → castObjectId s = Some c →
      Users w !! c = Some channel → user req = Some u →
      let r := serve toggleSubscription req w in
      match subscriptionsOf u c w with
      | (k, d) :: _ =>
          r.1 = inr tt
          ∧ fst <$> res_sent r.2 = Some 200
          ∧ Subscriptions w !! k = Some d
          ∧ Subscriptions r.2 = delete k (Subscriptions w)
          ∧ S (length (subscriptionsOf u c r.2))
            = length (subscriptionsOf u c w)
      | [] =>
          r.1 = inr tt
          ∧ fst <$> res_sent r.2 = Some 201
          ∧ ∃ k, Subscriptions w !! k = None
                 ∧ Subscriptions r.2
                   = <[k := Subscription.mk u c (now w) (now w)]>
                       (Subscriptions w)
                 ∧ length (subscriptionsOf u c r.2) = 1
      end)
  ∧ (∀ (reqs : list Request) (w : World),
      at_most_one_subscription w →
      at_most_one_subscription (serve_all toggleSubscription reqs w)).
Proof.
  split; [|apply at_most_one_serve_all].
  intros req w s c u channel Hp Hc Hch Hu. cbv zeta.
  destruct (subscriptionsOf u c w) as [|[k d] rest] eqn:Hsub.
  - unfold serve.
    rewrite (toggleSubscription_subscribes req (new_response w) s c u
               channel Hp Hc Hch Hu Hsub eq_refl).
    split; [reflexivity|]. split; [reflexivity|].
    exists (newObjectId (Subscriptions w)).
    split; [apply newObjectId_fresh|]. split; [reflexivity|].
    unfold subscriptionsOf. cbn [snd Subscriptions set_res_sent
      set_res_statusCode set_Subscriptions new_response].
    rewrite matching_insert by apply newObjectId_fresh.
    cbn [Subscription.subscriber Subscription.channel].
    rewrite !N.eqb_refl. cbn [andb].
    unfold subscriptionsOf in Hsub. rewrite Hsub. reflexivity.
  - unfold serve.
    rewrite (toggleSubscription_unsubscribes req (new_response w) s c u k
               channel d rest Hp Hc Hch Hu Hsub eq_refl).
    destruct (matching_first _ _ _ _ _ Hsub) as [Hk HP].
    split; [reflexivity|]. split; [reflexivity|].
    split; [exact Hk|]. split; [reflexivity|].
    rewrite <- Hsub. unfold subscriptionsOf.
    cbn [snd Subscriptions set_res_sent set_res_statusCode
      set_Subscriptions new_response].
    rewrite (matching_delete _ (Subscriptions w) k d Hk), HP.
    reflexivity.
Qed.

(** *** C2: toggling a video like *)

Lemma Video_save_likes (i : ObjectId) (v : Video.t) (likes : list ObjectId)
    (w : World) :
  likes ≠ Video.likes v → Videos w !! i = Some v →
  let v' := Video.set_updatedAt (now w) (Video.set_likes likes v) in
  Video_save i v (Video.set_likes likes v) w
  = (inr v', set_Videos (<[i := v']> (Videos w)) w).
Proof.
  intros Hne Hv. cbv zeta. unfold Video_save.
  rewrite decide_False.
  2:{ intros Heq. apply Hne. apply (f_equal Video.likes) in Heq.
      symmetry. exact Heq. }
  unfold invalid_modified_paths.
  cbn [Video.thumbnail Video.title Video.description Video.set_likes].
  rewrite !bool_decide_eq_true_2 by done. cbn [orb failing app].
  rewrite Hv. reflexivity.
Qed.

Lemma toggled_array_changes (u : ObjectId) (likes : list ObjectId) :
  toggled_array u likes ≠ likes.
Proof.
  unfold toggled_array. case_bool_decide as Hin; intros Heq.
  - rewrite <- Heq in Hin. apply list_elem_of_In, filter_In in Hin.
    destruct Hin as [_ Hin]. by rewrite N.eqb_refl in Hin.
  - apply (f_equal length) in Heq. rewrite length_app in Heq.
    cbn [length] in Heq. lia.
Qed.

Lemma toggleVideoLike_run (req : Request) (w : World) (s : string)
    (i u : ObjectId) (v : Video.t) :
  params_videoId req = Some s → castObjectId s = Some i →
  Videos w !! i = Some v → user req = Some u → res_sent w = None →
  ∃ body,
    toggleVideoLike req w
    = (inr tt,
       set_res_sent (Some (200, body))
         (set_res_statusCode 200
            (set_Videos
               (<[i := Video.set_updatedAt (now w)
                         (Video.set_likes
                            (toggled_array u (Video.likes v)) v)]>
                  (Videos w))
               (set_Likes
                  (toggled_documents u i (Video.likes v) (now w) (Likes w))
                  w)))).
Proof.
  intros Hp Hc Hv Hu Hres. unfold toggleVideoLike.
  rewrite Hp, (isValid_Some s i Hc). cbn [negb].
  rewrite (run_bind_ok _ _ _ _ _ (findById_found Videos s i v w Hc Hv)).
  cbv beta iota.
  rewrite (run_bind_ok _ _ _ _ _ (req_user_id_run _ _ _ Hu)).
  pose proof (toggled_array_changes u (Video.likes v)) as Hchg.
  unfold toggled_array, toggled_documents in *.
  destruct (decide (u ∈ Video.likes v)) as [Hin|Hin];
    [rewrite !(bool_decide_eq_true_2 _ Hin) in *
    |rewrite !(bool_decide_eq_false_2 _ Hin) in *]; cbv beta iota in *.
  - rewrite run_bind. rewrite run_bind. unfold findOneAndDelete.
    rewrite (run_bind_ok _ _ _ _ _ (findOne_run _ _ _)).
    destruct (matching _ (Likes w)) as [|[k d] rest]; cbn [head].
    + rewrite run_ret. rewrite run_ret.
      rewrite (run_bind_ok _ _ _ _ _ (Video_save_likes i v _ w Hchg Hv)).
      rewrite run_bind. unfold countDocuments.
      rewrite (run_bind_ok _ _ _ _ _ (find_run _ _ _)). rewrite run_ret.
      rewrite run_bind. unfold res_status, modify, res_json.
      cbn [res_sent set_res_statusCode set_Videos]. rewrite Hres.
      eexists. destruct w. reflexivity.
    + rewrite run_bind. unfold modify. cbv beta iota. rewrite run_ret.
      rewrite run_ret.
      rewrite (run_bind_ok _ _ _ _ _
                 (Video_save_likes i v _ (set_Likes _ w) Hchg Hv)).
      rewrite run_bind. unfold countDocuments.
      rewrite (run_bind_ok _ _ _ _ _ (find_run _ _ _)). rewrite run_ret.
      rewrite run_bind. unfold res_status, modify, res_json.
      cbn [res_sent set_res_statusCode set_Videos set_Likes]. rewrite Hres.
      eexists. reflexivity.
  - rewrite run_bind. rewrite run_bind. unfold create. cbv beta iota zeta.
    rewrite run_ret.
    rewrite (run_bind_ok _ _ _ _ _
               (Video_save_likes i v _ (set_Likes _ w) Hchg Hv)).
    rewrite run_bind. unfold countDocuments.
    rewrite (run_bind_ok _ _ _ _ _ (find_run _ _ _)). rewrite run_ret.
    rewrite run_bind. unfold res_status, modify, res_json.
    cbn [res_sent set_res_statusCode set_Videos set_Likes]. rewrite Hres.
    eexists. reflexivity.
Qed.


(** *** C6: the length bounds of the video schema *)

Lemma valid_required_nonempty (s : string) :
  s ≠ "" → valid_required s = true.
Proof. intros H. exact (truthy_Some s H). Qed.

(** A complete publish request gets as far as [Video.create], after
    both uploads. *)
Lemma publishAVideo_reaches_create (req : Request) (w : World)
    (title description durationText videoPath thumbnailPath : string)
    (videoUpload thumbnailUpload : UploadApiResponse) (duration : Number)
    (owner : ObjectId) :
  publishable req w title description durationText videoPath thumbnailPath
    videoUpload thumbnailUpload duration owner →
  ∃ w', Videos w' = Videos w ∧ now w' = now w ∧ res_sent w' = res_sent w
    ∧ publishAVideo req w
      = (newVideo ← Video_create title description
                      (url videoUpload) (public_id videoUpload)
                      (url thumbnailUpload) (public_id thumbnailUpload)
                      durationText owner;
         res_status 201;;
         res_json (JApiResponse
           (mkApiResponse 200 (DVideo newVideo.1 newVideo.2)
              "Video published successfully"))) w'.
Proof.
  intros [[Ht Htne] [Hd Hdne] (Hdu & Hdune & _) (Hvf & Hvne & Hvin)
          (Htf & Htfne & Htin & Hdiff) (Hvu & _) (Htu & _) Hu].
  unfold publishAVideo. rewrite Ht, Hd, Hdu, Hvf, Htf.
  rewrite (truthy_Some _ Htne), (truthy_Some _ Hdne),
    (truthy_Some _ Hdune), (truthy_Some _ Hvne), (truthy_Some _ Htfne).
  cbn [negb orb default from_option id].
  rewrite (run_bind_ok _ _ _ _ _ (uploadOnCloudinary_run _ _ Hvne Hvin)).
  rewrite Hvu.
  match goal with |- context [mbind _ _ ?W] => set (w1 := W) end.
  assert (thumbnailPath ∈ files w1) as Htin1.
  { cbn [files w1 set_files]. apply elem_of_difference.
    split; [exact Htin|]. rewrite elem_of_singleton. congruence. }
  rewrite (run_bind_ok _ _ _ _ _
             (uploadOnCloudinary_run _ w1 Htfne Htin1)).
  cbn [w1 cloudinary_upload uuids uuids_taken set_files set_gateway_calls
    set_uuids_taken]. rewrite Htu.
  rewrite (run_bind_ok _ _ _ _ _ (req_user_id_run _ _ _ Hu)).
  eexists. split; [|split; [|split; [|reflexivity]]]; reflexivity.
Qed.

(** C6. For a complete publish request: with a title of exactly 3
    characters and a description of exactly 10, the video is created and
    the handler answers 201; with a title of 2 characters, creating the
    document fails validation on [title], which the error boundary
    answers with 400, nothing having been sent and no video document
    having been stored. *)
Theorem publishAVideo_title_boundaries (req : Request) (w : World)
    (title description durationText videoPath thumbnailPath : string)
    (videoUpload thumbnailUpload : UploadApiResponse) (duration : Number)
    (owner : ObjectId) :
  publishable req w title description durationText videoPath thumbnailPath
    videoUpload thumbnailUpload duration owner →
  let r := serve publishAVideo req w in
  (String.length title = 3 → String.length description = 10 →
   r.1 = inr tt
   ∧ status_received r = Some 201
   ∧ Videos w !! newObjectId (Videos w) = None
   ∧ Videos r.2
     = <[newObjectId (Videos w) :=
           Video.mk (url videoUpload) (public_id videoUpload)
             (url thumbnailUpload) (public_id thumbnailUpload)
             title description duration 0%Q true [] [] owner
             (now w) (now w)]> (Videos w))
  ∧ (String.length title = 2 →
     (∃ paths, r.1 = inl (ValidationError paths) ∧ "title" ∈ paths)
     ∧ res_sent r.2 = None
     ∧ status_received r = Some 400
     ∧ Videos r.2 = Videos w).
Proof.
  intros Hpub. cbv zeta. unfold serve.
  assert (publishable req (new_response w) title description durationText
            videoPath thumbnailPath videoUpload thumbnailUpload duration
            owner) as Hpub' by (destruct Hpub; by constructor).
  destruct (publishAVideo_reaches_create _ _ _ _ _ _ _ _ _ _ _ Hpub')
    as (w' & HV & Hnow & Hres & ->).
  destruct Hpub as [_ _ (_ & _ & Hcast) _ _ (_ & Hvu1 & Hvu2)
                      (_ & Htu1 & Htu2) _].
  cbn [res_sent new_response set_res_sent] in Hres.
  cbn [Videos new_response set_res_sent set_res_statusCode] in HV.
  cbn [now new_response set_res_sent set_res_statusCode] in Hnow.
  rewrite run_bind. unfold Video_create, invalid_paths. rewrite Hcast.
  rewrite !valid_required_nonempty by assumption.
  rewrite bool_decide_eq_true_2 by eauto.
  cbn [failing app]. unfold valid_title, valid_description.
  split.
  - intros -> ->. cbn [Nat.leb andb failing app]. cbv beta iota zeta.
    rewrite run_bind. unfold res_status, modify, res_json.
    cbn [res_sent set_res_statusCode set_Videos]. rewrite Hres.
    unfold status_received. cbn [fst snd res_sent set_res_sent Videos
      set_res_statusCode set_Videos res_statusCode]. rewrite HV, Hnow.
    split; [reflexivity|]. split; [reflexivity|].
    split; [apply newObjectId_fresh | reflexivity].
  - intros ->. cbn [Nat.leb andb failing app].
    unfold status_received. cbn [fst snd throw]. rewrite Hres.
    split; [|by repeat split].
    eexists. split; [reflexivity | apply list_elem_of_here].
Qed.
End Properties.

(** * The properties at concrete inputs *)

(** C1 fails on the code for [updateVideo]. Bob is not the owner of
    Alice's video, yet his request to retitle it is served with status
    200 and the stored title is the one he sent; [deleteVideo],
    [togglePublishStatus], [updateComment], [deleteComment] and
    [deleteTweet] refuse such a request with 403 (lemmas above). *)
Theorem updateVideo_by_non_owner_is_served :
  let w := sample_world [] ∅ ∅ gateway_ok_destroy in
  let r := serve (updateVideo (E := sampleExternals)) retitle_by_bob w in
  user retitle_by_bob = Some bob
  ∧ Video.owner <$> Videos w !! video_id = Some alice
  ∧ bob ≠ alice
  ∧ Video.title <$> Videos w !! video_id = Some "My first video"
  ∧ r.1 = inr tt
  ∧ fst <$> res_sent r.2 = Some 200
  ∧ Video.title <$> Videos r.2 !! video_id = Some "Hijacked".
Proof. vm_compute. repeat split. discriminate. Qed.



Lemma deleteVideo_aborts_when_gateway_fails_witness :
  let w := sample_world [] ∅ ∅ gateway_fail_abc in
  let r := serve (deleteVideo (E := sampleExternals))
             (on_video video_hex alice) w in
  cloudinary_destroy w "abc" RVideo = None
  ∧ r.1 = inl (ApiError 500 "Failed to delete video from Cloudinary")
  ∧ res_sent r.2 = None
  ∧ Videos r.2 = Videos w
  ∧ (findById (E := sampleExternals) Videos (Some video_hex) r.2).1
    = inr (Some (video_id, alice_video [])).
Proof.
  split; [reflexivity|].
  apply (deleteVideo_aborts_when_gateway_fails (E := sampleExternals)
           (on_video video_hex alice) _ video_hex video_id (alice_video []));
    try reflexivity; discriminate.
Defined.

Lemma getAllVideos_empty_result_answers_300_witness :
  let r := getAllVideos (E := sampleExternals) no_request (empty_world ∅) in
  r.1 = inl ERR_HTTP_HEADERS_SENT
  ∧ res_sent r.2 = Some (300, JMessageEmptyList).
Proof.
  apply (getAllVideos_empty_result_answers_300 (E := sampleExternals)
           no_request (empty_world ∅)
           [SortBy "createdAt" (-1)%Z; LookupOwner; AddFieldsFirstOwner;
            ProjectListing]
           (mkPaginated [] 0 10 1 0)); reflexivity.
Defined.

Lemma toggleSubscription_never_duplicates_witness :
  let w := empty_world ∅ in
  let r1 := serve (toggleSubscription (E := sampleExternals))
              subscribe_bob_to_alice w in
  let r2 := serve (toggleSubscription (E := sampleExternals))
              subscribe_bob_to_alice r1.2 in
  (r1.1 = inr tt ∧ fst <$> res_sent r1.2 = Some 201
   ∧ ∃ k, Subscriptions w !! k = None
          ∧ Subscriptions r1.2
            = <[k := Subscription.mk bob alice (now w) (now w)]>
                (Subscriptions w)
          ∧ length (subscriptionsOf bob alice r1.2) = 1)
  ∧ fst <$> res_sent r2.2 = Some 200
  ∧ at_most_one_subscription
      (serve_all (toggleSubscription (E := sampleExternals))
         [subscribe_bob_to_alice; subscribe_bob_to_alice;
          subscribe_bob_to_alice] w).
Proof.
  split; [|split].
  - apply (proj1 (toggleSubscription_never_duplicates (E := sampleExternals))
             subscribe_bob_to_alice (empty_world ∅) alice_hex alice bob
             (User.mk "Alice A" "alice" "a.png")); reflexivity.
  - vm_compute. reflexivity.
  - apply (proj2 (toggleSubscription_never_duplicates (E := sampleExternals))).
    intros s c. vm_compute. lia.
Defined.

Lemma publishAVideo_title_boundaries_witness :
  let w := empty_world two_tmp_files in
  let r3 := serve (publishAVideo (E := sampleExternals))
              (publish_by_alice "abc" "0123456789") w in
  let r2 := serve (publishAVideo (E := sampleExternals))
              (publish_by_alice "ab" "0123456789") w in
  (r3.1 = inr tt ∧ status_received r3 = Some 201
   ∧ Video.title <$> Videos r3.2 !! newObjectId (Videos w) = Some "abc")
  ∧ (r2.1 = inl (ValidationError ["title"])
     ∧ status_received r2 = Some 400 ∧ Videos r2.2 = Videos w).
Proof.
  assert (∀ title, title ≠ "" →
            publishable (H := sampleExternals)
              (publish_by_alice title "0123456789")
              (empty_world two_tmp_files) title "0123456789" "12"
              "/tmp/v.mp4" "/tmp/t.png"
              (mkUpload
                 "https://res.example/$11111111-1111-4111-8111-111111111111"
                 "$11111111-1111-4111-8111-111111111111")
              (mkUpload
                 "https://res.example/$22222222-2222-4222-8222-222222222222"
                 "$22222222-2222-4222-8222-222222222222")
              12%Q alice) as Hpub.
  { intros title Hne. constructor; repeat split;
      try reflexivity; try discriminate; try exact Hne;
      vm_compute; reflexivity. }
  split.
  - destruct (proj1 (publishAVideo_title_boundaries (E := sampleExternals)
                       _ _ _ _ _ _ _ _ _ _ _ (Hpub "abc" ltac:(discriminate)))
                eq_refl eq_refl) as (H1 & H2 & _ & H4).
    split; [exact H1|]. split; [exact H2|].
    rewrite H4. rewrite lookup_insert_eq. reflexivity.
  - destruct (proj2 (publishAVideo_title_boundaries (E := sampleExternals)
                       _ _ _ _ _ _ _ _ _ _ _ (Hpub "ab" ltac:(discriminate)))
                eq_refl) as (_ & _ & H3 & H4).
    split; [vm_compute; reflexivity|]. split; [exact H3 | exact H4].
Defined.

Lemma uploadOnCloudinary_unlinks_and_reports_null_witness :
  let w := empty_world {[ "/tmp/v.mp4" ]} in
  let r := uploadOnCloudinary "/tmp/v.mp4" w in
  "/tmp/v.mp4" ∈ files w
  ∧ ("/tmp/v.mp4" ∉ files r.2)
  ∧ r.1 = inr (Some (mkUpload
            "https://res.example/$11111111-1111-4111-8111-111111111111"
            "$11111111-1111-4111-8111-111111111111")).
Proof.
  split; [vm_compute; reflexivity|].
  apply (uploadOnCloudinary_unlinks_and_reports_null "/tmp/v.mp4"
           (empty_world {[ "/tmp/v.mp4" ]}));
    [discriminate | vm_compute; reflexivity].
Defined.

Lemma uploadOnCloudinary_missing_file_witness :
  let w := busy_world gateway_no_upload in
  let r := uploadOnCloudinary "/tmp/gone.mp4" w in
  ("/tmp/gone.mp4" ∉ files w)
  ∧ cloudinary_upload w "/tmp/gone.mp4" ("$" +:+ uuids w (uuids_taken w))
    = None
  ∧ r.1 = inl (ENOENT "/tmp/gone.mp4")
  ∧ r.1 ≠ inr None
  ∧ files r.2 = files w.
Proof.
  assert ("/tmp/gone.mp4" ∉ files (busy_world gateway_no_upload)) as Hgone
    by (vm_compute; discriminate).
  destruct (uploadOnCloudinary_missing_file "/tmp/gone.mp4"
              (busy_world gateway_no_upload) ltac:(discriminate) Hgone)
    as [H1 H2].
  split; [exact Hgone|]. split; [reflexivity|]. split; [exact H1|].
  split; [|exact H2]. rewrite H1. discriminate.
Defined.

Lemma getUserTweets_empty_is_404_unlike_other_listings_witness :
  let w := busy_world gateway_ok_upload in
  let tweets_of_alice := with_params (Some alice_hex) None None in
  Playlist.owner <$> Playlists w !! playlist_id = Some alice
  ∧ Video.owner <$> Videos w !! video_id = Some alice
  ∧ (serve (getUserTweets (E := sampleExternals)) tweets_of_alice w).1
    = inl (ApiError 404 "No tweets found for this user")
  ∧ res_sent
      (serve (getUserTweets (E := sampleExternals)) tweets_of_alice w).2
    = None
  ∧ fst <$> res_sent
      (serve (getUserPlaylists (E := sampleExternals)) listings_of_carol w).2
    = Some 200
  ∧ fst <$> res_sent
      (serve (getChannelVideos (E := sampleExternals)) listings_of_carol w).2
    = Some 200
  ∧ fst <$> res_sent (serve getLikedVideos listings_of_carol w).2
    = Some 200.
Proof.
  destruct (getUserTweets_empty_is_404_unlike_other_listings
              (E := sampleExternals)) as (T1 & T2 & T3 & T4).
  split; [reflexivity|]. split; [reflexivity|].
  rewrite (T1 (with_params (Some alice_hex) None None)
             (busy_world gateway_ok_upload) alice_hex alice
             eq_refl eq_refl).
  2:{ intros k t H. cbn [Tweets busy_world] in H.
      apply lookup_singleton_Some in H as [_ <-]. discriminate. }
  rewrite (T2 listings_of_carol (busy_world gateway_ok_upload) carol_hex
             carol eq_refl eq_refl).
  2:{ intros k p H. cbn [Playlists busy_world] in H.
      apply lookup_singleton_Some in H as [_ <-]. discriminate. }
  rewrite (T3 listings_of_carol (busy_world gateway_ok_upload) carol_hex
             carol (User.mk "Carol C" "carol" "c.png") eq_refl eq_refl
             eq_refl).
  2:{ intros k v H. cbn [Videos busy_world] in H.
      apply lookup_singleton_Some in H as [_ <-]. discriminate. }
  rewrite (T4 listings_of_carol (busy_world gateway_ok_upload) carol eq_refl).
  2:{ intros k v H. cbn [Videos busy_world] in H.
      apply lookup_singleton_Some in H as [_ <-]. apply not_elem_of_nil. }
  repeat split.
Defined.

Lemma deleteVideo_deletes_thumbnail_as_video_witness :
  let w := sample_world [] ∅ ∅ gateway_ok_destroy in
  gateway_calls
    (deleteVideo (E := sampleExternals) (on_video video_hex alice) w).2
  = [Destroy "abc" RVideo; Destroy "thumb" RVideo].
Proof.
  apply (proj2 (deleteVideo_deletes_thumbnail_as_video (E := sampleExternals))
           (on_video video_hex alice)
           (sample_world [] ∅ ∅ gateway_ok_destroy) video_hex video_id
           (alice_video []) (mkDestroy "ok"));
    try reflexivity; discriminate.
Defined.

(** * Further properties of the handlers *)

(** ** Observations a computation preserves *)

Lemma preserves_ret {A B : Type} (f : World → B) (a : A) :
  preserves f (mret a : M A).
Proof. intros w. reflexivity. Qed.

Lemma preserves_throw {A B : Type} (f : World → B) (e : Exn) :
  preserves f (throw e : M A).
Proof. intros w. reflexivity. Qed.

Lemma preserves_bind {A A' B : Type} (f : World → B) (m : M A)
    (k : A → M A') :
  preserves f m → (∀ a, preserves f (k a)) → preserves f (m ≫= k).
Proof.
  intros Hm Hk w. rewrite run_bind. specialize (Hm w).
  destruct (m w) as [[e|a] w1]; cbn [snd] in *; [exact Hm|].
  rewrite (Hk a w1). exact Hm.
Qed.

Lemma preserves_gets {A B : Type} (f : World → B) (g : World → A) :
  preserves f (gets g).
Proof. intros w. reflexivity. Qed.

Lemma preserves_req_user_id {B : Type} (f : World → B) (req : Request) :
  preserves f (req_user_id req).
Proof.
  unfold req_user_id. destruct (user req);
    [apply preserves_ret | apply preserves_throw].
Qed.

Lemma preserves_store_res_status (c : nat) : preserves store (res_status c).
Proof. intros w. reflexivity. Qed.

Lemma preserves_store_res_json (b : Body) : preserves store (res_json b).
Proof. intros w. unfold res_json. destruct (res_sent w); reflexivity. Qed.

(** ** Sorting newest first *)

Lemma insert_desc_perm {A : Type} (key : A → N) (x : A) (l : list A) :
  insert_desc key x l ≡ₚ x :: l.
Proof.
  induction l as [|y l IH]; cbn [insert_desc]; [reflexivity|].
  destruct (key y <? key x)%N; [reflexivity|].
  rewrite IH. apply Permutation_swap.
Qed.

Lemma sort_desc_perm {A : Type} (key : A → N) (l : list A) :
  sort_desc key l ≡ₚ l.
Proof.
  unfold sort_desc. induction l as [|x l IH]; cbn [foldr]; [reflexivity|].
  rewrite insert_desc_perm. by constructor.
Qed.

Lemma insert_desc_sorted {A : Type} (key : A → N) (x : A) (l : list A) :
  Sorted (newest_first key) l → Sorted (newest_first key) (insert_desc key x l).
Proof.
  induction 1 as [|y l Hl IH Hhd]; cbn [insert_desc].
  - repeat constructor.
  - destruct (N.ltb_spec (key y) (key x)) as [Hlt|Hge].
    + constructor; [by constructor|]. constructor. unfold newest_first. lia.
    + constructor; [exact IH|].
      destruct l as [|z l]; cbn [insert_desc].
      * constructor. exact Hge.
      * destruct (key z <? key x)%N; constructor;
          [exact Hge | by inversion Hhd].
Qed.

Lemma sort_desc_sorted {A : Type} (key : A → N) (l : list A) :
  Sorted (newest_first key) (sort_desc key l).
Proof.
  unfold sort_desc. induction l as [|x l IH]; cbn [foldr]; [constructor|].
  by apply insert_desc_sorted.
Qed.

Lemma sort_desc_nil_inv {A : Type} (key : A → N) (l : list A) :
  sort_desc key l = [] → l = [].
Proof.
  intros H. apply Permutation_nil. rewrite <- H. apply sort_desc_perm.
Qed.

Lemma length_zero_eqb {A : Type} (l : list A) :
  l ≠ [] → Nat.eqb (length l) 0 = false.
Proof. destruct l; [done | reflexivity]. Qed.

(** ** What a toggle leaves alone *)

Lemma toggled_array_others (u x : ObjectId) (l : list ObjectId) :
  x ≠ u → occurrences x (toggled_array u l) = occurrences x l.
Proof.
  intros Hne. unfold occurrences, toggled_array.
  case_bool_decide as Hin; [clear Hin|].
  - induction l as [|y l IH]; [reflexivity|]. cbn [List.filter].
    destruct (N.eqb_spec y u) as [->|Hy]; cbn [negb].
    + destruct (N.eqb_spec x u); [done | exact IH].
    + cbn [List.filter]. destruct (N.eqb x y); cbn [length]; by rewrite IH.
  - rewrite List.filter_app, length_app. cbn [List.filter].
    destruct (N.eqb_spec x u); [done|]. cbn [length]. lia.
Qed.

Lemma toggled_documents_others (u i : ObjectId) (l : list ObjectId) (t : N)
    (m : gmap ObjectId Like.t) (k : ObjectId) (d : Like.t) :
  ¬ (Like.likedBy d = u ∧ Like.video d = Some i) →
  toggled_documents u i l t m !! k = Some d ↔ m !! k = Some d.
Proof.
  intros Hother. unfold toggled_documents. case_bool_decide.
  - destruct (matching _ m) as [|[k' d'] rest] eqn:Hm; [reflexivity|].
    apply matching_first in Hm as [Hk' HP].
    apply andb_true_iff in HP as [HP1 HP2].
    apply N.eqb_eq in HP1. apply bool_decide_eq_true_1 in HP2.
    destruct (decide (k' = k)) as [->|Hne].
    + rewrite lookup_delete_eq. split; [done|].
      intros Hk. rewrite Hk in Hk'. injection Hk' as ->. tauto.
    + by rewrite lookup_delete_ne.
  - destruct (decide (newObjectId m = k)) as [<-|Hne].
    + rewrite lookup_insert_eq, newObjectId_fresh. split; [|done].
      intros [= <-]. cbn [Like.likedBy Like.video] in Hother. tauto.
    + by rewrite lookup_insert_ne.
Qed.

Section MoreProperties.
Context {E : Externals}.

Lemma truthy_Some_inv (s : string) : truthy (Some s) = true → s ≠ "".
Proof.
  unfold truthy. destruct (String.eqb_spec s ""); simpl; congruence.
Qed.

Lemma isValid_None_cast (s : string) :
  castObjectId s = None → isValid (Some s) = false.
Proof. intros H. unfold isValid. rewrite H. reflexivity. Qed.

Lemma isValid_true_cast (x : option string) :
  isValid x = true → ∃ s i, x = Some s ∧ castObjectId s = Some i.
Proof.
  unfold isValid. destruct x as [s|]; [|discriminate].
  destruct (castObjectId s) as [i|] eqn:H; [|discriminate]. eauto.
Qed.

Lemma preserves_toObjectId {B : Type} (f : World → B) (path : string)
    (x : option string) :
  preserves f (toObjectId path x).
Proof.
  unfold toObjectId. destruct (x ≫= castObjectId);
    [apply preserves_ret | apply preserves_throw].
Qed.

Lemma preserves_findById {A B : Type} (f : World → B)
    (coll : World → gmap ObjectId A) (x : option string) :
  preserves f (findById coll x).
Proof.
  unfold findById. apply preserves_bind; [apply preserves_toObjectId|].
  intros i. apply preserves_bind; [apply preserves_gets|].
  intros d. apply preserves_ret.
Qed.

Lemma preserves_find {A B : Type} (f : World → B)
    (coll : World → gmap ObjectId A) (P : A → bool) :
  preserves f (find coll P).
Proof. apply preserves_gets. Qed.


(** ** The listings read and never write *)

Lemma preserves_store_send (c : nat) (b : Body) :
  preserves store (res_status c;; res_json b).
Proof.
  apply preserves_bind; [apply preserves_store_res_status|].
  intros _. apply preserves_store_res_json.
Qed.

Lemma getUserTweets_preserves_store (req : Request) :
  preserves store (getUserTweets req).
Proof.
  unfold getUserTweets. destruct (negb _); [apply preserves_throw|].
  apply preserves_bind; [apply preserves_toObjectId|]. intros o.
  apply preserves_bind; [apply preserves_find|]. intros found.
  destruct (Nat.eqb _ _); [apply preserves_throw | apply preserves_store_send].
Qed.

Lemma getUserPlaylists_preserves_store (req : Request) :
  preserves store (getUserPlaylists req).
Proof.
  unfold getUserPlaylists. destruct (negb _); [apply preserves_throw|].
  apply preserves_bind; [apply preserves_toObjectId|]. intros o.
  apply preserves_bind; [apply preserves_find|]. intros found.
  destruct (Nat.eqb _ _); apply preserves_store_send.
Qed.

Lemma getChannelVideos_preserves_store (req : Request) :
  preserves store (getChannelVideos req).
Proof.
  unfold getChannelVideos. destruct (negb _); [apply preserves_throw|].
  apply preserves_bind; [apply preserves_findById|].
  intros [[c ch]|]; [|apply preserves_throw].
  apply preserves_bind; [apply preserves_find|]. intros found.
  destruct (Nat.eqb _ _); apply preserves_store_send.
Qed.

Lemma getLikedVideos_preserves_store (req : Request) :
  preserves store (getLikedVideos req).
Proof.
  unfold getLikedVideos.
  apply preserves_bind; [apply preserves_req_user_id|]. intros u.
  apply preserves_bind; [apply preserves_find|]. intros found.
  apply preserves_bind; [apply preserves_gets|]. intros users.
  destruct (Nat.eqb _ _); apply preserves_store_send.
Qed.

Lemma getAllVideos_preserves_store (req : Request) :
  preserves store (getAllVideos req).
Proof.
  unfold getAllVideos.
  apply preserves_bind.
  { unfold listingPipeline. apply preserves_bind; [|intros; apply preserves_ret].
    destruct (truthy (query_userId req)); [|apply preserves_ret].
    destruct (negb _); [apply preserves_throw|].
    apply preserves_bind; [apply preserves_toObjectId|].
    intros; apply preserves_ret. }
  intros pipeline. apply preserves_bind.
  { intros w. reflexivity. }
  intros videos. apply preserves_bind; [|intros; apply preserves_store_send].
  destruct (match videos with Some _ => _ | None => _ end);
    [apply preserves_store_send | apply preserves_ret].
Qed.

(** X1. The five listing handlers only read: whatever the request and
    whatever its outcome, the collections, the temporary files and the
    log of gateway calls are afterwards what they were before. *)
Theorem listings_leave_the_store_alone (req : Request) (w : World) :
  store (getAllVideos req w).2 = store w
  ∧ store (getUserTweets req w).2 = store w
  ∧ store (getUserPlaylists req w).2 = store w
  ∧ store (getChannelVideos req w).2 = store w
  ∧ store (getLikedVideos req w).2 = store w.
Proof.
  repeat split.
  - apply getAllVideos_preserves_store.
  - apply getUserTweets_preserves_store.
  - apply getUserPlaylists_preserves_store.
  - apply getChannelVideos_preserves_store.
  - apply getLikedVideos_preserves_store.
Qed.

(** ** Malformed and dangling identifiers *)

(** X2. A route parameter that is missing or is not an ObjectId is
    refused with status 400 by every handler that takes one, before any
    read: the world is left as it was, whoever asks. *)
Theorem malformed_id_is_refused_with_400 (req : Request) (w : World) :
  isValid (params_videoId req) = false →
  isValid (params_commentId req) = false →
  isValid (params_tweetId req) = false →
  isValid (params_userId req) = false →
  isValid (params_channelId req) = false →
  Forall (λ handler, refuses 400 handler req w)
    [updateVideo; deleteVideo; togglePublishStatus; toggleVideoLike;
     updateComment; deleteComment; deleteTweet; getUserTweets;
     getUserPlaylists; toggleSubscription; getChannelVideos].
Proof.
  intros Hv Hc Ht Hu Hch.
  repeat constructor; unfold refuses.
  - unfold updateVideo. rewrite Hv.
    destruct (negb (truthy _)); eexists; reflexivity.
  - unfold deleteVideo. rewrite Hv.
    destruct (negb (truthy _)); eexists; reflexivity.
  - unfold togglePublishStatus. rewrite Hv.
    destruct (negb (truthy _)); eexists; reflexivity.
  - unfold toggleVideoLike. rewrite Hv. eexists; reflexivity.
  - unfold updateComment. rewrite Hc, orb_true_r. eexists; reflexivity.
  - unfold deleteComment. rewrite Hc. eexists; reflexivity.
  - unfold deleteTweet. rewrite Ht. eexists; reflexivity.
  - unfold getUserTweets. rewrite Hu. eexists; reflexivity.
  - unfold getUserPlaylists. rewrite Hu. eexists; reflexivity.
  - unfold toggleSubscription. rewrite Hch. eexists; reflexivity.
  - unfold getChannelVideos. rewrite Hch. eexists; reflexivity.
Qed.

(** X3. A well-formed identifier that names no document is refused with
    status 404 by every handler that loads one, before the requester is
    looked at: the world is left as it was. *)
Theorem dangling_id_is_refused_with_404 (w : World) (s content : string)
    (i : ObjectId) (userId : option ObjectId) :
  s ≠ "" → content ≠ "" →
  castObjectId s = Some i →
  Videos w !! i = None → Comments w !! i = None →
  Tweets w !! i = None → Users w !! i = None →
  Forall (λ handler,
            refuses 404 handler (with_params (Some s) (Some content) userId) w)
    [updateVideo; deleteVideo; togglePublishStatus; toggleVideoLike;
     updateComment; deleteComment; deleteTweet; toggleSubscription;
     getChannelVideos].
Proof.
  intros Hs Hcontent Hc Hv Hcm Ht Hu.
  pose proof (truthy_Some s Hs) as Htr.
  pose proof (truthy_Some content Hcontent) as Htc.
  pose proof (isValid_Some s i Hc) as Hval.
  repeat constructor; unfold refuses.
  - unfold updateVideo. cbn [params_videoId with_params]. rewrite Htr, Hval.
    cbn [negb].
    rewrite (run_bind_ok _ _ _ _ _ (findById_missing Videos s i w Hc Hv)).
    eexists; reflexivity.
  - unfold deleteVideo. cbn [params_videoId with_params]. rewrite Htr, Hval.
    cbn [negb].
    rewrite (run_bind_ok _ _ _ _ _ (findById_missing Videos s i w Hc Hv)).
    eexists; reflexivity.
  - unfold togglePublishStatus. cbn [params_videoId with_params].
    rewrite Htr, Hval. cbn [negb].
    rewrite (run_bind_ok _ _ _ _ _ (findById_missing Videos s i w Hc Hv)).
    eexists; reflexivity.
  - unfold toggleVideoLike. cbn [params_videoId with_params].
    rewrite Hval. cbn [negb].
    rewrite (run_bind_ok _ _ _ _ _ (findById_missing Videos s i w Hc Hv)).
    eexists; reflexivity.
  - unfold updateComment. cbn [params_commentId body_content with_params].
    rewrite Htc, Hval. cbn [negb orb].
    rewrite (run_bind_ok _ _ _ _ _ (findById_missing Comments s i w Hc Hcm)).
    eexists; reflexivity.
  - unfold deleteComment. cbn [params_commentId with_params].
    rewrite Hval. cbn [negb].
    rewrite (run_bind_ok _ _ _ _ _ (findById_missing Comments s i w Hc Hcm)).
    eexists; reflexivity.
  - unfold deleteTweet. cbn [params_tweetId with_params].
    rewrite Hval. cbn [negb].
    rewrite (run_bind_ok _ _ _ _ _ (findById_missing Tweets s i w Hc Ht)).
    eexists; reflexivity.
  - unfold toggleSubscription. cbn [params_channelId with_params].
    rewrite Hval. cbn [negb].
    rewrite (run_bind_ok _ _ _ _ _ (findById_missing Users s i w Hc Hu)).
    eexists; reflexivity.
  - unfold getChannelVideos. cbn [params_channelId with_params].
    rewrite Hval. cbn [negb].
    rewrite (run_bind_ok _ _ _ _ _ (findById_missing Users s i w Hc Hu)).
    eexists; reflexivity.
Qed.


(** ** Deleting a video *)

Lemma deleteVideo_by_owner_run (req : Request) (w : World) (s : string)
    (i : ObjectId) (v : Video.t) (dv dt : DestroyResponse) :
  params_videoId req = Some s → s ≠ "" → castObjectId s = Some i →
  Videos w !! i = Some v → user req = Some (Video.owner v) →
  Video.videoPublicId v ≠ "" → Video.thumbnailPublicId v ≠ "" →
  cloudinary_destroy w (Video.videoPublicId v) RVideo = Some dv →
  cloudinary_destroy w (Video.thumbnailPublicId v) RVideo = Some dt →
  res_sent w = None →
  deleteVideo req w
  = (inr tt,
     set_res_sent
       (Some (200, JApiResponse
                     (mkApiResponse 200 DEmptyObject
                        "Video deleted successfully")))
       (set_res_statusCode 200
          (set_Videos (delete i (Videos w))
             (set_gateway_calls
                (gateway_calls w
                 ++ [Destroy (Video.videoPublicId v) RVideo;
                     Destroy (Video.thumbnailPublicId v) RVideo])%list
                w)))).
Proof.
  intros Hp Hs Hc Hv Hu Hpid Htid Hdv Hdt Hres.
  unfold deleteVideo. rewrite Hp, (truthy_Some s Hs), (isValid_Some s i Hc).
  cbn [negb].
  rewrite (run_bind_ok _ _ _ _ _ (findById_found Videos s i v w Hc Hv)).
  cbv beta iota.
  rewrite (run_bind_ok _ _ _ _ _ (req_user_id_run _ _ _ Hu)).
  rewrite bool_decide_eq_true_2 by done. cbn [negb].
  rewrite (truthy_Some _ Hpid), (truthy_Some _ Htid).
  rewrite run_bind. rewrite run_bind.
  rewrite (deleteFromCloudinary_run _ _ Hpid), Hdv.
  cbv beta iota. rewrite run_ret.
  rewrite run_bind. rewrite run_bind.
  rewrite (deleteFromCloudinary_run _ _ Htid).
  cbn [cloudinary_destroy gateway_calls set_gateway_calls]. rewrite Hdt.
  cbv beta iota. rewrite run_ret.
  rewrite (run_bind_ok _ _ _ _ _ (findByIdAndDelete_run _ _ _ _ _ Hc)).
  rewrite run_bind. unfold res_status, modify. cbv beta iota.
  unfold res_json. cbn [res_sent set_res_statusCode set_Videos
    set_gateway_calls]. rewrite Hres.
  rewrite <- app_assoc. reflexivity.
Qed.

(** X4. When the owner deletes a video and the gateway deletes both
    assets, [deleteVideo] answers 200 with an empty object and removes
    exactly that document: the video is no longer found, the other videos
    stay, and the comments and Like documents that refer to the video are
    left in their collections. *)
Theorem deleteVideo_by_owner_removes_the_video (req : Request) (w : World)
    (s : string) (i : ObjectId) (v : Video.t) (dv dt : DestroyResponse) :
  params_videoId req = Some s → s ≠ "" → castObjectId s = Some i →
  Videos w !! i = Some v → user req = Some (Video.owner v) →
  Video.videoPublicId v ≠ "" → Video.thumbnailPublicId v ≠ "" →
  cloudinary_destroy w (Video.videoPublicId v) RVideo = Some dv →
  cloudinary_destroy w (Video.thumbnailPublicId v) RVideo = Some dt →
  let r := serve deleteVideo req w in
  r.1 = inr tt
  ∧ res_sent r.2
    = Some (200, JApiResponse
                   (mkApiResponse 200 DEmptyObject
                      "Video deleted successfully"))
  ∧ Videos r.2 = delete i (Videos w)
  ∧ (findById Videos (Some s) r.2).1 = inr None
  ∧ Comments r.2 = Comments w
  ∧ Likes r.2 = Likes w.
Proof.
  intros Hp Hs Hc Hv Hu Hpid Htid Hdv Hdt. cbv zeta. unfold serve.
  rewrite (deleteVideo_by_owner_run req (new_response w) s i v dv dt)
    by (assumption || reflexivity).
  cbn [fst snd]. repeat split.
  rewrite (findById_run Videos s i _ Hc).
  cbn [fst Videos set_res_sent set_res_statusCode set_Videos].
  by rewrite lookup_delete_eq.
Qed.

(** X5. A [deleteVideo] request that ends in an exception has deleted
    nothing: whatever the request, if serving it throws, the Videos
    collection is what it was. *)
Theorem deleteVideo_throws_without_deleting (req : Request) (w : World)
    (e : Exn) :
  (serve deleteVideo req w).1 = inl e →
  Videos (serve deleteVideo req w).2 = Videos w.
Proof.
  unfold serve, deleteVideo.
  destruct (negb (truthy _)); [reflexivity|].
  destruct (isValid (params_videoId req)) eqn:Hval; [|reflexivity].
  destruct (isValid_true_cast _ Hval) as (s & i & -> & Hc). cbn [negb].
  rewrite (run_bind_ok _ _ _ _ _ (findById_run Videos s i _ Hc)).
  destruct (Videos (new_response w) !! i) as [v|]; [|reflexivity].
  cbn [fmap option_fmap option_map]. cbv beta iota.
  rewrite run_bind. unfold req_user_id.
  destruct (user req) as [u|]; [|reflexivity]. rewrite run_ret.
  destruct (negb (bool_decide _)); [reflexivity|].
  assert (∀ p (k : unit → M unit) (msg : string) w0,
            res_sent w0 = None → Videos w0 = Videos w →
            (∀ w1, res_sent w1 = None → Videos w1 = Videos w →
                   (k tt w1).1 = inl e → Videos (k tt w1).2 = Videos w) →
            (((if truthy (Some p)
               then r ← deleteFromCloudinary p;
                    match r with
                    | Some _ => mret tt
                    | None => throw (ApiError 500 msg)
                    end
               else mret tt) ≫= k) w0).1 = inl e →
            Videos (((if truthy (Some p)
                      then r ← deleteFromCloudinary p;
                           match r with
                           | Some _ => mret tt
                           | None => throw (ApiError 500 msg)
                           end
                      else mret tt) ≫= k) w0).2 = Videos w) as Hstep.
  { intros p k msg w0 Hr0 Hv0 Hk.
    destruct (truthy (Some p)) eqn:Htr.
    - apply truthy_Some_inv in Htr.
      rewrite run_bind. rewrite run_bind.
      rewrite (deleteFromCloudinary_run _ _ Htr).
      destruct (cloudinary_destroy w0 p RVideo); cbv beta iota.
      + rewrite run_ret. apply Hk; [exact Hr0 | exact Hv0].
      + intros _. exact Hv0.
    - rewrite run_bind, run_ret. apply Hk; [exact Hr0 | exact Hv0]. }
  apply Hstep; [reflexivity | reflexivity |].
  intros w1 Hr1 Hv1. apply Hstep; [assumption | assumption |].
  intros w2 Hr2 Hv2.
  rewrite (run_bind_ok _ _ _ _ _ (findByIdAndDelete_run _ _ _ _ _ Hc)).
  rewrite run_bind. unfold res_status, modify. cbv beta iota.
  unfold res_json. cbn [res_sent set_res_statusCode set_Videos]. rewrite Hr2.
  discriminate.
Qed.


(** ** Who may change what *)

(** X6. Deleting a video and toggling its publish status are the owner's
    alone: any other authenticated requester is refused with status 403 and
    the world is left as it was. *)
Theorem video_owner_only (req : Request) (w : World) (s : string)
    (i u : ObjectId) (v : Video.t) :
  params_videoId req = Some s → s ≠ "" → castObjectId s = Some i →
  Videos w !! i = Some v → user req = Some u → u ≠ Video.owner v →
  refuses 403 deleteVideo req w ∧ refuses 403 togglePublishStatus req w.
Proof.
  intros Hp Hs Hc Hv Hu Hne. split; eexists.
  - by apply (deleteVideo_not_owner req w s i u v).
  - by apply (togglePublishStatus_not_owner req w s i u v).
Qed.

(** X7. Editing and deleting a comment are the owner's alone: any other
    authenticated requester is refused with status 403 and the world is
    left as it was. *)
Theorem comment_owner_only (req : Request) (w : World) (s text : string)
    (i u : ObjectId) (c : Comment.t) :
  params_commentId req = Some s → castObjectId s = Some i →
  body_content req = Some text → text ≠ "" →
  Comments w !! i = Some c → user req = Some u → u ≠ Comment.owner c →
  refuses 403 updateComment req w ∧ refuses 403 deleteComment req w.
Proof.
  intros Hp Hc Hb Ht Hcm Hu Hne. split; eexists.
  - by apply (updateComment_not_owner req w s text i u c).
  - by apply (deleteComment_not_owner req w s i u c).
Qed.

(** ** Publishing and unpublishing *)

Lemma togglePublishStatus_by_owner_run (req : Request) (w : World)
    (s : string) (i : ObjectId) (v : Video.t) :
  params_videoId req = Some s → s ≠ "" → castObjectId s = Some i →
  Videos w !! i = Some v → user req = Some (Video.owner v) →
  res_sent w = None →
  let v' := Video.set_updatedAt (now w)
              (Video.set_isPublished (negb (Video.isPublished v)) v) in
  ∃ message,
    togglePublishStatus req w
    = (inr tt,
       set_res_sent
         (Some (200, JApiResponse
                       (mkApiResponse 200 (DVideoField i v') message)))
         (set_res_statusCode 200 (set_Videos (<[i := v']> (Videos w)) w))).
Proof.
  intros Hp Hs Hc Hv Hu Hres. cbv zeta. unfold togglePublishStatus.
  rewrite Hp, (truthy_Some s Hs), (isValid_Some s i Hc). cbn [negb].
  rewrite (run_bind_ok _ _ _ _ _ (findById_found Videos s i v w Hc Hv)).
  cbv beta iota.
  rewrite (run_bind_ok _ _ _ _ _ (req_user_id_run _ _ _ Hu)).
  rewrite bool_decide_eq_true_2 by done. cbn [negb].
  rewrite run_bind. unfold Video_save.
  rewrite decide_False.
  2:{ intros Heq. apply (f_equal Video.isPublished) in Heq.
      cbn [Video.isPublished Video.set_isPublished] in Heq.
      by destruct (Video.isPublished v). }
  unfold invalid_modified_paths.
  cbn [Video.thumbnail Video.title Video.description Video.set_isPublished].
  rewrite !bool_decide_eq_true_2 by done. cbn [orb failing app].
  rewrite Hv. rewrite run_bind. unfold res_status, modify, res_json.
  cbn [res_sent set_res_statusCode set_Videos]. rewrite Hres.
  eexists. reflexivity.
Qed.

(** X8. When the owner toggles the publish status, the stored flag is
    flipped and nothing else of the video changes but [updatedAt]; a second
    toggle flips it back, so that after two toggles the document is the
    original one with a new [updatedAt]. *)
Theorem togglePublishStatus_twice_restores (req : Request) (w : World)
    (s : string) (i : ObjectId) (v : Video.t) :
  params_videoId req = Some s → s ≠ "" → castObjectId s = Some i →
  Videos w !! i = Some v → user req = Some (Video.owner v) →
  let r1 := serve togglePublishStatus req w in
  let r2 := serve togglePublishStatus req r1.2 in
  r1.1 = inr tt ∧ r2.1 = inr tt
  ∧ Videos r1.2
    = <[i := Video.set_updatedAt (now w)
               (Video.set_isPublished (negb (Video.isPublished v)) v)]>
        (Videos w)
  ∧ Videos r2.2 = <[i := Video.set_updatedAt (now w) v]> (Videos w).
Proof.
  intros Hp Hs Hc Hv Hu. cbv zeta. unfold serve.
  destruct (togglePublishStatus_by_owner_run req (new_response w) s i v
              Hp Hs Hc Hv Hu eq_refl) as [m1 ->].
  cbn [fst snd].
  match goal with
  | |- context [togglePublishStatus req (new_response ?W)] => set (w1 := W)
  end.
  set (v1 := Video.set_updatedAt (now w)
               (Video.set_isPublished (negb (Video.isPublished v)) v)).
  assert (Videos (new_response w1) !! i = Some v1) as Hv1
    by apply lookup_insert_eq.
  destruct (togglePublishStatus_by_owner_run req (new_response w1) s i v1
              Hp Hs Hc Hv1 Hu eq_refl) as [m2 ->].
  cbn [fst snd Videos w1 new_response set_res_sent set_res_statusCode
    set_Videos now].
  split; [reflexivity|]. split; [reflexivity|]. split; [reflexivity|].
  rewrite insert_insert_eq. f_equal.
  destruct v; cbn. by rewrite negb_involutive.
Qed.


(** ** Updating a video *)

(** X9. [updateVideo] ignores a title and a description that are absent
    or blank: with no file either, nothing is written, not even
    [updatedAt], and the answer is 200 with the document as it is,
    whoever asks. *)
Theorem updateVideo_blank_fields_change_nothing (req : Request) (w : World)
    (s : string) (i : ObjectId) (v : Video.t) :
  params_videoId req = Some s → s ≠ "" → castObjectId s = Some i →
  Videos w !! i = Some v →
  truthy (trim <$> body_title req) = false →
  truthy (trim <$> body_description req) = false →
  file req = None →
  let r := serve updateVideo req w in
  r.1 = inr tt
  ∧ res_sent r.2
    = Some (200, JApiResponse
                   (mkApiResponse 200 (DVideo i v)
                      "Video updated successfully"))
  ∧ store r.2 = store w.
Proof.
  intros Hp Hs Hc Hv Ht Hd Hf. cbv zeta. unfold serve, updateVideo.
  rewrite Hp, (truthy_Some s Hs), (isValid_Some s i Hc). cbn [negb].
  rewrite (run_bind_ok _ _ _ _ _
             (findById_found Videos s i v (new_response w) Hc Hv)).
  cbv beta iota. rewrite Ht, Hd, Hf.
  rewrite run_bind, run_ret. unfold Video_save.
  rewrite decide_True by done.
  rewrite run_bind, run_ret. rewrite run_bind. repeat split.
Qed.

(** X10. A new title that, once trimmed, is shorter than 3 or longer
    than 100 characters is rejected by [video.save()]: [updateVideo]
    throws the validation error on [title], sends nothing and leaves the
    document as it was. *)
Theorem updateVideo_rejects_title_out_of_bounds (req : Request) (w : World)
    (s newTitle : string) (i : ObjectId) (v : Video.t) :
  params_videoId req = Some s → s ≠ "" → castObjectId s = Some i →
  Videos w !! i = Some v →
  body_title req = Some newTitle → trim newTitle ≠ "" →
  trim newTitle ≠ Video.title v →
  (String.length (trim newTitle) < 3 ∨ 100 < String.length (trim newTitle)) →
  truthy (trim <$> body_description req) = false →
  file req = None →
  let r := serve updateVideo req w in
  r.1 = inl (ValidationError ["title"])
  ∧ res_sent r.2 = None
  ∧ store r.2 = store w.
Proof.
  intros Hp Hs Hc Hv Ht Htrim Hdiff Hlen Hd Hf. cbv zeta.
  unfold serve, updateVideo.
  rewrite Hp, (truthy_Some s Hs), (isValid_Some s i Hc). cbn [negb].
  rewrite (run_bind_ok _ _ _ _ _
             (findById_found Videos s i v (new_response w) Hc Hv)).
  cbv beta iota. rewrite Ht, Hd, Hf.
  cbn [fmap option_fmap option_map default from_option id].
  rewrite (truthy_Some _ Htrim).
  rewrite run_bind, run_ret. unfold Video_save.
  rewrite decide_False.
  2:{ intros Heq. apply Hdiff.
      apply (f_equal Video.title) in Heq. symmetry. exact Heq. }
  unfold invalid_modified_paths. cbn [Video.thumbnail Video.title
    Video.description Video.set_title].
  rewrite (bool_decide_eq_true_2 (Video.thumbnail v = _)) by done.
  rewrite (bool_decide_eq_true_2 (Video.description v = _)) by done.
  rewrite (bool_decide_eq_false_2 (Video.title v = _)) by congruence.
  assert (valid_title (trim newTitle) = false) as ->.
  { unfold valid_title. apply andb_false_iff.
    destruct Hlen; [left | right]; apply Nat.leb_gt; lia. }
  repeat split.
Qed.

(** X11. When a new thumbnail is sent and the gateway rejects the upload,
    [updateVideo] throws the 400 error and saves nothing, so that a new
    title sent with it is lost; the temporary file is removed. *)
Theorem updateVideo_failed_thumbnail_saves_nothing (req : Request)
    (w : World) (s path : string) (i : ObjectId) (v : Video.t) :
  params_videoId req = Some s → s ≠ "" → castObjectId s = Some i →
  Videos w !! i = Some v →
  file req = Some path → path ≠ "" → path ∈ files w →
  cloudinary_upload w path ("$" +:+ uuids w (uuids_taken w)) = None →
  let r := serve updateVideo req w in
  r.1 = inl (ApiError 400 "Failed to upload thumbnail")
  ∧ res_sent r.2 = None
  ∧ Videos r.2 = Videos w
  ∧ files r.2 = files w ∖ {[path]}.
Proof.
  intros Hp Hs Hc Hv Hf Hpath Hin Hup. cbv zeta. unfold serve, updateVideo.
  rewrite Hp, (truthy_Some s Hs), (isValid_Some s i Hc). cbn [negb].
  rewrite (run_bind_ok _ _ _ _ _
             (findById_found Videos s i v (new_response w) Hc Hv)).
  cbv beta iota. rewrite Hf.
  rewrite run_bind. rewrite run_bind.
  rewrite (uploadOnCloudinary_run path (new_response w) Hpath Hin).
  cbn [cloudinary_upload uuids uuids_taken new_response set_res_sent
    set_res_statusCode]. rewrite Hup. repeat split.
Qed.


(** ** Publishing a video *)

(** X12. A publish request that lacks the title, the description, the
    duration, the video file or the thumbnail file is refused with status
    400 before anything is done: nothing is uploaded and the temporary
    files that did arrive stay where they are. *)
Theorem publishAVideo_incomplete_is_refused (req : Request) (w : World) :
  truthy (body_title req) && truthy (body_description req)
  && truthy (body_duration req) && truthy (files_videoFile req)
  && truthy (files_thumbnail req) = false →
  refuses 400 publishAVideo req w.
Proof.
  intros H. unfold refuses, publishAVideo.
  destruct (truthy (body_title req)); [|eexists; reflexivity].
  destruct (truthy (body_description req)); [|eexists; reflexivity].
  destruct (truthy (body_duration req)); [|eexists; reflexivity].
  destruct (truthy (files_videoFile req)); [|eexists; reflexivity].
  destruct (truthy (files_thumbnail req)); [discriminate|].
  eexists; reflexivity.
Qed.

(** X13. When either upload of a publish request is rejected by the
    gateway, the handler still attempts both uploads, removes both
    temporary files, throws the 500 error and stores no video. *)
Theorem publishAVideo_failed_upload_stores_nothing (req : Request)
    (w : World) (videoPath thumbnailPath : string) :
  truthy (body_title req) = true → truthy (body_description req) = true →
  truthy (body_duration req) = true →
  files_videoFile req = Some videoPath → videoPath ≠ "" →
  files_thumbnail req = Some thumbnailPath → thumbnailPath ≠ "" →
  videoPath ∈ files w → thumbnailPath ∈ files w →
  videoPath ≠ thumbnailPath →
  cloudinary_upload w videoPath ("$" +:+ uuids w (uuids_taken w)) = None
  ∨ cloudinary_upload w thumbnailPath
      ("$" +:+ uuids w (S (uuids_taken w))) = None →
  let r := serve publishAVideo req w in
  r.1 = inl (ApiError 500 "Error uploading files to Cloudinary")
  ∧ res_sent r.2 = None
  ∧ Videos r.2 = Videos w
  ∧ files r.2 = files w ∖ {[videoPath]} ∖ {[thumbnailPath]}
  ∧ gateway_calls r.2
    = (gateway_calls w
       ++ [Upload videoPath ("$" +:+ uuids w (uuids_taken w)) RAuto;
           Upload thumbnailPath ("$" +:+ uuids w (S (uuids_taken w)))
             RAuto])%list.
Proof.
  intros Ht Hd Hdu Hvf Hvne Htf Htne Hvin Htin Hdiff Hfail. cbv zeta.
  unfold serve, publishAVideo. rewrite Ht, Hd, Hdu, Hvf, Htf.
  rewrite (truthy_Some _ Hvne), (truthy_Some _ Htne).
  cbn [negb orb default from_option id].
  rewrite (run_bind_ok _ _ _ _ _
             (uploadOnCloudinary_run _ (new_response w) Hvne Hvin)).
  match goal with |- context [mbind _ _ ?W] => set (w1 := W) end.
  assert (thumbnailPath ∈ files w1) as Htin1.
  { cbn [files w1 set_files]. apply elem_of_difference.
    split; [exact Htin|]. rewrite elem_of_singleton. congruence. }
  rewrite (run_bind_ok _ _ _ _ _
             (uploadOnCloudinary_run _ w1 Htne Htin1)).
  cbn [w1 cloudinary_upload uuids uuids_taken set_files set_gateway_calls
    set_uuids_taken new_response set_res_sent set_res_statusCode
    gateway_calls files].
  assert (∀ a b : option UploadApiResponse, a = None ∨ b = None →
            ∀ (k : UploadApiResponse → UploadApiResponse → M unit) w0,
              match a, b with
              | Some x, Some y => k x y
              | _, _ => throw (ApiError 500
                                 "Error uploading files to Cloudinary")
              end w0
              = (inl (ApiError 500 "Error uploading files to Cloudinary"),
                 w0)) as Hmatch.
  { intros [a|] [b|] [H|H] k w0; (discriminate || reflexivity). }
  rewrite (Hmatch _ _ Hfail). cbn [fst snd Videos files gateway_calls res_sent].
  rewrite <- app_assoc. repeat split.
Qed.


(** ** Comments and tweets of their owner *)

(** X14. When its owner edits a comment with new content, the stored
    comment gets that content and a new [updatedAt] and nothing else
    changes; the answer is 200 with the comment saved. *)
Theorem updateComment_by_owner_replaces_content (req : Request) (w : World)
    (s text : string) (i : ObjectId) (c : Comment.t) :
  params_commentId req = Some s → castObjectId s = Some i →
  body_content req = Some text → text ≠ "" → text ≠ Comment.content c →
  Comments w !! i = Some c → user req = Some (Comment.owner c) →
  let c' := Comment.set_updatedAt (now w) (Comment.set_content text c) in
  let r := serve updateComment req w in
  r.1 = inr tt
  ∧ res_sent r.2
    = Some (200, JApiResponse
                   (mkApiResponse 200 (DComment i c')
                      "Comment updated successfully"))
  ∧ Comments r.2 = <[i := c']> (Comments w)
  ∧ Videos r.2 = Videos w.
Proof.
  intros Hp Hc Hb Ht Hdiff Hcm Hu. cbv zeta. unfold serve, updateComment.
  rewrite Hp, Hb, (truthy_Some _ Ht), (isValid_Some s i Hc). cbn [negb orb].
  rewrite (run_bind_ok _ _ _ _ _
             (findById_found Comments s i c (new_response w) Hc Hcm)).
  cbv beta iota.
  rewrite (run_bind_ok _ _ _ _ _ (req_user_id_run _ _ _ Hu)).
  rewrite bool_decide_eq_true_2 by done. cbn [negb default from_option id].
  rewrite run_bind. unfold Comment_save.
  rewrite decide_False.
  2:{ intros Heq. apply Hdiff. apply (f_equal Comment.content) in Heq.
      symmetry. exact Heq. }
  cbn [Comments new_response set_res_sent set_res_statusCode].
  rewrite Hcm. rewrite run_bind. repeat split.
Qed.

Lemma deleteComment_by_owner_run (req : Request) (w : World)
    (s : string) (i : ObjectId) (c : Comment.t) :
  params_commentId req = Some s → castObjectId s = Some i →
  Comments w !! i = Some c → user req = Some (Comment.owner c) →
  let r := serve deleteComment req w in
  r.1 = inr tt
  ∧ res_sent r.2
    = Some (200, JApiResponse
                   (mkApiResponse 200 DEmptyObject
                      "Comment deleted successfully"))
  ∧ Comments r.2 = delete i (Comments w)
  ∧ Videos r.2
    = alter (λ v, Video.set_updatedAt (now w)
                    (Video.set_comments
                       (List.filter (λ x, negb (N.eqb x i))
                          (Video.comments v)) v))
        (Comment.video c) (Videos w).
Proof.
  intros Hp Hc Hcm Hu. cbv zeta. unfold serve, deleteComment.
  rewrite Hp, (isValid_Some s i Hc). cbn [negb].
  rewrite (run_bind_ok _ _ _ _ _
             (findById_found Comments s i c (new_response w) Hc Hcm)).
  cbv beta iota.
  rewrite (run_bind_ok _ _ _ _ _ (req_user_id_run _ _ _ Hu)).
  rewrite bool_decide_eq_true_2 by done. cbn [negb].
  rewrite (run_bind_ok _ _ _ _ _ (findByIdAndDelete_run _ _ _ _ _ Hc)).
  rewrite (run_bind_ok _ _ _ _ _ (toObjectId_run _ _ _ _ Hc)).
  rewrite run_bind. unfold modify. cbv beta iota.
  rewrite run_bind. unfold res_status, modify, res_json.
  cbn [fst snd res_sent res_statusCode Comments Videos now new_response
    set_res_sent set_res_statusCode set_Videos set_Comments].
  repeat split.
Qed.

(** X15. When its owner deletes a comment, the comment leaves its
    collection and every occurrence of its identifier leaves the comments
    array of the video it belongs to; the other videos are not touched and
    the answer is 200. *)
Theorem deleteComment_by_owner_removes_and_pulls (req : Request) (w : World)
    (s : string) (i : ObjectId) (c : Comment.t) :
  params_commentId req = Some s → castObjectId s = Some i →
  Comments w !! i = Some c → user req = Some (Comment.owner c) →
  let r := serve deleteComment req w in
  r.1 = inr tt
  ∧ fst <$> res_sent r.2 = Some 200
  ∧ Comments r.2 = delete i (Comments w)
  ∧ (∀ v, Videos w !! Comment.video c = Some v →
          ∃ v', Videos r.2 !! Comment.video c = Some v'
                ∧ (i ∉ Video.comments v')
                ∧ Video.comments v'
                  = List.filter (λ x, negb (N.eqb x i)) (Video.comments v)
                ∧ Video.likes v' = Video.likes v
                ∧ Video.title v' = Video.title v)
  ∧ (∀ j, j ≠ Comment.video c → Videos r.2 !! j = Videos w !! j).
Proof.
  intros Hp Hc Hcm Hu.
  destruct (deleteComment_by_owner_run req w s i c Hp Hc Hcm Hu)
    as (H1 & H2 & H3 & H4).
  cbv zeta. split; [exact H1|]. split; [by rewrite H2|].
  split; [exact H3|]. rewrite H4. split.
  - intros v Hv. eexists. rewrite lookup_alter_eq, Hv.
    cbn [fmap option_fmap option_map]. split; [reflexivity|].
    cbn [Video.comments Video.likes Video.title Video.set_updatedAt
      Video.set_comments].
    split; [|by repeat split].
    intros Hin. apply list_elem_of_In, filter_In in Hin as [_ Hin].
    by rewrite N.eqb_refl in Hin.
  - intros j Hj. by rewrite lookup_alter_ne.
Qed.

(** X16. When its owner deletes a tweet, the tweet leaves its collection
    and the answer is 200; the same request served again is refused with
    status 404. *)
Theorem deleteTweet_by_owner_then_gone (req : Request) (w : World)
    (s : string) (i : ObjectId) (t : Tweet.t) :
  params_tweetId req = Some s → castObjectId s = Some i →
  Tweets w !! i = Some t → user req = Some (Tweet.owner t) →
  let r := serve deleteTweet req w in
  r.1 = inr tt
  ∧ fst <$> res_sent r.2 = Some 200
  ∧ Tweets r.2 = delete i (Tweets w)
  ∧ (serve deleteTweet req r.2).1 = inl (ApiError 404 "Tweet not found").
Proof.
  intros Hp Hc Ht Hu. cbv zeta. unfold serve, deleteTweet.
  rewrite Hp, (isValid_Some s i Hc). cbn [negb].
  rewrite (run_bind_ok _ _ _ _ _
             (findById_found Tweets s i t (new_response w) Hc Ht)).
  cbv beta iota.
  rewrite (run_bind_ok _ _ _ _ _ (req_user_id_run _ _ _ Hu)).
  rewrite bool_decide_eq_true_2 by done. cbn [negb].
  rewrite (run_bind_ok _ _ _ _ _ (findByIdAndDelete_run _ _ _ _ _ Hc)).
  rewrite run_bind. unfold res_status, modify, res_json.
  cbn [fst snd res_sent Tweets new_response set_res_sent
    set_res_statusCode set_Tweets fmap option_fmap option_map].
  split; [reflexivity|]. split; [reflexivity|]. split; [reflexivity|].
  rewrite (run_bind_ok _ _ _ _ _ (findById_missing Tweets s i _ Hc
    (lookup_delete_eq _ _))).
  reflexivity.
Qed.


(** ** What the listings list *)

(** X17. For a user who owns a tweet, [getUserTweets] answers 200 with
    that user's tweets and no others, each once, the newest first. *)
Theorem getUserTweets_lists_the_owner_s_tweets (req : Request) (w : World)
    (s : string) (i : ObjectId) :
  params_userId req = Some s → castObjectId s = Some i →
  (∃ k t, Tweets w !! k = Some t ∧ Tweet.owner t = i) →
  let r := serve getUserTweets req w in
  ∃ tweets,
    r.1 = inr tt
    ∧ res_sent r.2
      = Some (200, JApiResponse
                     (mkApiResponse 200 (DTweets tweets)
                        "User tweets fetched successfully"))
    ∧ (∀ k t, (k, t) ∈ tweets ↔ Tweets w !! k = Some t ∧ Tweet.owner t = i)
    ∧ NoDup tweets
    ∧ Sorted (newest_first (λ d, Tweet.createdAt d.2)) tweets.
Proof.
  intros Hp Hc (k0 & t0 & Hk0 & Ho0). cbv zeta. unfold serve, getUserTweets.
  rewrite Hp, (isValid_Some s i Hc). cbn [negb].
  rewrite (run_bind_ok _ _ _ _ _ (toObjectId_run _ _ _ _ Hc)).
  rewrite (run_bind_ok _ _ _ _ _ (find_run _ _ _)).
  set (found := matching _ _).
  assert ((k0, t0) ∈ found) as Hin0.
  { apply matching_lookup. split; [exact Hk0 | by apply N.eqb_eq]. }
  rewrite length_zero_eqb.
  2:{ intros Hnil. apply sort_desc_nil_inv in Hnil. rewrite Hnil in Hin0.
      by apply not_elem_of_nil in Hin0. }
  rewrite run_bind. eexists. split; [reflexivity|]. split; [reflexivity|].
  split; [|split].
  - intros k t. rewrite sort_desc_perm. unfold found.
    rewrite matching_lookup, N.eqb_eq. reflexivity.
  - rewrite sort_desc_perm. unfold found, matching.
    apply NoDup_ListNoDup, List.NoDup_filter, NoDup_ListNoDup,
      NoDup_map_to_list.
  - apply sort_desc_sorted.
Qed.

Lemma NoDup_fmap_filter {A B : Type} (g : A → B) (P : A → bool)
    (l : list A) :
  NoDup (g <$> l) → NoDup (g <$> List.filter P l).
Proof.
  induction l as [|a l IH]; cbn [List.filter fmap list_fmap]; [done|].
  rewrite NoDup_cons. intros [Hni Hnd].
  destruct (P a); cbn [fmap list_fmap]; [|by apply IH].
  apply NoDup_cons. split; [|by apply IH].
  intros Hin. apply Hni. apply list_elem_of_fmap in Hin as (y & Hy & Hin).
  apply list_elem_of_fmap. exists y. split; [exact Hy|].
  apply list_elem_of_In in Hin. apply filter_In in Hin as [Hin _].
  by apply list_elem_of_In.
Qed.

(** The cards made of the matching videos, in any order, are cards of
    pairwise different videos. *)
Lemma cards_of_distinct_videos (f : ObjectId * Video.t → VideoCard)
    (P : Video.t → bool) (m : gmap ObjectId Video.t)
    (l : list (ObjectId * Video.t)) :
  (∀ d, vc_id (f d) = d.1) → l ≡ₚ matching P m →
  NoDup (vc_id <$> map f l).
Proof.
  intros Hid Hperm. change (map f l) with (f <$> l).
  rewrite <- list_fmap_compose.
  rewrite (list_fmap_ext (vc_id ∘ f) fst l) by (intros ? ? _; apply Hid).
  rewrite Hperm. unfold matching.
  apply NoDup_fmap_filter, NoDup_fst_map_to_list.
Qed.

(** X18. For an existing channel that owns a video, [getChannelVideos]
    answers 200 with one card for each of the channel's videos and for no
    other, no two cards being of the same video, the newest first, and
    no card carries the owner. *)
Theorem getChannelVideos_lists_the_channel_s_videos (req : Request)
    (w : World) (s : string) (i : ObjectId) (channel : User.t) :
  params_channelId req = Some s → castObjectId s = Some i →
  Users w !! i = Some channel →
  (∃ k v, Videos w !! k = Some v ∧ Video.owner v = i) →
  let r := serve getChannelVideos req w in
  ∃ cards,
    r.1 = inr tt
    ∧ res_sent r.2
      = Some (200, JApiResponse
                     (mkApiResponse 200 (DVideoCards cards)
                        "Channel videos fetched successfully"))
    ∧ (∀ card, card ∈ cards ↔
         ∃ k v, Videos w !! k = Some v ∧ Video.owner v = i
                ∧ card = toVideoCard None (k, v))
    ∧ NoDup (vc_id <$> cards)
    ∧ Sorted (newest_first vc_createdAt) cards.
Proof.
  intros Hp Hc Hu (k0 & v0 & Hk0 & Ho0). cbv zeta.
  unfold serve, getChannelVideos.
  rewrite Hp, (isValid_Some s i Hc). cbn [negb].
  rewrite (run_bind_ok _ _ _ _ _
             (findById_found Users s i _ (new_response w) Hc Hu)).
  cbv beta iota.
  rewrite (run_bind_ok _ _ _ _ _ (find_run _ _ _)).
  set (found := matching _ _).
  assert ((k0, v0) ∈ found) as Hin0.
  { apply matching_lookup. split; [exact Hk0 | by apply N.eqb_eq]. }
  rewrite length_zero_eqb.
  2:{ intros Hnil. apply map_eq_nil, sort_desc_nil_inv in Hnil.
      rewrite Hnil in Hin0. by apply not_elem_of_nil in Hin0. }
  rewrite run_bind. eexists. split; [reflexivity|]. split; [reflexivity|].
  split; [|split].
  - intros card. rewrite list_elem_of_In, in_map_iff. split.
    + intros ([k v] & <- & Hin). apply list_elem_of_In in Hin.
      rewrite sort_desc_perm in Hin. apply matching_lookup in Hin as [Hk Ho].
      exists k, v. split; [exact Hk|]. split; [by apply N.eqb_eq | done].
    + intros (k & v & Hk & Ho & ->). exists (k, v). split; [done|].
      apply list_elem_of_In. rewrite sort_desc_perm.
      apply matching_lookup. split; [exact Hk | by apply N.eqb_eq].
  - apply (cards_of_distinct_videos _ (λ v, N.eqb (Video.owner v) i)
             (Videos (new_response w))); [done | apply sort_desc_perm].
  - pose proof (sort_desc_sorted (λ d : N * Video.t, Video.createdAt d.2)
                  found) as Hsorted.
    induction Hsorted as [|d l Hl IH Hhd]; cbn [map]; constructor;
      [exact IH|].
    destruct Hhd; cbn [map]; constructor. assumption.
Qed.

(** X19. [getLikedVideos] answers 200 with one card for each video whose
    likes array holds the requester and for no other, no two cards being
    of the same video, each with the profile of the video's owner when
    that user exists. *)
Theorem getLikedVideos_lists_what_the_user_liked (req : Request) (w : World)
    (u : ObjectId) :
  user req = Some u →
  let r := serve getLikedVideos req w in
  ∃ cards message,
    r.1 = inr tt
    ∧ res_sent r.2
      = Some (200, JApiResponse
                     (mkApiResponse 200 (DVideoCards cards) message))
    ∧ (∀ card, card ∈ cards ↔
         ∃ k v, Videos w !! k = Some v ∧ u ∈ Video.likes v
                ∧ card = toVideoCard (Users w !! Video.owner v) (k, v))
    ∧ NoDup (vc_id <$> cards).
Proof.
  intros Hu. cbv zeta. unfold serve, getLikedVideos.
  rewrite (run_bind_ok _ _ _ _ _ (req_user_id_run _ _ _ Hu)).
  rewrite (run_bind_ok _ _ _ _ _ (find_run _ _ _)).
  set (found := matching _ _).
  rewrite run_bind. unfold gets. cbv beta iota.
  assert (∀ card,
            card ∈ map (λ d : N * Video.t,
                          toVideoCard (Users w !! Video.owner d.2) d) found ↔
            ∃ k v, Videos w !! k = Some v ∧ u ∈ Video.likes v
                   ∧ card = toVideoCard (Users w !! Video.owner v) (k, v))
    as Hcards.
  { intros card. rewrite list_elem_of_In, in_map_iff. split.
    - intros ([k v] & <- & Hin). apply list_elem_of_In in Hin.
      apply matching_lookup in Hin as [Hk Ho].
      exists k, v. split; [exact Hk|].
      split; [by apply bool_decide_eq_true_1 in Ho | done].
    - intros (k & v & Hk & Ho & ->). exists (k, v). split; [done|].
      apply list_elem_of_In, matching_lookup.
      split; [exact Hk | by apply bool_decide_eq_true_2]. }
  cbn [Users new_response set_res_sent set_res_statusCode].
  destruct (Nat.eqb _ 0) eqn:Hlen.
  - rewrite run_bind. exists [], "No liked videos found".
    split; [reflexivity|]. split; [reflexivity|]. split; [|constructor].
    intros card. rewrite <- Hcards.
    apply Nat.eqb_eq, nil_length_inv in Hlen. by rewrite Hlen.
  - rewrite run_bind. eexists _, _.
    split; [reflexivity|]. split; [reflexivity|]. split; [exact Hcards|].
    by apply (cards_of_distinct_videos _
                (λ v, bool_decide (u ∈ Video.likes v))
                (Videos (new_response w))).
Qed.


(** ** Toggling a video like: the reply and the frame *)

Lemma toggleVideoLike_reply (req : Request) (w : World) (s : string)
    (i u : ObjectId) (v : Video.t) :
  params_videoId req = Some s → castObjectId s = Some i →
  Videos w !! i = Some v → user req = Some u → res_sent w = None →
  res_sent (toggleVideoLike req w).2
  = Some (200, JApiResponse
                 (mkApiResponse 200
                    (DLikeStatus i
                       (length (likesOfVideo i (toggleVideoLike req w).2))
                       (negb (bool_decide (u ∈ Video.likes v))))
                    ("Video has been "
                     +:+ (if bool_decide (u ∈ Video.likes v)
                          then "unliked" else "liked")
                     +:+ " successfully"))).
Proof.
  intros Hp Hc Hv Hu Hres. unfold toggleVideoLike.
  rewrite Hp, (isValid_Some s i Hc). cbn [negb].
  rewrite (run_bind_ok _ _ _ _ _ (findById_found Videos s i v w Hc Hv)).
  cbv beta iota.
  rewrite (run_bind_ok _ _ _ _ _ (req_user_id_run _ _ _ Hu)).
  pose proof (toggled_array_changes u (Video.likes v)) as Hchg.
  unfold toggled_array in Hchg.
  destruct (decide (u ∈ Video.likes v)) as [Hin|Hin];
    [rewrite !(bool_decide_eq_true_2 _ Hin) in *
    |rewrite !(bool_decide_eq_false_2 _ Hin) in *]; cbv beta iota in *.
  - rewrite run_bind. rewrite run_bind. unfold findOneAndDelete.
    rewrite (run_bind_ok _ _ _ _ _ (findOne_run _ _ _)).
    destruct (matching _ (Likes w)) as [|[k d] rest]; cbn [head].
    + rewrite run_ret. rewrite run_ret.
      rewrite (run_bind_ok _ _ _ _ _ (Video_save_likes i v _ w Hchg Hv)).
      rewrite run_bind. unfold countDocuments.
      rewrite (run_bind_ok _ _ _ _ _ (find_run _ _ _)). rewrite run_ret.
      rewrite run_bind. unfold res_status, modify, res_json.
      cbn [res_sent set_res_statusCode set_Videos]. rewrite Hres.
      reflexivity.
    + rewrite run_bind. unfold modify. cbv beta iota. rewrite run_ret.
      rewrite run_ret.
      rewrite (run_bind_ok _ _ _ _ _
                 (Video_save_likes i v _ (set_Likes _ w) Hchg Hv)).
      rewrite run_bind. unfold countDocuments.
      rewrite (run_bind_ok _ _ _ _ _ (find_run _ _ _)). rewrite run_ret.
      rewrite run_bind. unfold res_status, modify, res_json.
      cbn [res_sent set_res_statusCode set_Videos set_Likes]. rewrite Hres.
      reflexivity.
  - rewrite run_bind. rewrite run_bind. unfold create. cbv beta iota zeta.
    rewrite run_ret.
    rewrite (run_bind_ok _ _ _ _ _
               (Video_save_likes i v _ (set_Likes _ w) Hchg Hv)).
    rewrite run_bind. unfold countDocuments.
    rewrite (run_bind_ok _ _ _ _ _ (find_run _ _ _)). rewrite run_ret.
    rewrite run_bind. unfold res_status, modify, res_json.
    cbn [res_sent set_res_statusCode set_Videos set_Likes]. rewrite Hres.
    reflexivity.
Qed.

(** X20. The reply of [toggleVideoLike] tells the state it leaves: status
    200, [likesCount] the number of Like documents of the video after the
    toggle, and [userLiked] true exactly when the requester is in the
    likes array after the toggle. *)
Theorem toggleVideoLike_reports_the_new_state (req : Request) (w : World)
    (s : string) (i u : ObjectId) (v : Video.t) :
  params_videoId req = Some s → castObjectId s = Some i →
  Videos w !! i = Some v → user req = Some u →
  let r := serve toggleVideoLike req w in
  ∃ message,
    r.1 = inr tt
    ∧ res_sent r.2
      = Some (200, JApiResponse
                     (mkApiResponse 200
                        (DLikeStatus i (length (likesOfVideo i r.2))
                           (bool_decide (u ∈ likesArray i r.2)))
                        message)).
Proof.
  intros Hp Hc Hv Hu. cbv zeta. unfold serve.
  rewrite (toggleVideoLike_reply req (new_response w) s i u v Hp Hc Hv Hu
             eq_refl).
  destruct (toggleVideoLike_run req (new_response w) s i u v Hp Hc Hv Hu
              eq_refl) as [body ->].
  eexists. split; [reflexivity|]. cbn [snd]. do 5 f_equal.
  unfold likesArray.
  cbn [Videos set_res_sent set_res_statusCode set_Videos].
  rewrite lookup_insert_eq.
  cbn [from_option Video.likes Video.set_updatedAt Video.set_likes].
  pose proof (toggled_array_liked u (Video.likes v)) as Hflip.
  destruct (decide (u ∈ Video.likes v)) as [Hin|Hin].
  - rewrite (bool_decide_eq_true_2 _ Hin), bool_decide_eq_false_2; [done|].
    rewrite Hflip. tauto.
  - rewrite (bool_decide_eq_false_2 _ Hin), bool_decide_eq_true_2; [done|].
    by apply Hflip.
Qed.

(** X21. A toggle by [u] on video [i] touches nothing else: every other
    user occurs in the likes array as often as before, the other fields of
    the video but [updatedAt] and all other videos are unchanged, and the
    Like documents of every other (user, video) pair are exactly those that
    were there. *)
Theorem toggleVideoLike_touches_only_its_pair (req : Request) (w : World)
    (s : string) (i u : ObjectId) (v : Video.t) :
  params_videoId req = Some s → castObjectId s = Some i →
  Videos w !! i = Some v → user req = Some u →
  let r := serve toggleVideoLike req w in
  (∀ x, x ≠ u →
        occurrences x (likesArray i r.2) = occurrences x (Video.likes v))
  ∧ Videos r.2
    = <[i := Video.set_updatedAt (now w)
               (Video.set_likes (likesArray i r.2) v)]> (Videos w)
  ∧ (∀ k d, ¬ (Like.likedBy d = u ∧ Like.video d = Some i) →
            (Likes r.2 !! k = Some d ↔ Likes w !! k = Some d))
  ∧ Comments r.2 = Comments w ∧ Tweets r.2 = Tweets w
  ∧ Subscriptions r.2 = Subscriptions w.
Proof.
  intros Hp Hc Hv Hu. cbv zeta. unfold serve.
  destruct (toggleVideoLike_run req (new_response w) s i u v Hp Hc Hv Hu
              eq_refl) as [body ->].
  cbn [snd]. unfold likesArray.
  cbn [Videos Likes Comments Tweets Subscriptions now new_response
    set_res_sent set_res_statusCode set_Videos set_Likes].
  rewrite lookup_insert_eq.
  cbn [from_option Video.likes Video.set_updatedAt Video.set_likes].
  split; [intros x Hx; by apply toggled_array_others|].
  split; [reflexivity|].
  split; [intros k d Hd; by apply toggled_documents_others|].
  repeat split.
Qed.


(** ** Toggling a subscription: the frame and the round trip *)

Lemma toggleSubscription_lengths (req : Request) (w : World) (s : string)
    (c u : ObjectId) (channel : User.t) :
  params_channelId req = Some s → castObjectId s = Some c →
  Users w !! c = Some channel → user req = Some u →
  let w' := (serve toggleSubscription req w).2 in
  Users w' = Users w
  ∧ (match subscriptionsOf u c w with
     | [] => length (subscriptionsOf u c w') = 1
     | _ :: rest => length (subscriptionsOf u c w') = length rest
     end)
  ∧ (∀ k d, ¬ (Subscription.subscriber d = u ∧ Subscription.channel d = c) →
            (Subscriptions w' !! k = Some d ↔ Subscriptions w !! k = Some d)).
Proof.
  intros Hp Hc Hch Hu. cbv zeta. unfold serve.
  destruct (subscriptionsOf u c w) as [|[k d] rest] eqn:Hsub.
  - rewrite (toggleSubscription_subscribes req (new_response w) s c u
               channel Hp Hc Hch Hu Hsub eq_refl).
    unfold subscriptionsOf. cbn [snd Subscriptions Users set_res_sent
      set_res_statusCode set_Subscriptions new_response].
    split; [reflexivity|]. split.
    + rewrite matching_insert by apply newObjectId_fresh.
      cbn [Subscription.subscriber Subscription.channel].
      rewrite !N.eqb_refl. cbn [andb].
      unfold subscriptionsOf in Hsub. rewrite Hsub. reflexivity.
    + intros k d Hd.
      destruct (decide (newObjectId (Subscriptions w) = k)) as [<-|Hne].
      * rewrite lookup_insert_eq, newObjectId_fresh. split; [|done].
        intros [= <-].
        cbn [Subscription.subscriber Subscription.channel] in Hd. tauto.
      * by rewrite lookup_insert_ne.
  - rewrite (toggleSubscription_unsubscribes req (new_response w) s c u k
               channel d rest Hp Hc Hch Hu Hsub eq_refl).
    destruct (matching_first _ _ _ _ _ Hsub) as [Hk HP].
    unfold subscriptionsOf. cbn [snd Subscriptions Users set_res_sent
      set_res_statusCode set_Subscriptions new_response].
    split; [reflexivity|]. split.
    + pose proof (matching_delete
        (λ s0, N.eqb (Subscription.subscriber s0) u
               && N.eqb (Subscription.channel s0) c)
        (Subscriptions w) k d Hk) as Hperm.
      cbv beta in Hperm. rewrite HP in Hperm. unfold subscriptionsOf in Hsub.
      rewrite Hsub in Hperm. apply Permutation_length in Hperm.
      cbn [length app] in Hperm. lia.
    + intros k' d' Hd'. destruct (decide (k = k')) as [<-|Hne].
      * rewrite lookup_delete_eq. split; [done|].
        intros Hk'. rewrite Hk' in Hk. injection Hk as ->.
        apply andb_true_iff in HP as [H1 H2].
        apply N.eqb_eq in H1, H2. tauto.
      * by rewrite lookup_delete_ne.
Qed.

(** X22. For a subscriber and an existing channel with at most one
    Subscription document of the pair: one toggle turns "subscribed" into
    "not subscribed" and back, two toggles in sequence restore the number
    of documents of the pair, and the documents of every other pair are
    exactly those that were there. *)
Theorem toggleSubscription_twice_restores (req : Request) (w : World)
    (s : string) (c u : ObjectId) (channel : User.t) :
  params_channelId req = Some s → castObjectId s = Some c →
  Users w !! c = Some channel → user req = Some u →
  length (subscriptionsOf u c w) ≤ 1 →
  let r1 := serve toggleSubscription req w in
  let r2 := serve toggleSubscription req r1.2 in
  length (subscriptionsOf u c r1.2) = 1 - length (subscriptionsOf u c w)
  ∧ length (subscriptionsOf u c r2.2) = length (subscriptionsOf u c w)
  ∧ (∀ k d, ¬ (Subscription.subscriber d = u ∧ Subscription.channel d = c) →
            (Subscriptions r2.2 !! k = Some d ↔ Subscriptions w !! k = Some d)).
Proof.
  intros Hp Hc Hch Hu Hone. cbv zeta.
  destruct (toggleSubscription_lengths req w s c u channel Hp Hc Hch Hu)
    as (HU1 & Hlen1 & Hfr1).
  set (w1 := (serve toggleSubscription req w).2) in *.
  assert (Users w1 !! c = Some channel) as Hch1 by (by rewrite HU1).
  destruct (toggleSubscription_lengths req w1 s c u channel Hp Hc Hch1 Hu)
    as (_ & Hlen2 & Hfr2).
  set (w2 := (serve toggleSubscription req w1).2) in *.
  split; [|split].
  - destruct (subscriptionsOf u c w) as [|d0 rest]; cbn [length] in *; lia.
  - destruct (subscriptionsOf u c w) as [|d0 rest]; cbn [length] in *.
    + destruct (subscriptionsOf u c w1) as [|d1 rest1]; cbn [length] in *;
        lia.
    + destruct (subscriptionsOf u c w1) as [|d1 rest1]; cbn [length] in *;
        lia.
  - intros k d Hd. rewrite (Hfr2 k d Hd). exact (Hfr1 k d Hd).
Qed.

(** ** Deleting an asset never throws *)

(** X23. The two deletion functions of the gateway adapter never throw
    and touch nothing but the log of gateway calls: they answer [null]
    exactly when no public id is given or the gateway rejects the call,
    and without a public id the gateway is not called at all. *)
Theorem cloudinary_deletions_never_throw (publicId : string) (w : World) :
  let rv := deleteFromCloudinary publicId w in
  let ri := deleteImageFromCloudinary publicId w in
  rv.1 = inr (if String.eqb publicId "" then None
              else cloudinary_destroy w publicId RVideo)
  ∧ ri.1 = inr (if String.eqb publicId "" then None
                else cloudinary_destroy w publicId RImage)
  ∧ gateway_calls rv.2
    = (gateway_calls w
       ++ (if String.eqb publicId "" then []
           else [Destroy publicId RVideo]))%list
  ∧ gateway_calls ri.2
    = (gateway_calls w
       ++ (if String.eqb publicId "" then []
           else [Destroy publicId RImage]))%list
  ∧ (Videos rv.2, files rv.2, res_sent rv.2)
    = (Videos w, files w, res_sent w)
  ∧ (Videos ri.2, files ri.2, res_sent ri.2)
    = (Videos w, files w, res_sent w).
Proof.
  cbv zeta. unfold deleteFromCloudinary, deleteImageFromCloudinary,
    try_catch, truthy.
  destruct (String.eqb publicId ""); cbn [negb].
  - rewrite !run_ret, app_nil_r. repeat split.
  - rewrite !run_bind. unfold uploader_destroy.
    destruct (cloudinary_destroy w publicId RVideo),
      (cloudinary_destroy w publicId RImage); repeat split.
Qed.

End MoreProperties.

(** ** Adding a comment *)

Section MoreHandlers.
Context {E : Externals} {T : ObjectIdToString}.

Lemma create_run {A : Type} (coll : World → gmap ObjectId A)
    (set : gmap ObjectId A → World → World) (doc : N → A) (w : World) :
  create coll set doc w
  = (inr (newObjectId (coll w), doc (now w)),
     set (<[newObjectId (coll w) := doc (now w)]> (coll w)) w).
Proof. reflexivity. Qed.

Lemma Video_save_comments (i : ObjectId) (v : Video.t)
    (comments : list ObjectId) (w : World) :
  comments ≠ Video.comments v → Videos w !! i = Some v →
  Video_save i v (Video.set_comments comments v) w
  = (inr (Video.set_updatedAt (now w) (Video.set_comments comments v)),
     set_Videos
       (<[i := Video.set_updatedAt (now w) (Video.set_comments comments v)]>
          (Videos w)) w).
Proof.
  intros Hne Hv. unfold Video_save. rewrite decide_False.
  2:{ intros Heq. apply Hne. apply (f_equal Video.comments) in Heq.
      symmetry. exact Heq. }
  unfold invalid_modified_paths.
  cbn [Video.thumbnail Video.title Video.description Video.set_comments].
  rewrite !bool_decide_eq_true_2 by reflexivity. cbn [orb failing app].
  rewrite Hv. reflexivity.
Qed.

Lemma addComment_run (req : Request) (w : World) (s text : string)
    (i u : ObjectId) (v : Video.t) :
  params_videoId req = Some s → castObjectId s = Some i →
  body_content req = Some text → text ≠ "" →
  Videos w !! i = Some v → user req = Some u →
  let j := newObjectId (Comments w) in
  let c := Comment.mk text i u [] (now w) (now w) in
  let r := serve addComment req w in
  r.1 = inr tt
  ∧ res_sent r.2
    = Some (201, JApiResponse
                   (mkApiResponse 201 (DComment j c)
                      "Comment added successfully"))
  ∧ Comments r.2 = <[j := c]> (Comments w)
  ∧ Videos r.2
    = <[i := Video.set_updatedAt (now w)
               (Video.set_comments (Video.comments v ++ [j])%list v)]>
        (Videos w)
  ∧ now r.2 = now w.
Proof.
  intros Hp Hc Hb Ht Hv Hu. cbv zeta. unfold serve, addComment.
  rewrite Hp, Hb, (truthy_Some _ Ht), (isValid_Some s i Hc). cbn [negb orb].
  rewrite (run_bind_ok _ _ _ _ _
             (findById_found Videos s i v (new_response w) Hc Hv)).
  cbv beta iota.
  rewrite (run_bind_ok _ _ _ _ _ (req_user_id_run _ _ _ Hu)).
  rewrite (run_bind_ok _ _ _ _ _ (create_run _ _ _ _)).
  cbn [fst snd default from_option id].
  assert (Hne : (Video.comments v ++ [newObjectId (Comments w)])%list
                ≠ Video.comments v).
  { intros Heq. apply (f_equal length) in Heq.
    rewrite length_app in Heq. cbn [length] in Heq. lia. }
  rewrite (run_bind_ok _ _ _ _ _
             (Video_save_comments i v _ (set_Comments _ (new_response w))
                Hne Hv)).
  rewrite run_bind. unfold res_status, modify, res_json.
  cbn [fst snd res_sent res_statusCode Comments Videos now new_response
    set_res_sent set_res_statusCode set_Videos set_Comments].
  repeat split.
Qed.

(** X24. A comment with content on an existing video is stored under an
    identifier that was not in use, with the text as sent, the video and
    the requester as owner, and no like; its identifier is appended to the
    comments array of the video, and the answer is 201 with the comment. *)
Theorem addComment_stores_and_links (req : Request) (w : World)
    (s text : string) (i u : ObjectId) (v : Video.t) :
  params_videoId req = Some s → castObjectId s = Some i →
  body_content req = Some text → text ≠ "" →
  Videos w !! i = Some v → user req = Some u →
  let j := newObjectId (Comments w) in
  let c := Comment.mk text i u [] (now w) (now w) in
  let r := serve addComment req w in
  r.1 = inr tt
  ∧ res_sent r.2
    = Some (201, JApiResponse
                   (mkApiResponse 201 (DComment j c)
                      "Comment added successfully"))
  ∧ Comments w !! j = None
  ∧ Comments r.2 = <[j := c]> (Comments w)
  ∧ (∃ v', Videos r.2 !! i = Some v'
           ∧ Video.comments v' = (Video.comments v ++ [j])%list
           ∧ Video.likes v' = Video.likes v
           ∧ Video.owner v' = Video.owner v)
  ∧ (∀ k, k ≠ i → Videos r.2 !! k = Videos w !! k).
Proof.
  intros Hp Hc Hb Ht Hv Hu.
  destruct (addComment_run req w s text i u v Hp Hc Hb Ht Hv Hu)
    as (H1 & H2 & H3 & H4 & _).
  cbv zeta. split; [exact H1|]. split; [exact H2|].
  split; [apply newObjectId_fresh|]. split; [exact H3|]. split.
  - eexists. rewrite H4, lookup_insert_eq. split; [reflexivity|].
    repeat split.
  - intros k Hk. rewrite H4. by rewrite lookup_insert_ne.
Qed.

(** X25. Adding a comment and then deleting it, by the same user, gives
    back the comment collection as it was and the comments array of the
    video as it was, when that array did not hold the new identifier
    already. *)
Theorem addComment_then_deleteComment_restores (req req' : Request)
    (w : World) (s s' text : string) (i u : ObjectId) (v : Video.t) :
  params_videoId req = Some s → castObjectId s = Some i →
  body_content req = Some text → text ≠ "" →
  Videos w !! i = Some v → user req = Some u →
  params_commentId req' = Some s' →
  castObjectId s' = Some (newObjectId (Comments w)) →
  user req' = Some u →
  newObjectId (Comments w) ∉ Video.comments v →
  let r := serve deleteComment req' (serve addComment req w).2 in
  r.1 = inr tt
  ∧ Comments r.2 = Comments w
  ∧ (∃ v', Videos r.2 !! i = Some v'
           ∧ Video.comments v' = Video.comments v)
  ∧ (∀ k, k ≠ i → Videos r.2 !! k = Videos w !! k).
Proof.
  intros Hp Hc Hb Ht Hv Hu Hp' Hc' Hu' Hnew.
  destruct (addComment_run req w s text i u v Hp Hc Hb Ht Hv Hu)
    as (_ & _ & H3 & H4 & _).
  set (j := newObjectId (Comments w)) in *.
  set (c := Comment.mk text i u [] (now w) (now w)) in *.
  set (w1 := (serve addComment req w).2) in *.
  assert (Hcm : Comments w1 !! j = Some c)
    by (rewrite H3; apply lookup_insert_eq).
  destruct (deleteComment_by_owner_run req' w1 s' j c Hp' Hc' Hcm Hu')
    as (D1 & _ & D3 & D4).
  cbv zeta. split; [exact D1|]. split.
  - rewrite D3, H3. apply delete_insert_id. apply newObjectId_fresh.
  - cbn [Comment.video c] in D4. rewrite D4, H4. split.
    + eexists. rewrite lookup_alter_eq, lookup_insert_eq.
      cbn [fmap option_fmap option_map]. split; [reflexivity|].
      cbn [Video.comments Video.set_updatedAt Video.set_comments].
      rewrite List.filter_app. cbn [List.filter]. rewrite N.eqb_refl.
      cbn [negb]. rewrite app_nil_r.
      apply forallb_filter_id. apply forallb_forall. intros x Hx.
      apply negb_true_iff, N.eqb_neq. intros ->.
      apply Hnew. apply list_elem_of_In. exact Hx.
    + intros k Hk. by rewrite lookup_alter_ne, lookup_insert_ne.
Qed.

(** ** Playlists *)

Lemma Playlist_save_videos (p : ObjectId) (pl : Playlist.t)
    (videos : list ObjectId) (w : World) :
  videos ≠ Playlist.videos pl → Playlists w !! p = Some pl →
  Playlist_save p pl
    (Playlist.mk (Playlist.name pl) (Playlist.description pl) videos
       (Playlist.owner pl) (Playlist.createdAt pl) (Playlist.updatedAt pl)) w
  = (inr (Playlist.mk (Playlist.name pl) (Playlist.description pl) videos
            (Playlist.owner pl) (Playlist.createdAt pl) (now w)),
     set_Playlists
       (<[p := Playlist.mk (Playlist.name pl) (Playlist.description pl)
                 videos (Playlist.owner pl) (Playlist.createdAt pl) (now w)]>
          (Playlists w)) w).
Proof.
  intros Hne Hp. unfold Playlist_save. rewrite bool_decide_eq_false_2.
  2:{ intros [Heq _]. apply Hne. symmetry. exact Heq. }
  rewrite Hp. reflexivity.
Qed.

Lemma includes_text (s : string) (i : ObjectId) (l : list ObjectId) :
  toString i = s →
  (∀ x, x ∈ l → castObjectId (toString x) = Some x) →
  castObjectId s = Some i →
  existsb (λ id, String.eqb (toString id) s) l = bool_decide (i ∈ l).
Proof.
  intros Hts Hcanon Hc. case_bool_decide as Hin.
  - apply existsb_exists. exists i. split.
    + apply list_elem_of_In. exact Hin.
    + apply String.eqb_eq. exact Hts.
  - apply not_true_is_false. intros Hex.
    apply existsb_exists in Hex as (x & Hx & Heq).
    apply list_elem_of_In in Hx. apply String.eqb_eq in Heq.
    specialize (Hcanon x Hx). rewrite Heq, Hc in Hcanon.
    apply Hin. by injection Hcanon as ->.
Qed.

Lemma addVideoToPlaylist_run (req : Request) (w : World) (sp s : string)
    (p i : ObjectId) (pl : Playlist.t) :
  castObjectId sp = Some p → params_videoId req = Some s →
  castObjectId s = Some i → toString i = s →
  (∀ x, x ∈ Playlist.videos pl → castObjectId (toString x) = Some x) →
  Playlists w !! p = Some pl → i ∉ Playlist.videos pl →
  let pl' := Playlist.mk (Playlist.name pl) (Playlist.description pl)
               (Playlist.videos pl ++ [i])%list (Playlist.owner pl)
               (Playlist.createdAt pl) (now w) in
  let r := answer (addVideoToPlaylist (Some sp) req) w in
  r.1 = inr (mkEnvelope 200 (p, pl') "Video added to playlist successfully")
  ∧ res_statusCode r.2 = 200
  ∧ Playlists r.2 = <[p := pl']> (Playlists w)
  ∧ Videos r.2 = Videos w.
Proof.
  intros Hcp Hp Hc Hts Hcanon Hpl Hin. cbv zeta.
  unfold answer, addVideoToPlaylist.
  rewrite Hp, (isValid_Some sp p Hcp), (isValid_Some s i Hc). cbn [negb orb].
  rewrite (run_bind_ok _ _ _ _ _
             (findById_found Playlists sp p pl (new_response w) Hcp Hpl)).
  cbv beta iota. cbn [default from_option id].
  rewrite (includes_text s i _ Hts Hcanon Hc).
  rewrite bool_decide_eq_false_2 by exact Hin.
  rewrite (run_bind_ok _ _ _ _ _ (toObjectId_run _ _ _ _ Hc)).
  assert (Hne : (Playlist.videos pl ++ [i])%list ≠ Playlist.videos pl).
  { intros Heq. apply (f_equal length) in Heq.
    rewrite length_app in Heq. cbn [length] in Heq. lia. }
  rewrite (run_bind_ok _ _ _ _ _
             (Playlist_save_videos p pl _ (new_response w) Hne Hpl)).
  rewrite run_bind. unfold res_status, modify, res_json_return.
  cbn [fst snd res_sent res_statusCode Playlists Videos now new_response
    set_res_sent set_res_statusCode set_Playlists].
  repeat split.
Qed.

(** X26. A playlist whose videos are pairwise distinct stays so under
    [addVideoToPlaylist], when the video is named by the text of its
    identifier: a video already in the list is refused with 400 and the
    playlist is untouched, any other one is appended at the end. Neither
    the requester nor the existence of the video is looked at. *)
Theorem addVideoToPlaylist_keeps_videos_distinct (req : Request) (w : World)
    (sp s : string) (p i : ObjectId) (pl : Playlist.t) :
  castObjectId sp = Some p → params_videoId req = Some s →
  castObjectId s = Some i → toString i = s →
  (∀ x, x ∈ Playlist.videos pl → castObjectId (toString x) = Some x) →
  Playlists w !! p = Some pl → NoDup (Playlist.videos pl) →
  let r := answer (addVideoToPlaylist (Some sp) req) w in
  (i ∈ Playlist.videos pl →
     r.1 = inl (ApiError 400 "Video already exists in the playlist")
     ∧ Playlists r.2 = Playlists w)
  ∧ (i ∉ Playlist.videos pl →
     ∃ pl', r.1 = inr (mkEnvelope 200 (p, pl')
                         "Video added to playlist successfully")
            ∧ Playlists r.2 = <[p := pl']> (Playlists w)
            ∧ Playlist.videos pl' = (Playlist.videos pl ++ [i])%list
            ∧ NoDup (Playlist.videos pl')
            ∧ Playlist.name pl' = Playlist.name pl
            ∧ Playlist.owner pl' = Playlist.owner pl).
Proof.
  intros Hcp Hp Hc Hts Hcanon Hpl Hnd. cbv zeta. split.
  - intros Hin. unfold answer, addVideoToPlaylist.
    rewrite Hp, (isValid_Some sp p Hcp), (isValid_Some s i Hc).
    cbn [negb orb].
    rewrite (run_bind_ok _ _ _ _ _
               (findById_found Playlists sp p pl (new_response w) Hcp Hpl)).
    cbv beta iota. cbn [default from_option id].
    rewrite (includes_text s i _ Hts Hcanon Hc).
    rewrite bool_decide_eq_true_2 by exact Hin. split; reflexivity.
  - intros Hin.
    destruct (addVideoToPlaylist_run req w sp s p i pl Hcp Hp Hc Hts Hcanon
                Hpl Hin) as (H1 & _ & H3 & _).
    eexists. split; [exact H1|]. split; [exact H3|].
    cbn [Playlist.videos Playlist.name Playlist.owner].
    split; [reflexivity|]. split; [|split; reflexivity].
    apply NoDup_app. split; [exact Hnd|]. split; [|apply NoDup_singleton].
    intros x Hx Hxi. apply list_elem_of_singleton in Hxi. by subst.
Qed.

(** X27. Adding a video that the playlist does not hold and then removing
    it, both by the text of its identifier, gives back the list of videos
    as it was; name, description, owner and creation time stay. *)
Theorem add_then_remove_restores_the_playlist (req : Request) (w : World)
    (sp s : string) (p i : ObjectId) (pl : Playlist.t) :
  castObjectId sp = Some p → params_videoId req = Some s →
  castObjectId s = Some i → toString i = s →
  (∀ x, x ∈ Playlist.videos pl → castObjectId (toString x) = Some x) →
  Playlists w !! p = Some pl → i ∉ Playlist.videos pl →
  let r := answer (removeVideoFromPlaylist (Some sp) req)
             (answer (addVideoToPlaylist (Some sp) req) w).2 in
  ∃ pl', r.1 = inr (mkEnvelope 200 (p, pl')
                      "Video removed from playlist successfully")
         ∧ Playlists r.2 = <[p := pl']> (Playlists w)
         ∧ Playlist.videos pl' = Playlist.videos pl
         ∧ Playlist.name pl' = Playlist.name pl
         ∧ Playlist.description pl' = Playlist.description pl
         ∧ Playlist.owner pl' = Playlist.owner pl
         ∧ Playlist.createdAt pl' = Playlist.createdAt pl.
Proof.
  intros Hcp Hp Hc Hts Hcanon Hpl Hin.
  destruct (addVideoToPlaylist_run req w sp s p i pl Hcp Hp Hc Hts Hcanon
              Hpl Hin) as (_ & _ & H3 & _).
  cbv zeta in H3 |- *.
  set (w1 := (answer (addVideoToPlaylist (Some sp) req) w).2) in *.
  clearbody w1.
  set (pl1 := Playlist.mk (Playlist.name pl) (Playlist.description pl)
                (Playlist.videos pl ++ [i])%list (Playlist.owner pl)
                (Playlist.createdAt pl) (now w)) in *.
  assert (Hpl1 : Playlists w1 !! p = Some pl1)
    by (rewrite H3; apply lookup_insert_eq).
  assert (Hfilter :
    List.filter (λ id, negb (String.eqb (toString id) s))
      (Playlist.videos pl1) = Playlist.videos pl).
  { cbn [Playlist.videos pl1]. rewrite List.filter_app. cbn [List.filter].
    rewrite Hts, String.eqb_refl. cbn [negb]. rewrite app_nil_r.
    apply forallb_filter_id. apply forallb_forall. intros x Hx.
    apply list_elem_of_In in Hx.
    apply negb_true_iff, String.eqb_neq. intros Heq.
    specialize (Hcanon x Hx). rewrite Heq, Hc in Hcanon.
    apply Hin. by injection Hcanon as ->. }
  unfold answer, removeVideoFromPlaylist.
  rewrite Hp, (isValid_Some sp p Hcp), (isValid_Some s i Hc). cbn [negb orb].
  rewrite (run_bind_ok _ _ _ _ _
             (findById_found Playlists sp p pl1 (new_response w1) Hcp Hpl1)).
  cbv beta iota. cbn [default from_option id]. rewrite Hfilter.
  assert (Hne : Playlist.videos pl ≠ Playlist.videos pl1).
  { intros Heq. apply (f_equal length) in Heq. cbn [Playlist.videos pl1] in Heq.
    rewrite length_app in Heq. cbn [length] in Heq. lia. }
  rewrite (run_bind_ok _ _ _ _ _
             (Playlist_save_videos p pl1 _ (new_response w1) Hne Hpl1)).
  rewrite run_bind. unfold res_status, modify, res_json_return.
  cbn [fst snd res_sent res_statusCode Playlists now new_response
    set_res_sent set_res_statusCode set_Playlists].
  eexists. split; [reflexivity|]. split.
  { rewrite H3. apply insert_insert_eq. }
  repeat split.
Qed.

(** X28. [deletePlaylist] removes an existing playlist and answers 200
    with an empty object, whoever asks: the requester is not compared with
    the owner. The same request served again is refused with 404. *)
Theorem deletePlaylist_by_anyone_then_gone (req : Request) (w : World)
    (sp : string) (p : ObjectId) (pl : Playlist.t) :
  castObjectId sp = Some p → Playlists w !! p = Some pl →
  let r := serve (deletePlaylist (Some sp)) req w in
  r.1 = inr tt
  ∧ res_sent r.2
    = Some (200, JApiResponse
                   (mkApiResponse 200 DEmptyObject
                      "Playlist deleted successfully"))
  ∧ Playlists r.2 = delete p (Playlists w)
  ∧ serve (deletePlaylist (Some sp)) req r.2
    = (inl (ApiError 404 "Playlist not found"), new_response r.2).
Proof.
  intros Hcp Hpl. cbv zeta. unfold serve, deletePlaylist.
  rewrite (isValid_Some sp p Hcp). cbn [negb].
  rewrite (run_bind_ok _ _ _ _ _ (findByIdAndDelete_run _ _ _ _ _ Hcp)).
  cbn [Playlists new_response set_res_sent set_res_statusCode].
  rewrite Hpl. cbn [fmap option_fmap option_map].
  rewrite run_bind. unfold res_status, modify, res_json.
  cbn [fst snd res_sent res_statusCode Playlists new_response set_res_sent
    set_res_statusCode set_Playlists].
  split; [reflexivity|]. split; [reflexivity|]. split; [reflexivity|].
  rewrite (run_bind_ok _ _ _ _ _ (findByIdAndDelete_run _ _ _ _ _ Hcp)).
  cbn [Playlists new_response set_res_sent set_res_statusCode set_Playlists].
  rewrite lookup_delete_eq. cbn [fmap option_fmap option_map].
  unfold throw. f_equal.
  cbn [new_response set_res_sent set_res_statusCode set_Playlists Playlists
    Videos Comments Tweets Likes Subscriptions Users now files
    cloudinary_upload cloudinary_destroy gateway_calls uuids uuids_taken
    res_statusCode res_sent].
  by rewrite delete_delete_eq.
Qed.

(** ** Liking a comment *)

Lemma toggled_array_elem_others (u x : ObjectId) (l : list ObjectId) :
  x ≠ u → x ∈ toggled_array u l ↔ x ∈ l.
Proof.
  intros Hne. unfold toggled_array. case_bool_decide as Hin; [clear Hin|].
  - rewrite !list_elem_of_In, filter_In, negb_true_iff, N.eqb_neq. tauto.
  - rewrite elem_of_app, list_elem_of_singleton. tauto.
Qed.

(** X29. For an authenticated user and an existing comment,
    [toggleCommentLike] flips the user's membership of the comment's likes
    array and nobody else's, answers 200 with the length of the new
    array, and creates or deletes no Like document; content, video and
    owner of the comment stay. *)
Theorem toggleCommentLike_flips_membership (req : Request) (w : World)
    (s : string) (i u : ObjectId) (c : Comment.t) :
  params_commentId req = Some s → castObjectId s = Some i →
  Comments w !! i = Some c → user req = Some u →
  let r := answer (toggleCommentLike req) w in
  ∃ c', r.1 = inr (mkEnvelope 200 (length (Comment.likes c'))
                     "Like toggled successfully")
        ∧ res_statusCode r.2 = 200
        ∧ Comments r.2 = <[i := c']> (Comments w)
        ∧ Likes r.2 = Likes w
        ∧ (u ∈ Comment.likes c' ↔ u ∉ Comment.likes c)
        ∧ (∀ x, x ≠ u → x ∈ Comment.likes c' ↔ x ∈ Comment.likes c)
        ∧ Comment.content c' = Comment.content c
        ∧ Comment.video c' = Comment.video c
        ∧ Comment.owner c' = Comment.owner c.
Proof.
  intros Hp Hc Hcm Hu. cbv zeta. unfold answer, toggleCommentLike.
  rewrite Hp, Hu. unfold findById_unchecked.
  rewrite (run_bind_ok _ _ _ _ _
             (findById_found Comments s i c (new_response w) Hc Hcm)).
  cbv beta iota zeta.
  change (if bool_decide (u ∈ Comment.likes c)
          then List.filter (λ id, negb (N.eqb id u)) (Comment.likes c)
          else (Comment.likes c ++ [u])%list)
    with (toggled_array u (Comment.likes c)).
  rewrite run_bind. unfold Comment_save. rewrite decide_False.
  2:{ intros Heq. apply (f_equal Comment.likes) in Heq.
      cbn [Comment.likes] in Heq.
      pose proof (toggled_array_liked u (Comment.likes c)) as Hl.
      rewrite <- Heq in Hl. tauto. }
  cbn [Comments new_response set_res_sent set_res_statusCode].
  rewrite Hcm. rewrite run_bind. unfold res_status, modify, res_json_return.
  cbn [fst snd res_sent res_statusCode Comments Likes now new_response
    set_res_sent set_res_statusCode set_Comments Comment.set_updatedAt
    Comment.likes Comment.content Comment.video Comment.owner].
  exists (Comment.mk (Comment.content c) (Comment.video c) (Comment.owner c)
            (toggled_array u (Comment.likes c)) (Comment.createdAt c)
            (now w)).
  cbn [Comment.likes Comment.content Comment.video Comment.owner].
  split; [reflexivity|]. split; [reflexivity|]. split; [reflexivity|].
  split; [reflexivity|]. split; [apply toggled_array_liked|].
  split; [|repeat split].
  intros x Hx. apply toggled_array_elem_others. exact Hx.
Qed.

(** X30. [addVideoToPlaylist] recognises a video by the text of its
    identifier, not by the identifier: when the text sent differs from the
    text of every video in the list, the identifier it is cast to is
    appended, also when the list holds that identifier already, and the
    list is then no longer free of duplicates. *)
Theorem addVideoToPlaylist_compares_text (req : Request) (w : World)
    (sp s : string) (p i : ObjectId) (pl : Playlist.t) :
  castObjectId sp = Some p → params_videoId req = Some s →
  castObjectId s = Some i →
  (∀ x, x ∈ Playlist.videos pl → toString x ≠ s) →
  Playlists w !! p = Some pl →
  let r := answer (addVideoToPlaylist (Some sp) req) w in
  ∃ pl', r.1 = inr (mkEnvelope 200 (p, pl')
                      "Video added to playlist successfully")
         ∧ Playlists r.2 = <[p := pl']> (Playlists w)
         ∧ Playlist.videos pl' = (Playlist.videos pl ++ [i])%list
         ∧ (i ∈ Playlist.videos pl → ¬ NoDup (Playlist.videos pl')).
Proof.
  intros Hcp Hp Hc Htext Hpl. cbv zeta.
  unfold answer, addVideoToPlaylist.
  rewrite Hp, (isValid_Some sp p Hcp), (isValid_Some s i Hc). cbn [negb orb].
  rewrite (run_bind_ok _ _ _ _ _
             (findById_found Playlists sp p pl (new_response w) Hcp Hpl)).
  cbv beta iota. cbn [default from_option id].
  assert (Hex : existsb (λ id, String.eqb (toString id) s)
                  (Playlist.videos pl) = false).
  { apply not_true_is_false. intros Hex.
    apply existsb_exists in Hex as (x & Hx & Heq).
    apply list_elem_of_In in Hx. apply String.eqb_eq in Heq.
    exact (Htext x Hx Heq). }
  rewrite Hex.
  rewrite (run_bind_ok _ _ _ _ _ (toObjectId_run _ _ _ _ Hc)).
  assert (Hne : (Playlist.videos pl ++ [i])%list ≠ Playlist.videos pl).
  { intros Heq. apply (f_equal length) in Heq.
    rewrite length_app in Heq. cbn [length] in Heq. lia. }
  rewrite (run_bind_ok _ _ _ _ _
             (Playlist_save_videos p pl _ (new_response w) Hne Hpl)).
  rewrite run_bind. unfold res_status, modify, res_json_return.
  cbn [fst snd res_sent res_statusCode Playlists now new_response
    set_res_sent set_res_statusCode set_Playlists].
  eexists. split; [reflexivity|]. split; [reflexivity|].
  cbn [Playlist.videos]. split; [reflexivity|].
  intros Hin Hnd. apply NoDup_app in Hnd as (_ & Hdisj & _).
  apply (Hdisj i Hin). apply list_elem_of_singleton. reflexivity.
Qed.

End MoreHandlers.

(** * The further properties at concrete inputs *)

#[local] Existing Instance sampleExternals.
#[local] Existing Instance sampleToString.

Lemma malformed_id_is_refused_with_400_witness :
  let req : Request :=
    with_params (Some "not-an-id") (Some "Edited") (Some bob) in
  let w : World := busy_world gateway_ok_upload in
  Forall (λ handler, refuses 400 handler req w)
    [updateVideo; deleteVideo; togglePublishStatus; toggleVideoLike;
     updateComment; deleteComment; deleteTweet; getUserTweets;
     getUserPlaylists; toggleSubscription; getChannelVideos].
Proof.
  intros req w.
  apply (malformed_id_is_refused_with_400 req w); concrete.
Defined.

Lemma dangling_id_is_refused_with_404_witness :
  let w : World := empty_world ∅ in
  let s : string := video_hex in
  let content : string := "Edited" in
  let i : ObjectId := video_id in
  let userId : option ObjectId := Some bob in
  Forall (λ handler,
            refuses 404 handler (with_params (Some s) (Some content) userId) w)
    [updateVideo; deleteVideo; togglePublishStatus; toggleVideoLike;
     updateComment; deleteComment; deleteTweet; toggleSubscription;
     getChannelVideos].
Proof.
  intros w s content i userId.
  apply (dangling_id_is_refused_with_404 w s content i userId); concrete.
Defined.

Lemma deleteVideo_by_owner_removes_the_video_witness :
  let req : Request := on_video video_hex alice in
  let w : World := sample_world [] ∅ ∅ gateway_ok_destroy in
  let s : string := video_hex in
  let i : ObjectId := video_id in
  let v : Video.t := alice_video [] in
  let dv : DestroyResponse := mkDestroy "ok" in
  let dt : DestroyResponse := mkDestroy "ok" in
  let r := serve deleteVideo req w in
  r.1 = inr tt
  ∧ res_sent r.2
    = Some (200, JApiResponse
                   (mkApiResponse 200 DEmptyObject
                      "Video deleted successfully"))
  ∧ Videos r.2 = delete i (Videos w)
  ∧ (findById Videos (Some s) r.2).1 = inr None
  ∧ Comments r.2 = Comments w
  ∧ Likes r.2 = Likes w.
Proof.
  intros req w s i v dv dt.
  apply (deleteVideo_by_owner_removes_the_video req w s i v dv dt); concrete.
Defined.

Lemma deleteVideo_throws_without_deleting_witness :
  let req : Request := on_video video_hex alice in
  let w : World := sample_world [] ∅ ∅ gateway_fail_abc in
  let e : Exn := ApiError 500 "Failed to delete video from Cloudinary" in
  Videos (serve deleteVideo req w).2 = Videos w.
Proof.
  intros req w e.
  apply (deleteVideo_throws_without_deleting req w e); concrete.
Defined.

Lemma video_owner_only_witness :
  let req : Request := on_video video_hex bob in
  let w : World := sample_world [] ∅ ∅ gateway_ok_destroy in
  let s : string := video_hex in
  let i : ObjectId := video_id in
  let u : ObjectId := bob in
  let v : Video.t := alice_video [] in
  refuses 403 deleteVideo req w ∧ refuses 403 togglePublishStatus req w.
Proof.
  intros req w s i u v.
  apply (video_owner_only req w s i u v); concrete.
Defined.

Lemma comment_owner_only_witness :
  let req : Request :=
    with_params (Some comment_hex) (Some "Edited") (Some carol) in
  let w : World := busy_world gateway_ok_upload in
  let s : string := comment_hex in
  let text : string := "Edited" in
  let i : ObjectId := comment_id in
  let u : ObjectId := carol in
  let c : Comment.t := bob_comment in
  refuses 403 updateComment req w ∧ refuses 403 deleteComment req w.
Proof.
  intros req w s text i u c.
  apply (comment_owner_only req w s text i u c); concrete.
Defined.

Lemma togglePublishStatus_twice_restores_witness :
  let req : Request := on_video video_hex alice in
  let w : World := sample_world [] ∅ ∅ gateway_ok_destroy in
  let s : string := video_hex in
  let i : ObjectId := video_id in
  let v : Video.t := alice_video [] in
  let r1 := serve togglePublishStatus req w in
  let r2 := serve togglePublishStatus req r1.2 in
  r1.1 = inr tt ∧ r2.1 = inr tt
  ∧ Videos r1.2
    = <[i := Video.set_updatedAt (now w)
               (Video.set_isPublished (negb (Video.isPublished v)) v)]>
        (Videos w)
  ∧ Videos r2.2 = <[i := Video.set_updatedAt (now w) v]> (Videos w).
Proof.
  intros req w s i v.
  apply (togglePublishStatus_twice_restores req w s i v); concrete.
Defined.

Lemma updateVideo_blank_fields_change_nothing_witness :
  let req : Request := edit_video None None bob in
  let w : World := busy_world gateway_ok_upload in
  let s : string := video_hex in
  let i : ObjectId := video_id in
  let v : Video.t := commented_video in
  let r := serve updateVideo req w in
  r.1 = inr tt
  ∧ res_sent r.2
    = Some (200, JApiResponse
                   (mkApiResponse 200 (DVideo i v)
                      "Video updated successfully"))
  ∧ store r.2 = store w.
Proof.
  intros req w s i v.
  apply (updateVideo_blank_fields_change_nothing req w s i v); concrete.
Defined.

Lemma updateVideo_rejects_title_out_of_bounds_witness :
  let req : Request := edit_video (Some " ab ") None bob in
  let w : World := busy_world gateway_ok_upload in
  let s : string := video_hex in
  let newTitle : string := " ab " in
  let i : ObjectId := video_id in
  let v : Video.t := commented_video in
  let r := serve updateVideo req w in
  r.1 = inl (ValidationError ["title"])
  ∧ res_sent r.2 = None
  ∧ store r.2 = store w.
Proof.
  intros req w s newTitle i v.
  apply (updateVideo_rejects_title_out_of_bounds req w s newTitle i v);
    [ concrete
    | concrete
    | concrete
    | concrete
    | concrete
    | concrete
    | concrete
    | left; vm_compute; lia
    | concrete
    | concrete ].
Defined.

Lemma updateVideo_failed_thumbnail_saves_nothing_witness :
  let req : Request := edit_video None (Some "/tmp/t.png") bob in
  let w : World := busy_world gateway_no_upload in
  let s : string := video_hex in
  let path : string := "/tmp/t.png" in
  let i : ObjectId := video_id in
  let v : Video.t := commented_video in
  let r := serve updateVideo req w in
  r.1 = inl (ApiError 400 "Failed to upload thumbnail")
  ∧ res_sent r.2 = None
  ∧ Videos r.2 = Videos w
  ∧ files r.2 = files w ∖ {[path]}.
Proof.
  intros req w s path i v.
  apply (updateVideo_failed_thumbnail_saves_nothing
           req w s path i v); concrete.
Defined.

Lemma publishAVideo_incomplete_is_refused_witness :
  let req : Request := no_request in
  let w : World := empty_world ∅ in
  refuses 400 publishAVideo req w.
Proof.
  intros req w.
  apply (publishAVideo_incomplete_is_refused req w); concrete.
Defined.

Lemma publishAVideo_failed_upload_stores_nothing_witness :
  let req : Request := publish_by_alice "abc" "0123456789" in
  let w : World := busy_world gateway_no_upload in
  let videoPath : string := "/tmp/v.mp4" in
  let thumbnailPath : string := "/tmp/t.png" in
  let r := serve publishAVideo req w in
  r.1 = inl (ApiError 500 "Error uploading files to Cloudinary")
  ∧ res_sent r.2 = None
  ∧ Videos r.2 = Videos w
  ∧ files r.2 = files w ∖ {[videoPath]} ∖ {[thumbnailPath]}
  ∧ gateway_calls r.2
    = (gateway_calls w
       ++ [Upload videoPath ("$" +:+ uuids w (uuids_taken w)) RAuto;
           Upload thumbnailPath ("$" +:+ uuids w (S (uuids_taken w)))
             RAuto])%list.
Proof.
  intros req w videoPath thumbnailPath.
  apply (publishAVideo_failed_upload_stores_nothing
           req w videoPath thumbnailPath);
    [ concrete
    | concrete
    | concrete
    | concrete
    | concrete
    | concrete
    | concrete
    | concrete
    | concrete
    | concrete
    | left; reflexivity ].
Defined.

Lemma updateComment_by_owner_replaces_content_witness :
  let req : Request :=
    with_params (Some comment_hex) (Some "Edited") (Some bob) in
  let w : World := busy_world gateway_ok_upload in
  let s : string := comment_hex in
  let text : string := "Edited" in
  let i : ObjectId := comment_id in
  let c : Comment.t := bob_comment in
  let c' := Comment.set_updatedAt (now w) (Comment.set_content text c) in
  let r := serve updateComment req w in
  r.1 = inr tt
  ∧ res_sent r.2
    = Some (200, JApiResponse
                   (mkApiResponse 200 (DComment i c')
                      "Comment updated successfully"))
  ∧ Comments r.2 = <[i := c']> (Comments w)
  ∧ Videos r.2 = Videos w.
Proof.
  intros req w s text i c.
  apply (updateComment_by_owner_replaces_content req w s text i c); concrete.
Defined.

Lemma deleteComment_by_owner_removes_and_pulls_witness :
  let req : Request :=
    with_params (Some comment_hex) (Some "Edited") (Some bob) in
  let w : World := busy_world gateway_ok_upload in
  let s : string := comment_hex in
  let i : ObjectId := comment_id in
  let c : Comment.t := bob_comment in
  let r := serve deleteComment req w in
  r.1 = inr tt
  ∧ fst <$> res_sent r.2 = Some 200
  ∧ Comments r.2 = delete i (Comments w)
  ∧ (∀ v, Videos w !! Comment.video c = Some v →
          ∃ v', Videos r.2 !! Comment.video c = Some v'
                ∧ (i ∉ Video.comments v')
                ∧ Video.comments v'
                  = List.filter (λ x, negb (N.eqb x i)) (Video.comments v)
                ∧ Video.likes v' = Video.likes v
                ∧ Video.title v' = Video.title v)
  ∧ (∀ j, j ≠ Comment.video c → Videos r.2 !! j = Videos w !! j).
Proof.
  intros req w s i c.
  apply (deleteComment_by_owner_removes_and_pulls req w s i c); concrete.
Defined.

Lemma deleteTweet_by_owner_then_gone_witness :
  let req : Request := with_params (Some tweet_hex) None (Some bob) in
  let w : World := busy_world gateway_ok_upload in
  let s : string := tweet_hex in
  let i : ObjectId := tweet_id in
  let t : Tweet.t := bob_tweet in
  let r := serve deleteTweet req w in
  r.1 = inr tt
  ∧ fst <$> res_sent r.2 = Some 200
  ∧ Tweets r.2 = delete i (Tweets w)
  ∧ (serve deleteTweet req r.2).1 = inl (ApiError 404 "Tweet not found").
Proof.
  intros req w s i t.
  apply (deleteTweet_by_owner_then_gone req w s i t); concrete.
Defined.

Lemma getUserTweets_lists_the_owner_s_tweets_witness :
  let req : Request := with_params (Some bob_hex) None None in
  let w : World := busy_world gateway_ok_upload in
  let s : string := bob_hex in
  let i : ObjectId := bob in
  let r := serve getUserTweets req w in
  ∃ tweets,
    r.1 = inr tt
    ∧ res_sent r.2
      = Some (200, JApiResponse
                     (mkApiResponse 200 (DTweets tweets)
                        "User tweets fetched successfully"))
    ∧ (∀ k t, (k, t) ∈ tweets ↔ Tweets w !! k = Some t ∧ Tweet.owner t = i)
    ∧ NoDup tweets
    ∧ Sorted (newest_first (λ d, Tweet.createdAt d.2)) tweets.
Proof.
  intros req w s i.
  apply (getUserTweets_lists_the_owner_s_tweets req w s i);
    [ concrete
    | concrete
    | exists tweet_id, bob_tweet; split; reflexivity ].
Defined.

Lemma getChannelVideos_lists_the_channel_s_videos_witness :
  let req : Request := with_params (Some alice_hex) None None in
  let w : World := busy_world gateway_ok_upload in
  let s : string := alice_hex in
  let i : ObjectId := alice in
  let channel : User.t := User.mk "Alice A" "alice" "a.png" in
  let r := serve getChannelVideos req w in
  ∃ cards,
    r.1 = inr tt
    ∧ res_sent r.2
      = Some (200, JApiResponse
                     (mkApiResponse 200 (DVideoCards cards)
                        "Channel videos fetched successfully"))
    ∧ (∀ card, card ∈ cards ↔
         ∃ k v, Videos w !! k = Some v ∧ Video.owner v = i
                ∧ card = toVideoCard None (k, v))
    ∧ NoDup (vc_id <$> cards)
    ∧ Sorted (newest_first vc_createdAt) cards.
Proof.
  intros req w s i channel.
  apply (getChannelVideos_lists_the_channel_s_videos req w s i channel);
    [ concrete
    | concrete
    | concrete
    | exists video_id, commented_video; split; reflexivity ].
Defined.

Lemma getLikedVideos_lists_what_the_user_liked_witness :
  let req : Request := on_video video_hex bob in
  let w : World := sample_world [bob] ∅ ∅ gateway_ok_destroy in
  let u : ObjectId := bob in
  let r := serve getLikedVideos req w in
  ∃ cards message,
    r.1 = inr tt
    ∧ res_sent r.2
      = Some (200, JApiResponse
                     (mkApiResponse 200 (DVideoCards cards) message))
    ∧ (∀ card, card ∈ cards ↔
         ∃ k v, Videos w !! k = Some v ∧ u ∈ Video.likes v
                ∧ card = toVideoCard (Users w !! Video.owner v) (k, v))
    ∧ NoDup (vc_id <$> cards).
Proof.
  intros req w u.
  apply (getLikedVideos_lists_what_the_user_liked req w u); concrete.
Defined.

Lemma toggleVideoLike_reports_the_new_state_witness :
  let req : Request := on_video video_hex bob in
  let w : World :=
    sample_world [carol] {[ 8%N := like_of carol ]} ∅ gateway_ok_destroy in
  let s : string := video_hex in
  let i : ObjectId := video_id in
  let u : ObjectId := bob in
  let v : Video.t := alice_video [carol] in
  let r := serve toggleVideoLike req w in
  ∃ message,
    r.1 = inr tt
    ∧ res_sent r.2
      = Some (200, JApiResponse
                     (mkApiResponse 200
                        (DLikeStatus i (length (likesOfVideo i r.2))
                           (bool_decide (u ∈ likesArray i r.2)))
                        message)).
Proof.
  intros req w s i u v.
  apply (toggleVideoLike_reports_the_new_state req w s i u v); concrete.
Defined.

Lemma toggleVideoLike_touches_only_its_pair_witness :
  let req : Request := on_video video_hex bob in
  let w : World :=
    sample_world [carol] {[ 8%N := like_of carol ]} ∅ gateway_ok_destroy in
  let s : string := video_hex in
  let i : ObjectId := video_id in
  let u : ObjectId := bob in
  let v : Video.t := alice_video [carol] in
  let r := serve toggleVideoLike req w in
  (∀ x, x ≠ u →
        occurrences x (likesArray i r.2) = occurrences x (Video.likes v))
  ∧ Videos r.2
    = <[i := Video.set_updatedAt (now w)
               (Video.set_likes (likesArray i r.2) v)]> (Videos w)
  ∧ (∀ k d, ¬ (Like.likedBy d = u ∧ Like.video d = Some i) →
            (Likes r.2 !! k = Some d ↔ Likes w !! k = Some d))
  ∧ Comments r.2 = Comments w ∧ Tweets r.2 = Tweets w
  ∧ Subscriptions r.2 = Subscriptions w.
Proof.
  intros req w s i u v.
  apply (toggleVideoLike_touches_only_its_pair req w s i u v); concrete.
Defined.

Lemma toggleSubscription_twice_restores_witness :
  let req : Request := subscribe_bob_to_alice in
  let w : World := empty_world ∅ in
  let s : string := alice_hex in
  let c : ObjectId := alice in
  let u : ObjectId := bob in
  let channel : User.t := User.mk "Alice A" "alice" "a.png" in
  let r1 := serve toggleSubscription req w in
  let r2 := serve toggleSubscription req r1.2 in
  length (subscriptionsOf u c r1.2) = 1 - length (subscriptionsOf u c w)
  ∧ length (subscriptionsOf u c r2.2) = length (subscriptionsOf u c w)
  ∧ (∀ k d, ¬ (Subscription.subscriber d = u ∧ Subscription.channel d = c) →
            (Subscriptions r2.2 !! k = Some d ↔ Subscriptions w !! k = Some d)).
Proof.
  intros req w s c u channel.
  apply (toggleSubscription_twice_restores req w s c u channel); concrete.
Defined.

Lemma addComment_stores_and_links_witness :
  let req : Request :=
    with_params (Some video_hex) (Some "First!") (Some bob) in
  let w : World := busy_world gateway_ok_upload in
  let s : string := video_hex in
  let text : string := "First!" in
  let i : ObjectId := video_id in
  let u : ObjectId := bob in
  let v : Video.t := commented_video in
  let j := newObjectId (Comments w) in
  let c := Comment.mk text i u [] (now w) (now w) in
  let r := serve addComment req w in
  r.1 = inr tt
  ∧ res_sent r.2
    = Some (201, JApiResponse
                   (mkApiResponse 201 (DComment j c)
                      "Comment added successfully"))
  ∧ Comments w !! j = None
  ∧ Comments r.2 = <[j := c]> (Comments w)
  ∧ (∃ v', Videos r.2 !! i = Some v'
           ∧ Video.comments v' = (Video.comments v ++ [j])%list
           ∧ Video.likes v' = Video.likes v
           ∧ Video.owner v' = Video.owner v)
  ∧ (∀ k, k ≠ i → Videos r.2 !! k = Videos w !! k).
Proof.
  intros req w s text i u v.
  apply (addComment_stores_and_links req w s text i u v); concrete.
Defined.

Lemma addComment_then_deleteComment_restores_witness :
  let req : Request :=
    with_params (Some video_hex) (Some "First!") (Some bob) in
  let req' : Request :=
    with_params (Some "0000000000000000000000b1") None (Some bob) in
  let w : World := busy_world gateway_ok_upload in
  let s : string := video_hex in
  let s' : string := "0000000000000000000000b1" in
  let text : string := "First!" in
  let i : ObjectId := video_id in
  let u : ObjectId := bob in
  let v : Video.t := commented_video in
  let r := serve deleteComment req' (serve addComment req w).2 in
  r.1 = inr tt
  ∧ Comments r.2 = Comments w
  ∧ (∃ v', Videos r.2 !! i = Some v'
           ∧ Video.comments v' = Video.comments v)
  ∧ (∀ k, k ≠ i → Videos r.2 !! k = Videos w !! k).
Proof.
  intros req req' w s s' text i u v.
  apply (addComment_then_deleteComment_restores
           req req' w s s' text i u v); concrete.
Defined.

Lemma addVideoToPlaylist_keeps_videos_distinct_witness :
  let req : Request := on_video video_hex bob in
  let w : World := busy_world gateway_ok_upload in
  let sp : string := playlist_hex in
  let s : string := video_hex in
  let p : ObjectId := playlist_id in
  let i : ObjectId := video_id in
  let pl : Playlist.t := alice_playlist in
  let r := answer (addVideoToPlaylist (Some sp) req) w in
  (i ∈ Playlist.videos pl →
     r.1 = inl (ApiError 400 "Video already exists in the playlist")
     ∧ Playlists r.2 = Playlists w)
  ∧ (i ∉ Playlist.videos pl →
     ∃ pl', r.1 = inr (mkEnvelope 200 (p, pl')
                         "Video added to playlist successfully")
            ∧ Playlists r.2 = <[p := pl']> (Playlists w)
            ∧ Playlist.videos pl' = (Playlist.videos pl ++ [i])%list
            ∧ NoDup (Playlist.videos pl')
            ∧ Playlist.name pl' = Playlist.name pl
            ∧ Playlist.owner pl' = Playlist.owner pl).
Proof.
  intros req w sp s p i pl.
  apply (addVideoToPlaylist_keeps_videos_distinct req w sp s p i pl);
    [ concrete
    | concrete
    | concrete
    | concrete
    | intros x Hx; change (x ∈ [video_id]) in Hx;
      apply list_elem_of_singleton in Hx; subst x; reflexivity
    | concrete
    | apply NoDup_singleton ].
Defined.

Lemma add_then_remove_restores_the_playlist_witness :
  let req : Request := on_video "0000000000000000000000a1" bob in
  let w : World := busy_world gateway_ok_upload in
  let sp : string := playlist_hex in
  let s : string := "0000000000000000000000a1" in
  let p : ObjectId := playlist_id in
  let i : ObjectId := 161%N in
  let pl : Playlist.t := alice_playlist in
  let r := answer (removeVideoFromPlaylist (Some sp) req)
             (answer (addVideoToPlaylist (Some sp) req) w).2 in
  ∃ pl', r.1 = inr (mkEnvelope 200 (p, pl')
                      "Video removed from playlist successfully")
         ∧ Playlists r.2 = <[p := pl']> (Playlists w)
         ∧ Playlist.videos pl' = Playlist.videos pl
         ∧ Playlist.name pl' = Playlist.name pl
         ∧ Playlist.description pl' = Playlist.description pl
         ∧ Playlist.owner pl' = Playlist.owner pl
         ∧ Playlist.createdAt pl' = Playlist.createdAt pl.
Proof.
  intros req w sp s p i pl.
  apply (add_then_remove_restores_the_playlist req w sp s p i pl);
    [ concrete
    | concrete
    | concrete
    | concrete
    | intros x Hx; change (x ∈ [video_id]) in Hx;
      apply list_elem_of_singleton in Hx; subst x; reflexivity
    | concrete
    | intros Hx; change (161%N ∈ [video_id]) in Hx;
      apply list_elem_of_singleton in Hx; discriminate ].
Defined.

Lemma deletePlaylist_by_anyone_then_gone_witness :
  let req : Request := with_params None None (Some bob) in
  let w : World := busy_world gateway_ok_upload in
  let sp : string := playlist_hex in
  let p : ObjectId := playlist_id in
  let pl : Playlist.t := alice_playlist in
  let r := serve (deletePlaylist (Some sp)) req w in
  r.1 = inr tt
  ∧ res_sent r.2
    = Some (200, JApiResponse
                   (mkApiResponse 200 DEmptyObject
                      "Playlist deleted successfully"))
  ∧ Playlists r.2 = delete p (Playlists w)
  ∧ serve (deletePlaylist (Some sp)) req r.2
    = (inl (ApiError 404 "Playlist not found"), new_response r.2).
Proof.
  intros req w sp p pl.
  apply (deletePlaylist_by_anyone_then_gone req w sp p pl); concrete.
Defined.

Lemma toggleCommentLike_flips_membership_witness :
  let req : Request := with_params (Some comment_hex) None (Some carol) in
  let w : World := busy_world gateway_ok_upload in
  let s : string := comment_hex in
  let i : ObjectId := comment_id in
  let u : ObjectId := carol in
  let c : Comment.t := bob_comment in
  let r := answer (toggleCommentLike req) w in
  ∃ c', r.1 = inr (mkEnvelope 200 (length (Comment.likes c'))
                     "Like toggled successfully")
        ∧ res_statusCode r.2 = 200
        ∧ Comments r.2 = <[i := c']> (Comments w)
        ∧ Likes r.2 = Likes w
        ∧ (u ∈ Comment.likes c' ↔ u ∉ Comment.likes c)
        ∧ (∀ x, x ≠ u → x ∈ Comment.likes c' ↔ x ∈ Comment.likes c)
        ∧ Comment.content c' = Comment.content c
        ∧ Comment.video c' = Comment.video c
        ∧ Comment.owner c' = Comment.owner c.
Proof.
  intros req w s i u c.
  apply (toggleCommentLike_flips_membership req w s i u c); concrete.
Defined.

Lemma addVideoToPlaylist_compares_text_witness :
  let req : Request := on_video "0000000000000000000000A0" bob in
  let w : World := busy_world gateway_ok_upload in
  let sp : string := playlist_hex in
  let s : string := "0000000000000000000000A0" in
  let p : ObjectId := playlist_id in
  let i : ObjectId := video_id in
  let pl : Playlist.t := alice_playlist in
  let r := answer (addVideoToPlaylist (Some sp) req) w in
  ∃ pl', r.1 = inr (mkEnvelope 200 (p, pl')
                      "Video added to playlist successfully")
         ∧ Playlists r.2 = <[p := pl']> (Playlists w)
         ∧ Playlist.videos pl' = (Playlist.videos pl ++ [i])%list
         ∧ (i ∈ Playlist.videos pl → ¬ NoDup (Playlist.videos pl')).
Proof.
  intros req w sp s p i pl.
  apply (addVideoToPlaylist_compares_text req w sp s p i pl);
    [ concrete
    | concrete
    | concrete
    | intros x Hx; change (x ∈ [video_id]) in Hx;
      apply list_elem_of_singleton in Hx; subst x; vm_compute;
      discriminate
    | concrete ].
Defined.
